(** * Phoenix dataset routers: a shallow embedding and its verification

    The development embeds the request handlers of
    [phoenix/server/api/routers/v1/datasets.py] and
    [phoenix/server/api/routers/v1/experiment_evaluations.py] and proves the
    properties of the dataset versioning and ingestion engine against them.

    Python values are modelled as follows: [str] as [string], [frozenset] of
    strings as [gset string], JSON objects and [dict]s with string keys as
    [gmap string value], database tables as lists of records, integers as
    [Z].  Code that may raise returns a [result]. *)

From Stdlib Require Import ZArith List String Ascii Bool Lia.
From stdpp Require Import base option list gmap sets strings sorting pretty.

Local Open Scope string_scope.

(** ** Python prelude *)
Module Py.

(** The exceptions the handlers raise or let through. *)
Inductive exn : Type :=
| ValueError (msg : string)
| KeyError (key : string)
| QueueFull
| RecursionError
| ArrowInvalid
| OtherError (what : string).

Inductive result (A : Type) : Type :=
| Ok (a : A)
| Raise (e : exn).
Arguments Ok {A} a.
Arguments Raise {A} e.

Definition bind {A B} (r : result A) (k : A -> result B) : result B :=
  match r with
  | Ok a => k a
  | Raise e => Raise e
  end.

(** [except ValueError as e]: the message when [r] raised a ValueError. *)
Definition value_error {A} (r : result A) : option string :=
  match r with Raise (ValueError m) => Some m | _ => None end.

(** [str(v)] of an [Optional[str]]. *)
Definition str_of (v : option string) : string :=
  match v with Some s => s | None => "None" end.

Definition is_ascii_char (c : ascii) : bool := (nat_of_ascii c <? 128)%nat.
Definition is_upper_char (c : ascii) : bool :=
  (65 <=? nat_of_ascii c)%nat && (nat_of_ascii c <=? 90)%nat.
Definition is_lower_char (c : ascii) : bool :=
  (97 <=? nat_of_ascii c)%nat && (nat_of_ascii c <=? 122)%nat.
Definition lower_char (c : ascii) : ascii :=
  if is_upper_char c then ascii_of_nat (nat_of_ascii c + 32) else c.

(** [str.isascii], [str.lower] and [str.islower].  The two routers call
    [lower] and [islower] only behind [isascii], and on ASCII strings the
    definitions below are the ones of Python: the cased characters are the
    letters A-Z and a-z. *)
Fixpoint isascii (s : string) : bool :=
  match s with
  | EmptyString => true
  | String c s' => is_ascii_char c && isascii s'
  end.

Fixpoint lower (s : string) : string :=
  match s with
  | EmptyString => EmptyString
  | String c s' => String (lower_char c) (lower s')
  end.

Fixpoint has_upper (s : string) : bool :=
  match s with
  | EmptyString => false
  | String c s' => is_upper_char c || has_upper s'
  end.

Fixpoint has_lower (s : string) : bool :=
  match s with
  | EmptyString => false
  | String c s' => is_lower_char c || has_lower s'
  end.

(** True when there is a cased character and no cased character is upper
    case. *)
Definition islower (s : string) : bool := has_lower s && negb (has_upper s).

(** Truthiness of a [str]. *)
Definition truthy (s : string) : bool :=
  match s with EmptyString => false | _ => true end.

(** [repr] of a [str] without quotes or escapes in it, and of a
    [frozenset] of such strings; Python leaves the order in which a set is
    printed open, [elements] fixes one. *)
Definition repr_str (s : string) : string := "'" ++ s ++ "'".

Definition repr_frozenset (ks : gset string) : string :=
  "frozenset({" ++ String.concat ", " (map repr_str (elements ks)) ++ "})".

Definition dquote : string := String (ascii_of_nat 34) EmptyString.

Definition bytes : Type := list Byte.byte.

(** JSON scalars, enough for the payload documents and the columns of the
    tables. *)
Inductive value : Type :=
| VNull
| VBool (b : bool)
| VInt (n : Z)
| VStr (s : string).

End Py.
Export Py.

(** [result] is a monad; stdpp's [x ← e; k] notation sequences code that may
    raise. *)
#[export] Instance result_ret : MRet Py.result := fun A a => Py.Ok a.
#[export] Instance result_bind : MBind Py.result := fun A B k r => Py.bind r k.

(** ** Tables read and written by the routers *)
Module models.

(** Modelled from the spec: the module [phoenix.db.models] is not among the
    sources; the tables carry the attributes the data model of the
    specification gives them and the columns the routers read. *)
Inductive RevisionKind : Type := CREATE | PATCH | DELETE.

#[export] Instance RevisionKind_eq_dec : EqDecision RevisionKind.
Proof. solve_decision. Defined.

Record Dataset : Type := {
  dataset_pk : Z;
  dataset_name : string;
}.

Record DatasetVersion : Type := {
  version_pk : Z;
  version_dataset_id : Z;
}.

Record DatasetExample : Type := {
  example_pk : Z;
  example_dataset_id : Z;
}.

Record DatasetExampleRevision : Type := {
  dataset_example_id : Z;
  dataset_version_id : Z;
  revision_kind : RevisionKind;
  input : gmap string value;
  output : gmap string value;
  metadata_ : gmap string value;
}.

Record ExperimentRunAnnotation : Type := {
  id : Z;
  experiment_run_id : Z;
  name : string;
  annotator_kind : string;
  label : option string;
  score : option Z;
  explanation : option string;
  error : option string;
  metadata : gmap string value;
  start_time : string;
  end_time : string;
  trace_id : option string;
}.

Record Database : Type := {
  tbl_datasets : list Dataset;
  tbl_dataset_versions : list DatasetVersion;
  tbl_dataset_examples : list DatasetExample;
  tbl_dataset_example_revisions : list DatasetExampleRevision;
  tbl_experiment_run_annotations : list ExperimentRunAnnotation;
}.

Definition is_delete (k : RevisionKind) : bool :=
  match k with DELETE => true | _ => false end.

End models.

(** ** datasets.py *)
Module datasets.
Import models.

(** *** Declared content type and content encoding *)

Inductive FileContentType : Type := CSV | PYARROW.

Definition FileContentType_value (m : FileContentType) : string :=
  match m with
  | CSV => "text/csv"
  | PYARROW => "application/x-pandas-pyarrow"
  end.

(** The lookup of a member by value, [cls._value2member_map_[value]]. *)
Definition FileContentType_lookup (v : option string) : option FileContentType :=
  match v with
  | Some s =>
      if String.eqb s "text/csv" then Some CSV
      else if String.eqb s "application/x-pandas-pyarrow" then Some PYARROW
      else None
  | None => None
  end.

(** [FileContentType._missing_]; [cls] is the enumeration's constructor. *)
Definition FileContentType_missing_
    (cls : option string -> result FileContentType) (v : option string)
    : result FileContentType :=
  match v with
  | Some s =>
      if truthy s && isascii s && negb (islower s)
      then cls (Some (lower s))
      else Raise (ValueError ("Invalid file content type: " ++ str_of v))
  | None => Raise (ValueError ("Invalid file content type: " ++ str_of v))
  end.

(** [FileContentType(v)]: the member whose value is [v], and [_missing_]
    otherwise.  [_missing_] calls the constructor again, so the call depth
    is counted: [depth] frames are left before the interpreter raises
    [RecursionError]. *)
Fixpoint FileContentType_call (depth : nat) (v : option string)
    : result FileContentType :=
  match depth with
  | O => Raise RecursionError
  | S depth' =>
      match FileContentType_lookup v with
      | Some m => Ok m
      | None => FileContentType_missing_ (FileContentType_call depth') v
      end
  end.

Inductive FileContentEncoding : Type := NONE | GZIP | DEFLATE.

Definition FileContentEncoding_value (m : FileContentEncoding) : string :=
  match m with
  | NONE => "none"
  | GZIP => "gzip"
  | DEFLATE => "deflate"
  end.

Definition FileContentEncoding_lookup (v : option string)
    : option FileContentEncoding :=
  match v with
  | Some s =>
      if String.eqb s "none" then Some NONE
      else if String.eqb s "gzip" then Some GZIP
      else if String.eqb s "deflate" then Some DEFLATE
      else None
  | None => None
  end.

Definition FileContentEncoding_missing_
    (cls : option string -> result FileContentEncoding) (v : option string)
    : result FileContentEncoding :=
  match v with
  | None => cls (Some "none")
  | Some s =>
      if truthy s && isascii s && negb (islower s)
      then cls (Some (lower s))
      else Raise (ValueError ("Invalid file content encoding: " ++ str_of v))
  end.

Fixpoint FileContentEncoding_call (depth : nat) (v : option string)
    : result FileContentEncoding :=
  match depth with
  | O => Raise RecursionError
  | S depth' =>
      match FileContentEncoding_lookup v with
      | Some m => Ok m
      | None => FileContentEncoding_missing_ (FileContentEncoding_call depth') v
      end
  end.

(** The interpreter's default recursion limit. *)
Definition recursion_limit : nat := 1000.

(** *** Decoders *)

Definition Examples : Type := list (gmap string value).

(** The library code the decoders call: [gzip.decompress],
    [zlib.decompress], [bytes.decode], the rows of [csv.reader] over a text,
    the records [csv.DictReader] builds from the field names and the
    remaining rows, and [pa.ipc.open_stream] with the schema names and the
    records of [read_pandas().to_dict(orient="records")].

    The reader of [csv] is lazy and reads a row when it is asked for the next
    one: a row of [csv_reader] is the row, or the [csv.Error] the reader
    raises instead when it cannot split the line (a line end inside a field
    that is not quoted, a field above the field size limit).  [csv.Error] is
    no [ValueError]. *)
Class Library : Type := {
  gzip_decompress : bytes -> result bytes;
  zlib_decompress : bytes -> result bytes;
  bytes_decode : bytes -> result string;
  csv_reader : string -> list (result (list string));
  DictReader_records : list string -> list (result (list string)) -> Examples;
  pa_open_stream : bytes -> result (list string * Examples);
}.

(** [collections.Counter] keeps its keys in the order of their first
    occurrence. *)
Fixpoint Counter_add (x : string) (c : list (string * nat)) : list (string * nat) :=
  match c with
  | [] => [(x, 1%nat)]
  | (y, n) :: c' =>
      if String.eqb x y then (y, S n) :: c' else (y, n) :: Counter_add x c'
  end.

Definition Counter (l : list string) : list (string * nat) :=
  fold_left (fun c x => Counter_add x c) l [].

(** [max(items, key=itemgetter(1))]: the first item of the greatest count. *)
Fixpoint max_by_count (best : string * nat) (l : list (string * nat)) : string * nat :=
  match l with
  | [] => best
  | p :: l' =>
      if (snd best <? snd p)%nat then max_by_count p l' else max_by_count best l'
  end.

(** [Counter.most_common(1)], that is [heapq.nlargest(1, items, key)]. *)
Definition most_common_1 (c : list (string * nat)) : list (string * nat) :=
  match c with
  | [] => []
  | p :: c' => [max_by_count p c']
  end.

(** [DictReader.fieldnames]: [next(self.reader)], the first row of the
    reader, [None] when the reader is exhausted at once ([StopIteration] is
    caught), and the exception of the reader when it cannot read the row. *)
Definition fieldnames (rows : list (result (list string)))
    : result (option (list string)) :=
  match rows with
  | [] => Ok None
  | Ok r :: _ => Ok (Some r)
  | Raise e :: _ => Raise e
  end.

Section decoders.
Context `{Library}.

(** The branches of [_process_csv] on the content encoding. *)
Definition decompress (content : bytes) (content_encoding : FileContentEncoding)
    : result bytes :=
  match content_encoding with
  | GZIP => gzip_decompress content
  | DEFLATE => zlib_decompress content
  | NONE => Ok content
  end.

(** [_process_csv] from the construction of the reader on. *)
Definition read_csv (content : bytes) : result (Examples * gset string) :=
  text ← bytes_decode content;
  let rows := csv_reader text in
  reader_fieldnames ← fieldnames rows;
  match reader_fieldnames with
  | None => Raise (ValueError "Missing CSV column header")
  | Some names =>
      match most_common_1 (Counter names) with
      | [] =>
          Raise (ValueError
            "not enough values to unpack (expected at least 1, got 0)")
      | (header, freq) :: _ =>
          if (1 <? freq)%nat
          then Raise (ValueError
                 ("Duplicated column header in CSV file: " ++ header))
          else
            let column_headers : gset string := list_to_set names in
            Ok (DictReader_records names (tail rows), column_headers)
      end
  end.

Definition _process_csv (content : bytes) (content_encoding : FileContentEncoding)
    : result (Examples * gset string) :=
  content' ← decompress content content_encoding;
  read_csv content'.

Definition _process_pyarrow (content : bytes) : result (Examples * gset string) :=
  match pa_open_stream content with
  | Raise ArrowInvalid => Raise (ValueError "File is not valid pyarrow")
  | Raise e => Raise e
  | Ok (names, records) => Ok (records, list_to_set names)
  end.
End decoders.

(** *** Column roles *)

Definition check_keys (desc : string) (keys column_headers : gset string)
    : result unit :=
  let diff := keys ∖ column_headers in
  if decide (diff = ∅) then Ok tt
  else Raise (ValueError
         (desc ++ " keys not found in column headers: " ++ repr_frozenset diff)).

Definition _check_keys_exist
    (column_headers input_keys output_keys metadata_keys : gset string)
    : result unit :=
  _ ← check_keys "input" input_keys column_headers;
  _ ← check_keys "output" output_keys column_headers;
  check_keys "metadata" metadata_keys column_headers.

(** Modelled from the spec: [phoenix.db.insertion.dataset.DatasetAction] is
    not among the sources; the action is [create] (the default) or the
    append variant. *)
Inductive DatasetAction : Type := ACTION_CREATE | ACTION_APPEND.

Definition DatasetAction_call (v : string) : result DatasetAction :=
  if String.eqb v "create" then Ok ACTION_CREATE
  else if String.eqb v "append" then Ok ACTION_APPEND
  else Raise (ValueError (repr_str v ++ " is not a valid DatasetAction")).

Record UploadFile : Type := {
  filename : option string;
  content_type : option string;
  content_encoding_header : option string;
  file_content : bytes;
}.

Inductive FormValue : Type :=
| FormStr (s : string)
| FormFile (f : UploadFile).

(** The fields of the multipart form that [_parse_form_data] reads. *)
Record FormData : Type := {
  form_name : option string;
  form_action : option string;
  form_file : option FormValue;
  form_description : option string;
  form_input_keys : list string;
  form_output_keys : list string;
  form_metadata_keys : list string;
}.

Record ParsedForm : Type := {
  action : DatasetAction;
  name : string;
  description : option string;
  input_keys : gset string;
  output_keys : gset string;
  metadata_keys : gset string;
  file : UploadFile;
}.

(** [x or y] on optional strings. *)
Definition or_else (x : option string) (y : option string) : option string :=
  match x with
  | Some s => if truthy s then x else y
  | None => y
  end.

Definition check_overlap (what : string) (a b : gset string) : result unit :=
  let overlap := a ∩ b in
  if decide (overlap = ∅) then Ok tt
  else Raise (ValueError (what ++ " have overlap: " ++ repr_frozenset overlap)).

Definition _parse_form_data (form : FormData) : result ParsedForm :=
  match or_else (form_name form) None with
  | None => Raise (ValueError "Dataset name must not be empty")
  | Some name =>
      action ← DatasetAction_call
                 (default "create" (or_else (form_action form) None));
      match form_file form with
      | None => Raise (KeyError "file")
      | Some (FormStr _) => Raise (ValueError "Malformed file in form data.")
      | Some (FormFile file) =>
          let description := or_else (form_description form) (filename file) in
          let input_keys : gset string := list_to_set (form_input_keys form) in
          let output_keys : gset string := list_to_set (form_output_keys form) in
          let metadata_keys : gset string := list_to_set (form_metadata_keys form) in
          _ ← check_overlap "input_keys, output_keys" input_keys output_keys;
          _ ← check_overlap "input_keys and metadata_keys" input_keys metadata_keys;
          _ ← check_overlap "output_keys and metadata_keys" output_keys metadata_keys;
          Ok {| action := action; name := name; description := description;
                input_keys := input_keys; output_keys := output_keys;
                metadata_keys := metadata_keys; file := file |}
      end
  end.

(** *** Snapshot export *)

(** A global id after [GlobalID.from_id]: the string it was decoded from,
    the type name and the node id, read as the integer [int(node_id)]. *)
Record GlobalID : Type := {
  encoded : string;
  type_name : string;
  node_id : Z;
}.

(** The path parameters of the two download routes, after
    [GlobalID.from_id] and with the node ids read by [int]; [None] is a
    parameter that is absent or empty.  The decoding itself, which can raise,
    is in [get_dataset_download_csv] below. *)
Record DownloadRequest : Type := {
  datasetId : option GlobalID;
  datasetVersionId : option GlobalID;
}.

Inductive Body : Type :=
| NoBody
| Text (s : string)
| GzipCsv (records : list (gmap string value)).

Record Response : Type := {
  status_code : Z;
  content : Body;
  headers : list (string * string);
}.

Definition HTTP_403_FORBIDDEN : Z := 403.
Definition HTTP_404_NOT_FOUND : Z := 404.
Definition HTTP_422_UNPROCESSABLE_ENTITY : Z := 422.
Definition HTTP_429_TOO_MANY_REQUESTS : Z := 429.

Definition plain (status : Z) (body : Body) : Response :=
  {| status_code := status; content := body; headers := [] |}.

(** The rows [latest_version] reads before grouping: the revisions joined
    to their [DatasetExample], of the given dataset, and at or below the
    ceiling when there is one. *)
Definition under_ceiling (max_dataset_version_id : option Z)
    (r : DatasetExampleRevision) : bool :=
  match max_dataset_version_id with
  | Some m => (dataset_version_id r <=? m)%Z
  | None => true
  end.

Definition latest_version_from (db : Database) (dataset_id : Z)
    (max_dataset_version_id : option Z) : list DatasetExampleRevision :=
  r ← tbl_dataset_example_revisions db;
  e ← tbl_dataset_examples db;
  if (example_pk e =? dataset_example_id r)%Z
     && (example_dataset_id e =? dataset_id)%Z
     && under_ceiling max_dataset_version_id r
  then [r] else [].

(** [rank() over (order by k)] of a row with key [k] among rows with keys
    [keys]: one more than the number of rows that sort before it. *)
Definition rank (keys : list Z) (k : Z) : Z :=
  1 + Z.of_nat (length (filter (fun k' => (k' < k)%Z) keys)).

(** [max(column)] of a group that is not empty. *)
Definition sql_max (vs : list Z) : Z :=
  match vs with
  | [] => 0
  | v :: vs' => fold_left Z.max vs' v
  end.

Record LatestVersion : Type := {
  lv_dataset_example_id : Z;
  example_index : Z;
  lv_dataset_version_id : Z;
}.

Definition group_keys (rows : list DatasetExampleRevision) : list Z :=
  remove_dups (dataset_example_id <$> rows).

Definition group_of (rows : list DatasetExampleRevision) (k : Z)
    : list DatasetExampleRevision :=
  filter (fun r => dataset_example_id r = k) rows.

(** The subquery [latest_version]: one row for each example, with the rank
    of the example id among the groups, less one, and the greatest version
    id of the group. *)
Definition latest_version (db : Database) (dataset_id : Z)
    (max_dataset_version_id : option Z) : list LatestVersion :=
  let rows := latest_version_from db dataset_id max_dataset_version_id in
  let keys := group_keys rows in
  (fun k =>
     {| lv_dataset_example_id := k;
        example_index := rank keys k - 1;
        lv_dataset_version_id :=
          sql_max (dataset_version_id <$> group_of rows k) |})
  <$> keys.

Definition by_example_id (a b : DatasetExampleRevision * LatestVersion) : Prop :=
  (dataset_example_id (fst a) <= dataset_example_id (fst b))%Z.

#[export] Instance by_example_id_dec : RelDecision by_example_id.
Proof. intros a b. unfold by_example_id. apply _. Defined.

(** The rows of [stmt] before the projection: the revisions joined to
    [latest_version] on example and version id, the tombstones filtered
    out, ordered by example id. *)
Definition stmt_rows (db : Database) (dataset_id : Z)
    (max_dataset_version_id : option Z)
    : list (DatasetExampleRevision * LatestVersion) :=
  let subq := latest_version db dataset_id max_dataset_version_id in
  let joined :=
    r ← tbl_dataset_example_revisions db;
    lv ← subq;
    if (dataset_example_id r =? lv_dataset_example_id lv)%Z
       && (dataset_version_id r =? lv_dataset_version_id lv)%Z
    then [(r, lv)] else [] in
  merge_sort by_example_id
    (filter (fun p => is_delete (revision_kind (fst p)) = false) joined).

(** The columns [stmt] selects. *)
Definition stmt (db : Database) (dataset_id : Z) (max_dataset_version_id : option Z)
    : list (gmap string value * gmap string value * gmap string value * Z) :=
  (fun p => (input (fst p), output (fst p), metadata_ (fst p),
             example_index (snd p)))
  <$> stmt_rows db dataset_id max_dataset_version_id.

(** The record of one row: [{**metadata, **input, **output,
    "__example_index__": example_index}]. *)
Definition example_record
    (row : gmap string value * gmap string value * gmap string value * Z)
    : gmap string value :=
  let '(input, output, metadata, example_index) := row in
  <["__example_index__" := VInt example_index]> (output ∪ (input ∪ metadata)).

(** [select(models.Dataset.name).where(models.Dataset.id == dataset_id)]
    through [session.scalar]. *)
Definition select_dataset_name (db : Database) (dataset_id : Z) : option string :=
  dataset_name <$> head (filter (fun d => dataset_pk d = dataset_id) (tbl_datasets db)).

(** The version id when it is given and is not a [DatasetVersion] id. *)
Definition wrong_version_type (v : option GlobalID) : option GlobalID :=
  match v with
  | Some g => if String.eqb (type_name g) "DatasetVersion" then None else Some g
  | None => None
  end.

(** The handler on decoded ids: its tests of the ids, the queries and the
    answer. *)
Definition _get_dataset_download_csv (db : Database) (request : DownloadRequest)
    : Response :=
  match datasetId request with
  | None => plain HTTP_422_UNPROCESSABLE_ENTITY (Text "Missing Dataset ID")
  | Some dataset_global_id =>
      if negb (String.eqb (type_name dataset_global_id) "Dataset")
      then plain HTTP_422_UNPROCESSABLE_ENTITY
             (Text ("Invalid Dataset ID: " ++ encoded dataset_global_id))
      else
        match wrong_version_type (datasetVersionId request) with
        | Some v =>
            plain HTTP_422_UNPROCESSABLE_ENTITY
              (Text ("Invalid Dataset Version ID: " ++ encoded v))
        | None =>
            let dataset_id := node_id dataset_global_id in
            let max_dataset_version_id := node_id <$> datasetVersionId request in
            match or_else (select_dataset_name db dataset_id) None with
            | None => plain HTTP_404_NOT_FOUND (Text "Dataset does not exist.")
            | Some dataset_name =>
                let examples :=
                  example_record <$> stmt db dataset_id max_dataset_version_id in
                match examples with
                | [] =>
                    plain HTTP_404_NOT_FOUND
                      (Text ("Dataset has no examples: dataset_name="
                             ++ repr_str dataset_name))
                | _ =>
                    {| status_code := 200;
                       content := GzipCsv examples;
                       headers :=
                         [("content-disposition",
                           "attachment; filename=" ++ dquote ++ dataset_name
                             ++ ".csv" ++ dquote);
                          ("content-type", "text/csv");
                          ("content-encoding", "gzip")] |}
                end
            end
        end
  end.

(** [request.path_params] of the two download routes. *)
Record PathParams : Type := {
  path_datasetId : option string;
  path_datasetVersionId : option string;
}.

Section download_routes.
(** [GlobalID.from_id], which gives the type name and the node id of an
    encoded id and raises a [ValueError] for a string that is no encoded id,
    and [int] on a node id, which raises a [ValueError] for a string that is
    no integer. *)
Variable from_id : string -> result (string * string).
Variable int : string -> result Z.

(** [_get_dataset_download_csv] from the path parameters, as the routes
    [get_dataset_download_csv_by_dataset_id] and
    [get_dataset_download_csv_by_dataset_version_id] call it.  The calls of
    [GlobalID.from_id] and [int] stand where the source has them and are in
    no [try]: an exception of theirs leaves the handler.  With the ids
    decoded the handler goes on as [_get_dataset_download_csv] above, whose
    tests of the type names then pass. *)
Definition get_dataset_download_csv (db : Database) (path_params : PathParams)
    : result Response :=
  match or_else (path_datasetId path_params) None with
  | None => Ok (plain HTTP_422_UNPROCESSABLE_ENTITY (Text "Missing Dataset ID"))
  | Some encoded_dataset_id =>
      dataset_global_id ← from_id encoded_dataset_id;
      if negb (String.eqb (fst dataset_global_id) "Dataset")
      then Ok (plain HTTP_422_UNPROCESSABLE_ENTITY
                 (Text ("Invalid Dataset ID: " ++ encoded_dataset_id)))
      else
        let encoded_dataset_version_id :=
          or_else (path_datasetVersionId path_params) None in
        dataset_version_global_id ←
          match encoded_dataset_version_id with
          | Some encoded => g ← from_id encoded; Ok (Some (encoded, g))
          | None => Ok None
          end;
        match dataset_version_global_id with
        | Some (encoded, g) =>
            if negb (String.eqb (fst g) "DatasetVersion")
            then Ok (plain HTTP_422_UNPROCESSABLE_ENTITY
                       (Text ("Invalid Dataset Version ID: " ++ encoded)))
            else
              dataset_id ← int (snd dataset_global_id);
              max_dataset_version_id ← int (snd g);
              Ok (_get_dataset_download_csv db
                    {| datasetId :=
                         Some {| encoded := encoded_dataset_id;
                                 type_name := fst dataset_global_id;
                                 node_id := dataset_id |};
                       datasetVersionId :=
                         Some {| encoded := encoded; type_name := fst g;
                                 node_id := max_dataset_version_id |} |})
        | None =>
            dataset_id ← int (snd dataset_global_id);
            Ok (_get_dataset_download_csv db
                  {| datasetId :=
                       Some {| encoded := encoded_dataset_id;
                               type_name := fst dataset_global_id;
                               node_id := dataset_id |};
                     datasetVersionId := None |})
        end
  end.
End download_routes.

(** *** Upload intake *)

(** [partial(add_dataset_examples, examples=..., action=..., ...)]. *)
Record Operation : Type := {
  op_examples : Examples;
  op_action : DatasetAction;
  op_name : string;
  op_description : option string;
  op_input_keys : gset string;
  op_output_keys : gset string;
  op_metadata_keys : gset string;
}.

(** [request.app.state] and [request.state]: the read-only flag, the
    database behind [app.state.db()], and the admission queue behind
    [enqueue_operation] with its capacity. *)
Record AppState : Type := {
  read_only : bool;
  db : Database;
  queue : list Operation;
  capacity : nat;
}.

(** Modelled from the spec: [request.state.enqueue_operation] is bound
    outside the sources.  The admission queue has a fixed capacity and
    submission never blocks: at capacity it raises [QueueFull] at once,
    otherwise the operation goes to the back of the queue. *)
Definition enqueue_operation (st : AppState) (op : Operation) : result AppState :=
  if (capacity st <=? length (queue st))%nat
  then Raise QueueFull
  else Ok {| read_only := read_only st; db := db st;
             queue := (queue st ++ [op])%list; capacity := capacity st |}.

Definition _check_table_exists (db : Database) (name : string) : bool :=
  bool_decide (Exists (fun d => dataset_name d = name) (tbl_datasets db)).

(** The coroutine [run_in_threadpool(get_examples)] the handler creates:
    pending once created, closed after [examples.close()]. *)
Inductive CoroutineState : Type := Pending | Closed.

(** What a call of the handler leaves behind: the response (an exception
    that is not handled leaves the handler), the application state, and the
    coroutine of the examples when one was created. *)
Record Outcome : Type := {
  response : result Response;
  app : AppState;
  examples : option CoroutineState;
}.

Section upload.
Context `{Library}.

(** The first [try] block of [post_datasets_upload]: the decoder chosen
    by the content type, then the check of the requested keys. *)
Definition process_file (file : UploadFile) : result (Examples * gset string) :=
  let content := file_content file in
  content_type ← FileContentType_call recursion_limit (content_type file);
  match content_type with
  | CSV =>
      content_encoding ←
        FileContentEncoding_call recursion_limit (content_encoding_header file);
      _process_csv content content_encoding
  | PYARROW => _process_pyarrow content
  end.

Definition decode_upload (parsed : ParsedForm) : result Examples :=
  '(get_examples, column_headers) ← process_file (file parsed);
  _ ← _check_keys_exist column_headers
        (input_keys parsed) (output_keys parsed) (metadata_keys parsed);
  Ok get_examples.

Definition unprocessable (st : AppState) (e : string) : Outcome :=
  {| response := Ok (plain HTTP_422_UNPROCESSABLE_ENTITY (Text e));
     app := st; examples := None |}.

Definition post_datasets_upload (st : AppState) (form : FormData) : Outcome :=
  if read_only st
  then {| response := Ok (plain HTTP_403_FORBIDDEN NoBody);
          app := st; examples := None |}
  else
    match _parse_form_data form with
    | Raise (ValueError e) => unprocessable st e
    | Raise e => {| response := Raise e; app := st; examples := None |}
    | Ok parsed =>
        if match action parsed with ACTION_CREATE => true | _ => false end
           && _check_table_exists (db st) (name parsed)
        then unprocessable st
               ("Dataset already exists: name=" ++ repr_str (name parsed))
        else
          match decode_upload parsed with
          | Raise (ValueError e) => unprocessable st e
          | Raise e => {| response := Raise e; app := st; examples := None |}
          | Ok get_examples =>
              let op :=
                {| op_examples := get_examples;
                   op_action := action parsed;
                   op_name := name parsed;
                   op_description := description parsed;
                   op_input_keys := input_keys parsed;
                   op_output_keys := output_keys parsed;
                   op_metadata_keys := metadata_keys parsed |} in
              match enqueue_operation st op with
              | Raise QueueFull =>
                  {| response := Ok (plain HTTP_429_TOO_MANY_REQUESTS NoBody);
                     app := st; examples := Some Closed |}
              | Raise e =>
                  {| response := Raise e; app := st; examples := Some Pending |}
              | Ok st' =>
                  {| response := Ok (plain 200 NoBody);
                     app := st'; examples := Some Pending |}
              end
          end
    end.
End upload.

(** Modelled from the spec: the background worker and
    [phoenix.db.insertion.dataset.add_dataset_examples] are not among the
    sources.  A single worker takes the operations in submission order and
    applies each one to the database; what an operation writes is the
    parameter [add_dataset_examples]. *)
Section worker.
Variable add_dataset_examples : Operation -> Database -> Database.

Definition worker_step (st : AppState) : AppState :=
  match queue st with
  | [] => st
  | op :: rest =>
      {| read_only := read_only st;
         db := add_dataset_examples op (db st);
         queue := rest;
         capacity := capacity st |}
  end.

Fixpoint worker_run (n : nat) (st : AppState) : AppState :=
  match n with
  | O => st
  | S n' => worker_run n' (worker_step st)
  end.
End worker.

End datasets.

(** ** experiment_evaluations.py *)
Module experiment_evaluations.
Import models.

Record EvaluationResult : Type := {
  result_label : option string;
  result_score : option Z;
  result_explanation : option string;
}.

(** The JSON body of the request; [experiment_run_id] after
    [GlobalID.from_id]. *)
Record Payload : Type := {
  payload_experiment_run_id : datasets.GlobalID;
  payload_name : string;
  payload_annotator_kind : string;
  payload_result : option EvaluationResult;
  payload_error : option string;
  payload_metadata : option (gmap string value);
  payload_start_time : string;
  payload_end_time : string;
  payload_trace_id : option string;
}.

(** The dictionary [values]: the columns of a row but its primary key. *)
Record Values : Type := {
  v_experiment_run_id : Z;
  v_name : string;
  v_annotator_kind : string;
  v_label : option string;
  v_score : option Z;
  v_explanation : option string;
  v_error : option string;
  v_metadata_ : gmap string value;
  v_start_time : string;
  v_end_time : string;
  v_trace_id : option string;
}.

(** Modelled from the spec: [phoenix.server.api.types.node] is not among
    the sources; the helper gives the node id of a global id of the
    expected type and raises [ValueError] for another type. *)
Definition from_global_id_with_expected_type
    (gid : datasets.GlobalID) (expected : string) : result Z :=
  if String.eqb (datasets.type_name gid) expected
  then Ok (datasets.node_id gid)
  else Raise (ValueError
         ("The node id must correspond to a node of type " ++ expected)).

(** The uniqueness constraint
    [uq_experiment_run_annotations_experiment_run_id_name] on the columns
    [("experiment_run_id", "name")]. *)
Definition conflicts (values : Values) (row : ExperimentRunAnnotation) : bool :=
  (experiment_run_id row =? v_experiment_run_id values)%Z
  && String.eqb (name row) (v_name values).

Definition row_of (pk : Z) (values : Values) : ExperimentRunAnnotation :=
  {| id := pk;
     experiment_run_id := v_experiment_run_id values;
     name := v_name values;
     annotator_kind := v_annotator_kind values;
     label := v_label values;
     score := v_score values;
     explanation := v_explanation values;
     error := v_error values;
     metadata := v_metadata_ values;
     start_time := v_start_time values;
     end_time := v_end_time values;
     trace_id := v_trace_id values |}.

(** The next value of the auto-incremented primary key. *)
Definition next_id (table : list ExperimentRunAnnotation) : Z :=
  (1 + fold_right Z.max 0 (map id table))%Z.

(** Modelled from the spec: [phoenix.db.insertion.helpers.insert_on_conflict]
    is not among the sources.  With [OnConflict.DO_UPDATE]: on the first
    write for a constraint key the statement inserts [values]; on a key
    collision it applies [set_] to the existing row instead, which keeps
    its primary key.  [returning] gives the resulting row. *)
Definition insert_on_conflict (table : list ExperimentRunAnnotation)
    (values set_ : Values)
    : list ExperimentRunAnnotation * ExperimentRunAnnotation :=
  match find (conflicts values) table with
  | Some existing =>
      let updated := row_of (id existing) set_ in
      (map (fun row => if conflicts values row then row_of (id row) set_ else row)
           table,
       updated)
  | None =>
      let inserted := row_of (next_id table) values in
      ((table ++ [inserted])%list, inserted)
  end.

Record ExperimentEvaluationRun : Type := {
  eval_id : Z;
  eval_experiment_run_id : datasets.GlobalID;
  eval_start_time : string;
  eval_end_time : string;
  eval_name : string;
  eval_annotator_kind : string;
  eval_error : option string;
  eval_result : EvaluationResult;
  eval_metadata : gmap string value;
}.

Inductive Response : Type :=
| NotFound (content : string)
| JSONResponse (content : ExperimentEvaluationRun).

Section handler.
(** [datetime.fromisoformat], which raises [ValueError] on a string that
    is not an ISO date. *)
Variable fromisoformat : string -> result string.

Definition upsert_experiment_evaluation (db : Database) (payload : Payload)
    : result (Response * Database) :=
  let experiment_run_gid := payload_experiment_run_id payload in
  match from_global_id_with_expected_type experiment_run_gid "ExperimentRun" with
  | Raise (ValueError _) =>
      Ok (NotFound ("ExperimentRun with ID "
                    ++ datasets.encoded experiment_run_gid ++ " does not exist"),
          db)
  | Raise e => Raise e
  | Ok run_id =>
      let result := payload_result payload in
      start ← fromisoformat (payload_start_time payload);
      finish ← fromisoformat (payload_end_time payload);
      let values :=
        {| v_experiment_run_id := run_id;
           v_name := payload_name payload;
           v_annotator_kind := payload_annotator_kind payload;
           v_label := result ≫= result_label;
           v_score := result ≫= result_score;
           v_explanation := result ≫= result_explanation;
           v_error := payload_error payload;
           v_metadata_ := default ∅ (payload_metadata payload);
           v_start_time := start;
           v_end_time := finish;
           v_trace_id := payload_trace_id payload |} in
      (* [set_] holds the same columns, [metadata_] under its column name *)
      let set_ := values in
      let '(table, exp_eval_run) :=
        insert_on_conflict (tbl_experiment_run_annotations db) values set_ in
      let eval_payload :=
        {| eval_id := id exp_eval_run;
           eval_experiment_run_id := experiment_run_gid;
           eval_start_time := start_time exp_eval_run;
           eval_end_time := end_time exp_eval_run;
           eval_name := name exp_eval_run;
           eval_annotator_kind := annotator_kind exp_eval_run;
           eval_error := error exp_eval_run;
           eval_result :=
             {| result_label := label exp_eval_run;
                result_score := score exp_eval_run;
                result_explanation := explanation exp_eval_run |};
           eval_metadata := metadata exp_eval_run |} in
      Ok (JSONResponse eval_payload,
          {| tbl_datasets := tbl_datasets db;
             tbl_dataset_versions := tbl_dataset_versions db;
             tbl_dataset_examples := tbl_dataset_examples db;
             tbl_dataset_example_revisions := tbl_dataset_example_revisions db;
             tbl_experiment_run_annotations := table |})
  end.
End handler.

End experiment_evaluations.

(** ** Vocabulary of the statements *)
Module spec.
Import models datasets.

Definition with_encoding (f : UploadFile) (e : option string) : UploadFile :=
  {| filename := filename f; content_type := content_type f;
     content_encoding_header := e; file_content := file_content f |}.


(** An ASCII string without a cased character: digits, punctuation. *)
Definition caseless (s : string) : bool :=
  truthy s && isascii s && negb (has_lower s) && negb (has_upper s).

(** The revisions of a dataset at or below a ceiling are the rows of
    [latest_version_from]; [greatest] says that a revision is one of them
    and that no other one of the same example has a greater version id. *)
Definition greatest (db : Database) (dataset_id : Z) (ceiling : option Z)
    (r : DatasetExampleRevision) : Prop :=
  r ∈ latest_version_from db dataset_id ceiling
  /\ forall r', r' ∈ latest_version_from db dataset_id ceiling ->
       dataset_example_id r' = dataset_example_id r ->
       (dataset_version_id r' <= dataset_version_id r)%Z.


(** The invariant of the revision log: no two revisions of one example
    share a version id. *)
Definition revision_key (r : DatasetExampleRevision) : Z * Z :=
  (dataset_example_id r, dataset_version_id r).

Definition revision_keys_unique (db : Database) : Prop :=
  NoDup (revision_key <$> tbl_dataset_example_revisions db).

(** The revisions a snapshot is made of, and their example ids and
    indices. *)
Definition snapshot_revisions (db : Database) (dataset_id : Z) (ceiling : option Z)
    : list DatasetExampleRevision :=
  fst <$> stmt_rows db dataset_id ceiling.

Definition snapshot_example_ids (db : Database) (dataset_id : Z) (ceiling : option Z)
    : list Z :=
  dataset_example_id <$> snapshot_revisions db dataset_id ceiling.

Definition snapshot_indices (db : Database) (dataset_id : Z) (ceiling : option Z)
    : list Z :=
  (fun p => example_index (snd p)) <$> stmt_rows db dataset_id ceiling.

(** The example ids of a dataset that have a revision at or below the
    ceiling, tombstoned or not. *)
Definition examples_at (db : Database) (dataset_id : Z) (ceiling : option Z)
    : list Z :=
  group_keys (latest_version_from db dataset_id ceiling).

(** The number of examples of a dataset that have a revision at or below
    the ceiling and an id smaller than [k]. *)
Definition smaller_examples (db : Database) (dataset_id : Z) (ceiling : option Z)
    (k : Z) : Z :=
  Z.of_nat (length (filter (fun k' => (k' < k)%Z)
                      (examples_at db dataset_id ceiling))).

(** The number of times a name occurs in a header, and the count a
    [Counter] holds for a name. *)
Definition occurrences (x : string) (l : list string) : nat :=
  count_occ string_dec l x.

Definition Counter_get (c : list (string * nat)) (k : string) : nat :=
  match find (fun p => String.eqb k (fst p)) c with
  | Some p => snd p
  | None => 0
  end.

(** *** Sample data *)

Definition revision (e v : Z) (k : RevisionKind) (q a : string)
    : DatasetExampleRevision :=
  {| dataset_example_id := e; dataset_version_id := v; revision_kind := k;
     input := {[ "q" := VStr q ]}; output := {[ "a" := VStr a ]};
     metadata_ := ∅ |}.

Definition tombstone (e v : Z) : DatasetExampleRevision :=
  {| dataset_example_id := e; dataset_version_id := v; revision_kind := DELETE;
     input := ∅; output := ∅; metadata_ := ∅ |}.

(** Two datasets: [qa] with the versions 1 to 3 and the examples 1 to 3,
    [other] with the version 4 and the example 4. *)
Definition sample_db (revisions : list DatasetExampleRevision) : Database :=
  {| tbl_datasets :=
       [ {| dataset_pk := 1; dataset_name := "qa" |};
         {| dataset_pk := 2; dataset_name := "other" |} ];
     tbl_dataset_versions :=
       [ {| version_pk := 1; version_dataset_id := 1 |};
         {| version_pk := 2; version_dataset_id := 1 |};
         {| version_pk := 3; version_dataset_id := 1 |};
         {| version_pk := 4; version_dataset_id := 2 |} ];
     tbl_dataset_examples :=
       [ {| example_pk := 1; example_dataset_id := 1 |};
         {| example_pk := 2; example_dataset_id := 1 |};
         {| example_pk := 3; example_dataset_id := 1 |};
         {| example_pk := 4; example_dataset_id := 2 |} ];
     tbl_dataset_example_revisions := revisions;
     tbl_experiment_run_annotations := [] |}.

(** Example 1 is created at version 1, deleted at version 2 and patched at
    version 3. *)
Definition db_resurrected : Database :=
  sample_db [ revision 1 1 CREATE "q1" "a1"; tombstone 1 2;
              revision 1 3 PATCH "q1" "a1 again" ].

(** Three examples are created at version 1; example 2 is deleted at
    version 2; the other dataset gets its example at version 4. *)
Definition db_tombstoned : Database :=
  sample_db [ revision 1 1 CREATE "q1" "a1"; revision 2 1 CREATE "q2" "a2";
              revision 3 1 CREATE "q3" "a3"; tombstone 2 2;
              revision 4 4 CREATE "q4" "a4" ].

Definition dataset_gid (n : Z) : GlobalID :=
  {| encoded := "Dataset:" ++ pretty n; type_name := "Dataset"; node_id := n |}.

Definition version_gid (n : Z) : GlobalID :=
  {| encoded := "DatasetVersion:" ++ pretty n; type_name := "DatasetVersion";
     node_id := n |}.

Definition download (dataset : Z) (version : option Z) : DownloadRequest :=
  {| datasetId := Some (dataset_gid dataset);
     datasetVersionId := version_gid <$> version |}.

Definition download_of (g : GlobalID) (v : option GlobalID) : DownloadRequest :=
  {| datasetId := Some g; datasetVersionId := v |}.

(** An upload that is rejected as malformed: the response 422 with the
    explanation, the application state as it was, no coroutine created. *)
Definition rejected_as_malformed (st : AppState) (o : Outcome) (msg : string)
    : Prop :=
  response o = Ok (plain HTTP_422_UNPROCESSABLE_ENTITY (Text msg))
  /\ app o = st
  /\ examples o = None.

(** The three requested sets of a form, pairwise disjoint sets, and sets
    whose every column is among the discovered ones. *)
Definition requested_input (form : FormData) : gset string :=
  list_to_set (form_input_keys form).
Definition requested_output (form : FormData) : gset string :=
  list_to_set (form_output_keys form).
Definition requested_metadata (form : FormData) : gset string :=
  list_to_set (form_metadata_keys form).

Definition pairwise_disjoint (a b c : gset string) : Prop :=
  a ∩ b = ∅ /\ a ∩ c = ∅ /\ b ∩ c = ∅.

Definition all_present (column_headers a b c : gset string) : Prop :=
  a ⊆ column_headers /\ b ⊆ column_headers /\ c ⊆ column_headers.

(** The operation the handler submits for a parsed form and its examples. *)
Definition operation_of (parsed : ParsedForm) (get_examples : Examples)
    : Operation :=
  {| op_examples := get_examples;
     op_action := action parsed;
     op_name := name parsed;
     op_description := description parsed;
     op_input_keys := input_keys parsed;
     op_output_keys := output_keys parsed;
     op_metadata_keys := metadata_keys parsed |}.

(** The name of a dataset to create is not taken. *)
Definition creates_fresh (st : AppState) (parsed : ParsedForm) : Prop :=
  action parsed = ACTION_CREATE ->
  _check_table_exists (db st) (name parsed) = false.

(** A reader of comma-separated text without quotes, for the sample
    uploads: a line is a row, an empty line an empty row, an empty text has
    no row.  The lines end at a line feed, as those of [io.StringIO] do; a
    line with a carriage return before another character than the line feed
    is refused with [csv.Error], as [csv.reader] refuses a new-line character
    in a field that is not quoted. *)
Fixpoint split_on (sep : ascii) (s : string) : list string :=
  match s with
  | EmptyString => [EmptyString]
  | String c s' =>
      if Ascii.eqb c sep then EmptyString :: split_on sep s'
      else match split_on sep s' with
           | [] => [String c EmptyString]
           | w :: ws => String c w :: ws
           end
  end.

Definition newline : ascii := ascii_of_nat 10.
Definition comma : ascii := ascii_of_nat 44.

Definition carriage_return : ascii := ascii_of_nat 13.

Fixpoint bare_carriage_return (line : string) : bool :=
  match line with
  | EmptyString => false
  | String c rest =>
      (Ascii.eqb c carriage_return
       && match rest with
          | EmptyString => false
          | String c' _ => negb (Ascii.eqb c' newline)
          end)
      || bare_carriage_return rest
  end.

Definition sample_csv_reader (text : string) : list (result (list string)) :=
  if truthy text
  then (fun line =>
          if bare_carriage_return line then Raise (OtherError "_csv.Error")
          else if truthy line then Ok (split_on comma line) else Ok [])
         <$> split_on newline text
  else [].

(** The rows a reader gives before it raises. *)
Fixpoint rows_read (rows : list (result (list string))) : list (list string) :=
  match rows with
  | Ok row :: rest => row :: rows_read rest
  | _ => []
  end.

Definition sample_records (names : list string) (rows : list (result (list string)))
    : Examples :=
  (fun row => list_to_map (zip names (VStr <$> row)))
    <$> filter (fun row => row <> []) (rows_read rows).

Definition sample_library : Library :=
  {| gzip_decompress := fun _ => Raise (OtherError "BadGzipFile");
     zlib_decompress := fun _ => Raise (OtherError "zlib.error");
     bytes_decode := fun content => Ok (string_of_list_byte content);
     csv_reader := sample_csv_reader;
     DictReader_records := sample_records;
     pa_open_stream := fun _ => Raise ArrowInvalid |}.

Definition csv_file (text : string) (content_type encoding : option string)
    : UploadFile :=
  {| filename := Some "upload.csv";
     content_type := content_type;
     content_encoding_header := encoding;
     file_content := list_byte_of_string text |}.

Definition upload_form (f : UploadFile) (input_keys output_keys metadata_keys : list string)
    : FormData :=
  {| form_name := Some "qa-v1"; form_action := None;
     form_file := Some (FormFile f); form_description := None;
     form_input_keys := input_keys;
     form_output_keys := output_keys;
     form_metadata_keys := metadata_keys |}.

(** What [_parse_form_data] makes of [upload_form] when the requested sets
    are pairwise disjoint. *)
Definition parsed_upload (f : UploadFile) (input_keys output_keys metadata_keys : list string)
    : ParsedForm :=
  {| action := ACTION_CREATE; name := "qa-v1";
     description := Some "upload.csv";
     input_keys := list_to_set input_keys;
     output_keys := list_to_set output_keys;
     metadata_keys := list_to_set metadata_keys;
     file := f |}.

(** An application with nothing queued. *)
Definition idle_app (capacity : nat) : AppState :=
  {| read_only := false; db := sample_db []; queue := []; capacity := capacity |}.

(** Three rows under the header [q,a,tag]; and a header that names [query]
    twice. *)
Definition qa_text : string :=
  "q,a,tag" ++ String newline ("q1,a1,t1" ++ String newline
    ("q2,a2,t2" ++ String newline "q3,a3,t3")).

Definition duplicate_header_text : string :=
  "query,query,answer" ++ String newline "x,y,z".

(** The same header and row with lines that end at a carriage return
    alone. *)
Definition carriage_return_text : string :=
  "query,query,answer" ++ String carriage_return "x,y,z".

Definition qa_file : UploadFile := csv_file qa_text (Some "text/csv") None.
Definition qa_upload : FormData := upload_form qa_file ["q"] ["a"] ["tag"].
Definition qa_parsed : ParsedForm := parsed_upload qa_file ["q"] ["a"] ["tag"].

Definition duplicate_header_file : UploadFile :=
  csv_file duplicate_header_text (Some "text/csv") None.
Definition duplicate_header_upload : FormData :=
  upload_form duplicate_header_file ["query"] ["answer"] [].
Definition duplicate_header_parsed : ParsedForm :=
  parsed_upload duplicate_header_file ["query"] ["answer"] [].

Definition carriage_return_file : UploadFile :=
  csv_file carriage_return_text (Some "text/csv") None.
Definition carriage_return_upload : FormData :=
  upload_form carriage_return_file ["query"] ["answer"] [].
Definition carriage_return_parsed : ParsedForm :=
  parsed_upload carriage_return_file ["query"] ["answer"] [].

(** An upload that declares the content type of pyarrow and holds no
    pyarrow stream. *)
Definition not_pyarrow_upload : FormData :=
  upload_form (csv_file qa_text (Some "application/x-pandas-pyarrow") None)
    ["q"] ["a"] ["tag"].

(** The rows of the annotation table with a constraint key, and the
    uniqueness constraint itself. *)
Definition annotation_key (row : ExperimentRunAnnotation) : Z * string :=
  (experiment_run_id row, models.name row).

Definition rows_for (table : list ExperimentRunAnnotation) (key : Z * string)
    : list ExperimentRunAnnotation :=
  filter (fun row => annotation_key row = key) table.

Definition constraint_holds (table : list ExperimentRunAnnotation) : Prop :=
  NoDup (annotation_key <$> table).

Definition values_key (values : experiment_evaluations.Values) : Z * string :=
  (experiment_evaluations.v_experiment_run_id values,
   experiment_evaluations.v_name values).

Definition run_gid (n : Z) : GlobalID :=
  {| encoded := "ExperimentRun:" ++ pretty n; type_name := "ExperimentRun";
     node_id := n |}.

(** An evaluation of run 7 under the name [correctness]. *)
Definition evaluation (score : Z) : experiment_evaluations.Payload :=
  {| experiment_evaluations.payload_experiment_run_id := run_gid 7;
     experiment_evaluations.payload_name := "correctness";
     experiment_evaluations.payload_annotator_kind := "LLM";
     experiment_evaluations.payload_result :=
       Some {| experiment_evaluations.result_label := None;
               experiment_evaluations.result_score := Some score;
               experiment_evaluations.result_explanation := None |};
     experiment_evaluations.payload_error := None;
     experiment_evaluations.payload_metadata := None;
     experiment_evaluations.payload_start_time := "2024-05-01T10:00:00";
     experiment_evaluations.payload_end_time := "2024-05-01T10:00:01";
     experiment_evaluations.payload_trace_id := None |}.

(** The dictionary [values] of a payload, the evaluation the handler
    answers with, and a database with a new annotation table. *)
Definition values_of (p : experiment_evaluations.Payload) (start finish : string)
    : experiment_evaluations.Values :=
  {| experiment_evaluations.v_experiment_run_id :=
       node_id (experiment_evaluations.payload_experiment_run_id p);
     experiment_evaluations.v_name := experiment_evaluations.payload_name p;
     experiment_evaluations.v_annotator_kind :=
       experiment_evaluations.payload_annotator_kind p;
     experiment_evaluations.v_label :=
       experiment_evaluations.payload_result p
         ≫= experiment_evaluations.result_label;
     experiment_evaluations.v_score :=
       experiment_evaluations.payload_result p
         ≫= experiment_evaluations.result_score;
     experiment_evaluations.v_explanation :=
       experiment_evaluations.payload_result p
         ≫= experiment_evaluations.result_explanation;
     experiment_evaluations.v_error := experiment_evaluations.payload_error p;
     experiment_evaluations.v_metadata_ :=
       default ∅ (experiment_evaluations.payload_metadata p);
     experiment_evaluations.v_start_time := start;
     experiment_evaluations.v_end_time := finish;
     experiment_evaluations.v_trace_id :=
       experiment_evaluations.payload_trace_id p |}.

Definition evaluation_of (gid : GlobalID) (row : ExperimentRunAnnotation)
    : experiment_evaluations.ExperimentEvaluationRun :=
  {| experiment_evaluations.eval_id := id row;
     experiment_evaluations.eval_experiment_run_id := gid;
     experiment_evaluations.eval_start_time := start_time row;
     experiment_evaluations.eval_end_time := end_time row;
     experiment_evaluations.eval_name := models.name row;
     experiment_evaluations.eval_annotator_kind := annotator_kind row;
     experiment_evaluations.eval_error := error row;
     experiment_evaluations.eval_result :=
       {| experiment_evaluations.result_label := label row;
          experiment_evaluations.result_score := score row;
          experiment_evaluations.result_explanation := explanation row |};
     experiment_evaluations.eval_metadata := metadata row |}.

Definition with_annotations (db : Database)
    (table : list ExperimentRunAnnotation) : Database :=
  {| tbl_datasets := tbl_datasets db;
     tbl_dataset_versions := tbl_dataset_versions db;
     tbl_dataset_examples := tbl_dataset_examples db;
     tbl_dataset_example_revisions := tbl_dataset_example_revisions db;
     tbl_experiment_run_annotations := table |}.

(** The key of a payload. *)
Definition payload_key (p : experiment_evaluations.Payload) : Z * string :=
  (node_id (experiment_evaluations.payload_experiment_run_id p),
   experiment_evaluations.payload_name p).

(** The score a payload carries. *)
Definition payload_score (p : experiment_evaluations.Payload) : option Z :=
  experiment_evaluations.payload_result p
    ≫= experiment_evaluations.result_score.

(** The indices the records of a response carry. *)
Definition response_indices (resp : Response) : list (option value) :=
  match content resp with
  | GzipCsv records => (fun record => record !! "__example_index__") <$> records
  | _ => []
  end.



(** The tombstones of a dataset, as pairs of example and version id. *)
Definition tombstones (db : Database) (dataset_id : Z) : list (Z * Z) :=
  revision_key
    <$> filter (fun r => revision_kind r = DELETE)
          (latest_version_from db dataset_id None).

End spec.

(** ** datasets.py: the listing of the datasets *)
Module datasets_listing.
Import models datasets.

(** The query parameters of [list_datasets]. *)
Record ListRequest : Type := {
  cursor : option string;
  limit : option string;
}.

(** The JSON body of a page; an item of [data] is written from the columns
    of its row and stands here as the row itself. *)
Record Page : Type := {
  next_cursor : option string;
  data : list Dataset;
}.

Inductive ListResponse : Type :=
| JSONResponse (status_code : Z) (content : Page)
| TextResponse (status_code : Z) (content : string).

(** [order_by(models.Dataset.id.desc())]. *)
Definition by_id_desc (a b : Dataset) : Prop := (dataset_pk b <= dataset_pk a)%Z.

#[export] Instance by_id_desc_dec : RelDecision by_id_desc.
Proof. intros a b. unfold by_id_desc. apply _. Defined.

(** [query.filter(models.Dataset.id <= int(cursor_id))], when there is a
    cursor. *)
Definition at_cursor (cursor_id : option Z) (d : Dataset) : bool :=
  match cursor_id with
  | Some c => (dataset_pk d <=? c)%Z
  | None => true
  end.

(** The rows of the query before the limit. *)
Definition select_datasets (db : Database) (cursor_id : option Z) : list Dataset :=
  merge_sort by_id_desc (filter (fun d => at_cursor cursor_id d = true) (tbl_datasets db)).

Section list_datasets.
(** The library code of the handler: [int] on a string, the node id
    [int(GlobalID.from_id(cursor).node_id)] of a cursor, the string
    [str(GlobalID(NODE_NAME, str(id)))] of an id, and what the database does
    with a negative [LIMIT] (SQLite gives every row, PostgreSQL refuses). *)
Variable int : string -> result Z.
Variable cursor_node_id : string -> result Z.
Variable to_cursor : Z -> string.
Variable negative_limit : list Dataset -> result (list Dataset).

Definition sql_limit (n : Z) (rows : list Dataset) : result (list Dataset) :=
  if (n <? 0)%Z then negative_limit rows else Ok (take (Z.to_nat n) rows).

(** The handler from [query.limit(limit + 1)] on. *)
Definition page_of (db : Database) (limit : Z) (cursor_id : option Z)
    : result ListResponse :=
  datasets ← sql_limit (limit + 1) (select_datasets db cursor_id);
  match datasets with
  | [] => Ok (JSONResponse 200 {| next_cursor := None; data := [] |})
  | _ =>
      if (Z.of_nat (length datasets) =? limit + 1)%Z
      then Ok (JSONResponse 200
                 {| next_cursor := (fun d => to_cursor (dataset_pk d)) <$> last datasets;
                    data := removelast datasets |})
      else Ok (JSONResponse 200 {| next_cursor := None; data := datasets |})
  end.

Definition list_datasets (db : Database) (request : ListRequest)
    : result ListResponse :=
  limit ← match limit request with Some s => int s | None => Ok 10%Z end;
  match or_else (cursor request) None with
  | Some cursor =>
      match cursor_node_id cursor with
      | Ok cursor_id => page_of db limit (Some cursor_id)
      | Raise (ValueError _) =>
          Ok (TextResponse HTTP_422_UNPROCESSABLE_ENTITY
                ("Invalid cursor format: " ++ cursor))
      | Raise e => Raise e
      end
  | None => page_of db limit None
  end.
End list_datasets.

End datasets_listing.

(** ** oauth.py *)
Module oauth.

(** *** [OAuthClients] *)
Section OAuthClients.
(** [phoenix.config.OAuthClientConfig] and the client class of Authlib are
    not among the sources: the configuration is any type with its [idp_id],
    and [register] is the client [self._oauth.register] makes of one. *)
Context {OAuthClientConfig OAuthClient : Type}.
Variable idp_id : OAuthClientConfig -> string.
Variable register : OAuthClientConfig -> OAuthClient.

(** The dictionary [self._clients]. *)
Definition add_client (clients : gmap string OAuthClient) (config : OAuthClientConfig)
    : result (gmap string OAuthClient) :=
  match clients !! idp_id config with
  | Some _ =>
      Raise (ValueError ("oauth client already registered: " ++ idp_id config))
  | None => Ok (<[idp_id config := register config]> clients)
  end.

Definition get_client (clients : gmap string OAuthClient) (idp : string)
    : result OAuthClient :=
  match clients !! idp with
  | None => Raise (ValueError ("unknown or unregistered oauth client: " ++ idp))
  | Some client => Ok client
  end.

(** The loop of [from_configs]. *)
Fixpoint add_clients (clients : gmap string OAuthClient)
    (configs : list OAuthClientConfig) : result (gmap string OAuthClient) :=
  match configs with
  | [] => Ok clients
  | config :: rest =>
      clients' ← add_client clients config;
      add_clients clients' rest
  end.

Definition from_configs (configs : list OAuthClientConfig)
    : result (gmap string OAuthClient) :=
  add_clients ∅ configs.
End OAuthClients.

(** *** [_OAuthClientTTLCache]

    A [datetime] is the number of its microseconds and a [timedelta] a
    number of microseconds.  Every [datetime.now()] of a method is an argument
    of its model, in the order in which the method reads the clock. *)
Definition seconds (n : Z) : Z := (n * 1000000)%Z.
Definition _MINUTE : Z := seconds 60.

Section TTLCache.
Context {CacheValue : Type}.

Record TTLCache : Type := {
  _data : gmap string (CacheValue * Z);
  _last_cleanup_time : Z;
  _cleanup_interval : Z;
}.

(** [__init__]; the default interval is [10 * _MINUTE]. *)
Definition TTLCache_init (now : Z) (cleanup_interval : Z) : TTLCache :=
  {| _data := ∅; _last_cleanup_time := now; _cleanup_interval := cleanup_interval |}.

Definition TTLCache_get (now : Z) (key : string) (c : TTLCache)
    : option CacheValue * TTLCache :=
  match _data c !! key with
  | None => (None, c)
  | Some (value, expiry) =>
      if (now <? expiry)%Z then (Some value, c)
      else (None, {| _data := delete key (_data c);
                     _last_cleanup_time := _last_cleanup_time c;
                     _cleanup_interval := _cleanup_interval c |})
  end.

Definition _remove_expired_keys (current_time : Z) (c : TTLCache) : TTLCache :=
  {| _data := filter (fun kv => ~ (snd (snd kv) <= current_time)%Z) (_data c);
     _last_cleanup_time := current_time;
     _cleanup_interval := _cleanup_interval c |}.

Definition _remove_expired_keys_if_cleanup_interval_exceeded
    (now current_time : Z) (c : TTLCache) : TTLCache :=
  let time_since_last_cleanup := (now - _last_cleanup_time c)%Z in
  if (_cleanup_interval c <? time_since_last_cleanup)%Z
  then _remove_expired_keys current_time c
  else c.

(** [set]: the clock is read for the test of the interval, in the cleanup
    when there is one, and for the expiry. *)
Definition TTLCache_set (now current_time now' : Z) (key : string)
    (value : CacheValue) (expires : Z) (c : TTLCache) : TTLCache :=
  let c' := _remove_expired_keys_if_cleanup_interval_exceeded now current_time c in
  let expiry := (now' + seconds expires)%Z in
  {| _data := <[key := (value, expiry)]> (_data c');
     _last_cleanup_time := _last_cleanup_time c';
     _cleanup_interval := _cleanup_interval c' |}.

Definition TTLCache_delete (now current_time : Z) (key : string) (c : TTLCache)
    : TTLCache :=
  let c' := _remove_expired_keys_if_cleanup_interval_exceeded now current_time c in
  {| _data := delete key (_data c');
     _last_cleanup_time := _last_cleanup_time c';
     _cleanup_interval := _cleanup_interval c' |}.
End TTLCache.
Arguments TTLCache : clear implicits.

End oauth.

(** ** Vocabulary of the further properties *)
Module further.
Import models datasets spec.

(** A database whose revision log is [revisions]. *)
Definition with_revisions (db : Database) (revisions : list DatasetExampleRevision)
    : Database :=
  {| tbl_datasets := tbl_datasets db;
     tbl_dataset_versions := tbl_dataset_versions db;
     tbl_dataset_examples := tbl_dataset_examples db;
     tbl_dataset_example_revisions := revisions;
     tbl_experiment_run_annotations := tbl_experiment_run_annotations db |}.

(** The log grows: revisions are appended at the end. *)
Definition appended (db : Database) (new : list DatasetExampleRevision) : Database :=
  with_revisions db (tbl_dataset_example_revisions db ++ new)%list.


Definition without_file (form : FormData) : FormData :=
  {| form_name := form_name form; form_action := form_action form;
     form_file := None; form_description := form_description form;
     form_input_keys := form_input_keys form;
     form_output_keys := form_output_keys form;
     form_metadata_keys := form_metadata_keys form |}.


(** Library code of the listing for the samples: the cursor of an id is the
    text [Dataset:<id>], read back for the ids of the sample database; a
    limit is a decimal digit; a negative [LIMIT] gives every row, as SQLite
    does. *)
Definition sample_to_cursor (n : Z) : string := "Dataset:" ++ pretty n.

Definition sample_cursor_node_id (cursor : string) : result Z :=
  match find (fun n => String.eqb (sample_to_cursor n) cursor) [1; 2]%Z with
  | Some n => Ok n
  | None => Raise (ValueError ("Invalid cursor: " ++ cursor))
  end.

Definition sample_int (s : string) : result Z :=
  match find (fun n => String.eqb (pretty n) s) [0; 1; 2; 3]%Z with
  | Some n => Ok n
  | None => Raise (ValueError ("invalid literal for int() with base 10: " ++ repr_str s))
  end.

Definition sample_negative_limit (rows : list Dataset) : result (list Dataset) :=
  Ok rows.

(** Library code of the download routes for the samples: an encoded id is
    the text [<type name>:<node id>], and a text without a colon is no
    encoded id. *)
Definition colon : ascii := ascii_of_nat 58.

Definition sample_from_id (s : string) : result (string * string) :=
  match split_on colon s with
  | [type_name; node_id] => Ok (type_name, node_id)
  | _ => Raise (ValueError ("Invalid GlobalID: " ++ s))
  end.

(** The path parameters of a download of a dataset, with or without a
    version. *)
Definition path_of (dataset : string) (version : option string) : PathParams :=
  {| path_datasetId := Some dataset; path_datasetVersionId := version |}.

End further.

Import models datasets spec.

(** * Properties *)

(** ** Strings *)
Section strings.

Lemma lower_char_idem c : lower_char (lower_char c) = lower_char c.
Proof. destruct c as [[|] [|] [|] [|] [|] [|] [|] [|]]; reflexivity. Qed.

Lemma lower_char_ascii c : is_ascii_char (lower_char c) = is_ascii_char c.
Proof. destruct c as [[|] [|] [|] [|] [|] [|] [|] [|]]; reflexivity. Qed.

Lemma lower_char_not_upper c : is_upper_char (lower_char c) = false.
Proof. destruct c as [[|] [|] [|] [|] [|] [|] [|] [|]]; reflexivity. Qed.

Lemma lower_idem s : lower (lower s) = lower s.
Proof. induction s as [|c s IH]; simpl; [done|]. by rewrite lower_char_idem, IH. Qed.

Lemma isascii_lower s : isascii (lower s) = isascii s.
Proof. induction s as [|c s IH]; simpl; [done|]. by rewrite lower_char_ascii, IH. Qed.

Lemma has_upper_lower s : has_upper (lower s) = false.
Proof. induction s as [|c s IH]; simpl; [done|]. by rewrite lower_char_not_upper, IH. Qed.

Lemma lower_fixed s : has_upper s = false -> lower s = s.
Proof.
  induction s as [|c s IH]; simpl; [done|].
  intros [Hc Hs]%orb_false_iff. unfold lower_char. rewrite Hc. by rewrite IH.
Qed.

Lemma truthy_lower s : truthy (lower s) = truthy s.
Proof. by destruct s. Qed.

Lemma caseless_lower s : caseless s = true -> lower s = s.
Proof.
  unfold caseless. rewrite !andb_true_iff, !negb_true_iff.
  intros [_ Hu]. by apply lower_fixed.
Qed.

Lemma caseless_not_islower s : caseless s = true -> islower s = false.
Proof.
  unfold caseless, islower. rewrite !andb_true_iff, !negb_true_iff.
  intros [[_ Hl] _]. by rewrite Hl.
Qed.

End strings.

(** ** Content type and content encoding *)
Section enums.

(** The lookup is by the value of the member. *)
Lemma FileContentType_lookup_value s m :
  FileContentType_lookup (Some s) = Some m <-> s = FileContentType_value m.
Proof.
  unfold FileContentType_lookup.
  destruct (String.eqb_spec s "text/csv") as [->|H1];
    [destruct m; split; done|].
  destruct (String.eqb_spec s "application/x-pandas-pyarrow") as [->|H2];
    [destruct m; split; done|].
  destruct m; split; done.
Qed.

Lemma FileContentEncoding_lookup_value s m :
  FileContentEncoding_lookup (Some s) = Some m <-> s = FileContentEncoding_value m.
Proof.
  unfold FileContentEncoding_lookup.
  destruct (String.eqb_spec s "none") as [->|H1]; [destruct m; split; done|].
  destruct (String.eqb_spec s "gzip") as [->|H2]; [destruct m; split; done|].
  destruct (String.eqb_spec s "deflate") as [->|H3]; [destruct m; split; done|].
  destruct m; split; done.
Qed.

Lemma FileContentType_lookup_lower s m :
  FileContentType_lookup (Some s) = Some m -> lower s = s.
Proof.
  unfold FileContentType_lookup.
  destruct (String.eqb_spec s "text/csv") as [->|_]; [done|].
  destruct (String.eqb_spec s "application/x-pandas-pyarrow") as [->|_]; done.
Qed.

Lemma FileContentEncoding_lookup_lower s m :
  FileContentEncoding_lookup (Some s) = Some m -> lower s = s.
Proof.
  unfold FileContentEncoding_lookup.
  destruct (String.eqb_spec s "none") as [->|_]; [done|].
  destruct (String.eqb_spec s "gzip") as [->|_]; [done|].
  destruct (String.eqb_spec s "deflate") as [->|_]; done.
Qed.

Lemma FileContentType_lookup_ascii s m :
  FileContentType_lookup (Some s) = Some m ->
  truthy s = true /\ isascii s = true /\ has_lower s = true.
Proof.
  unfold FileContentType_lookup.
  destruct (String.eqb_spec s "text/csv") as [->|_]; [done|].
  destruct (String.eqb_spec s "application/x-pandas-pyarrow") as [->|_]; done.
Qed.

Lemma FileContentEncoding_lookup_ascii s m :
  FileContentEncoding_lookup (Some s) = Some m ->
  truthy s = true /\ isascii s = true /\ has_lower s = true.
Proof.
  unfold FileContentEncoding_lookup.
  destruct (String.eqb_spec s "none") as [->|_]; [done|].
  destruct (String.eqb_spec s "gzip") as [->|_]; [done|].
  destruct (String.eqb_spec s "deflate") as [->|_]; done.
Qed.

(** A value that is not a member, is its own lower case and is not
    [islower] sends the constructor back to itself: no depth is enough. *)
Lemma FileContentType_call_loops s :
  FileContentType_lookup (Some s) = None ->
  truthy s && isascii s && negb (islower s) = true ->
  lower s = s ->
  forall depth, FileContentType_call depth (Some s) = Raise RecursionError.
Proof.
  intros Hl Hc Hs depth. induction depth as [|d IH]; [done|].
  cbn [FileContentType_call]. rewrite Hl.
  unfold FileContentType_missing_. by rewrite Hc, Hs.
Qed.

Lemma FileContentEncoding_call_loops s :
  FileContentEncoding_lookup (Some s) = None ->
  truthy s && isascii s && negb (islower s) = true ->
  lower s = s ->
  forall depth, FileContentEncoding_call depth (Some s) = Raise RecursionError.
Proof.
  intros Hl Hc Hs depth. induction depth as [|d IH]; [done|].
  cbn [FileContentEncoding_call]. rewrite Hl.
  unfold FileContentEncoding_missing_. by rewrite Hc, Hs.
Qed.

(** A value in lower case that is not a member is never accepted. *)
Lemma FileContentType_call_lower_not_member s depth m :
  FileContentType_lookup (Some s) = None ->
  lower s = s ->
  FileContentType_call depth (Some s) <> Ok m.
Proof.
  intros Hl Hs. induction depth as [|d IH]; [done|].
  cbn [FileContentType_call]. rewrite Hl. unfold FileContentType_missing_.
  destruct (truthy s && isascii s && negb (islower s)); [by rewrite Hs|done].
Qed.

Lemma FileContentEncoding_call_lower_not_member s depth m :
  FileContentEncoding_lookup (Some s) = None ->
  lower s = s ->
  FileContentEncoding_call depth (Some s) <> Ok m.
Proof.
  intros Hl Hs. induction depth as [|d IH]; [done|].
  cbn [FileContentEncoding_call]. rewrite Hl. unfold FileContentEncoding_missing_.
  destruct (truthy s && isascii s && negb (islower s)); [by rewrite Hs|done].
Qed.

Lemma caseless_guard s :
  caseless s = true -> truthy s && isascii s && negb (islower s) = true.
Proof.
  intros Hc. rewrite (caseless_not_islower _ Hc). revert Hc. unfold caseless.
  rewrite !andb_true_iff. intros [[[-> ->] _] _]. done.
Qed.

Lemma caseless_not_FileContentType s :
  caseless s = true -> FileContentType_lookup (Some s) = None.
Proof.
  intros Hc. destruct (FileContentType_lookup (Some s)) as [m|] eqn:E; [|done].
  apply FileContentType_lookup_ascii in E as (_ & _ & Hl).
  revert Hc. unfold caseless. rewrite Hl. by rewrite andb_false_r.
Qed.

Lemma caseless_not_FileContentEncoding s :
  caseless s = true -> FileContentEncoding_lookup (Some s) = None.
Proof.
  intros Hc. destruct (FileContentEncoding_lookup (Some s)) as [m|] eqn:E; [|done].
  apply FileContentEncoding_lookup_ascii in E as (_ & _ & Hl).
  revert Hc. unfold caseless. rewrite Hl. by rewrite andb_false_r.
Qed.

(** Every ASCII value without a letter exhausts the stack, for both
    enumerations. *)
Lemma caseless_value_recurses s depth :
  caseless s = true ->
  FileContentType_call depth (Some s) = Raise RecursionError
  /\ FileContentEncoding_call depth (Some s) = Raise RecursionError.
Proof.
  intros Hc. split.
  - apply FileContentType_call_loops;
      auto using caseless_not_FileContentType, caseless_guard, caseless_lower.
  - apply FileContentEncoding_call_loops;
      auto using caseless_not_FileContentEncoding, caseless_guard, caseless_lower.
Qed.

(** Case-insensitivity of the content type: with two frames or more,
    [FileContentType(s)] is the member whose value is the lower case of
    [s], for every [s] that has one. *)
Lemma FileContentType_case_insensitive depth s m :
  (2 <= depth)%nat ->
  FileContentType_call depth (Some s) = Ok m
  <-> FileContentType_lookup (Some (lower s)) = Some m.
Proof.
  intros Hd. destruct depth as [|[|d]]; [lia|lia|]. clear Hd.
  change (FileContentType_call (S (S d)) (Some s)) with
    (match FileContentType_lookup (Some s) with
     | Some m => Ok m
     | None => FileContentType_missing_ (FileContentType_call (S d)) (Some s)
     end).
  destruct (FileContentType_lookup (Some s)) as [m'|] eqn:E.
  - rewrite (FileContentType_lookup_lower _ _ E), E. split; congruence.
  - unfold FileContentType_missing_.
    destruct (FileContentType_lookup (Some (lower s))) as [m'|] eqn:El.
    + destruct (FileContentType_lookup_ascii _ _ El) as (Ht & Ha & _).
      rewrite truthy_lower in Ht. rewrite isascii_lower in Ha.
      assert (has_upper s = true) as Hu.
      { destruct (has_upper s) eqn:Hu; [done|].
        rewrite (lower_fixed _ Hu) in El. congruence. }
      unfold islower. rewrite Ht, Ha, Hu, andb_false_r.
      cbn [negb andb FileContentType_call]. rewrite El. split; congruence.
    + destruct (truthy s && isascii s && negb (islower s)) eqn:G; [|done].
      split; [|done]. intros Hok.
      by apply FileContentType_call_lower_not_member in Hok; [|done|apply lower_idem].
Qed.

End enums.

(** ** The snapshot query *)
Section snapshot.
Local Open Scope Z_scope.
Implicit Types (db : Database) (r : DatasetExampleRevision) (lv : LatestVersion).

Lemma elem_of_latest_version_from db did c r :
  r ∈ latest_version_from db did c
  <-> r ∈ tbl_dataset_example_revisions db
      /\ (exists e, e ∈ tbl_dataset_examples db
                    /\ example_pk e = dataset_example_id r
                    /\ example_dataset_id e = did)
      /\ under_ceiling c r = true.
Proof.
  unfold latest_version_from. rewrite list_elem_of_bind. split.
  - intros (r0 & Hin & Hr0). apply list_elem_of_bind in Hin as (e & Hin & He).
    destruct (_ && _) eqn:G; [|by apply elem_of_nil in Hin].
    apply list_elem_of_singleton in Hin as ->.
    apply andb_true_iff in G as [G Hc]. apply andb_true_iff in G as [G1 G2].
    apply Z.eqb_eq in G1, G2. eauto 10.
  - intros (Hr & (e & He & H1 & H2) & Hc). exists r. split; [|done].
    apply list_elem_of_bind. exists e. split; [|done].
    apply Z.eqb_eq in H1, H2. rewrite H1, H2, Hc. simpl. apply list_elem_of_here.
Qed.

Lemma elem_of_group_keys (rows : list DatasetExampleRevision) k :
  k ∈ group_keys rows <-> exists r, r ∈ rows /\ dataset_example_id r = k.
Proof.
  unfold group_keys. rewrite elem_of_remove_dups, list_elem_of_fmap.
  split; intros (r & ? & ?); eauto.
Qed.

Lemma NoDup_group_keys (rows : list DatasetExampleRevision) : NoDup (group_keys rows).
Proof. apply NoDup_remove_dups. Qed.

Lemma fold_left_max_ge (vs : list Z) v : v <= fold_left Z.max vs v.
Proof.
  revert v. induction vs as [|x vs IH]; intros v; simpl; [lia|].
  etrans; [|apply IH]. lia.
Qed.

Lemma fold_left_max_upper (vs : list Z) v x :
  x ∈ vs -> x <= fold_left Z.max vs v.
Proof.
  revert v. induction vs as [|y vs IH]; intros v Hx; simpl.
  - by apply elem_of_nil in Hx.
  - apply elem_of_cons in Hx as [->|Hx]; [|by apply IH].
    etrans; [|apply fold_left_max_ge]. lia.
Qed.

Lemma fold_left_max_elem (vs : list Z) v :
  fold_left Z.max vs v = v \/ fold_left Z.max vs v ∈ vs.
Proof.
  revert v. induction vs as [|y vs IH]; intros v; simpl; [by left|].
  destruct (IH (Z.max v y)) as [E|E].
  - rewrite E. destruct (Z.max_spec v y) as [[_ ->]|[_ ->]]; [right; left|by left].
  - right. by right.
Qed.

Lemma sql_max_upper (vs : list Z) x : x ∈ vs -> x <= sql_max vs.
Proof.
  destruct vs as [|v vs]; [by intros ?%elem_of_nil|].
  intros [->|Hx]%elem_of_cons; simpl.
  - apply fold_left_max_ge.
  - by apply fold_left_max_upper.
Qed.

Lemma sql_max_elem (vs : list Z) : vs <> [] -> sql_max vs ∈ vs.
Proof.
  destruct vs as [|v vs]; [done|]. intros _. simpl.
  destruct (fold_left_max_elem vs v) as [->|E]; [left|by right].
Qed.

Lemma elem_of_group_of (rows : list DatasetExampleRevision) k r :
  r ∈ group_of rows k <-> r ∈ rows /\ dataset_example_id r = k.
Proof. unfold group_of. rewrite list_elem_of_filter. tauto. Qed.

(** The greatest version id of a group belongs to a row of the group and
    bounds the version ids of the group. *)
Lemma group_max_spec (rows : list DatasetExampleRevision) k :
  k ∈ group_keys rows ->
  let m := sql_max (dataset_version_id <$> group_of rows k) in
  (exists r, r ∈ rows /\ dataset_example_id r = k /\ dataset_version_id r = m)
  /\ (forall r, r ∈ rows -> dataset_example_id r = k -> dataset_version_id r <= m).
Proof.
  intros (r0 & Hr0 & Hk)%elem_of_group_keys m. split.
  - assert (m ∈ dataset_version_id <$> group_of rows k) as Hm.
    { apply sql_max_elem. intros E.
      assert (r0 ∈ group_of rows k) as Hin by by apply elem_of_group_of.
      apply (list_elem_of_fmap_2 dataset_version_id) in Hin.
      rewrite E in Hin. by apply elem_of_nil in Hin. }
    apply list_elem_of_fmap in Hm as (r & Hr & Hin).
    apply elem_of_group_of in Hin as [? ?]. eauto.
  - intros r Hr Hrk. apply sql_max_upper, list_elem_of_fmap.
    exists r. split; [done|]. by apply elem_of_group_of.
Qed.

Lemma elem_of_latest_version db did c lv :
  lv ∈ latest_version db did c
  <-> lv_dataset_example_id lv ∈ examples_at db did c
      /\ example_index lv
         = rank (examples_at db did c) (lv_dataset_example_id lv) - 1
      /\ lv_dataset_version_id lv
         = sql_max (dataset_version_id
                      <$> group_of (latest_version_from db did c)
                            (lv_dataset_example_id lv)).
Proof.
  unfold latest_version, examples_at. rewrite list_elem_of_fmap. split.
  - intros (k & -> & Hk). done.
  - intros (Hk & Hi & Hv). exists (lv_dataset_example_id lv). split; [|done].
    destruct lv; simpl in *. by subst.
Qed.

Lemma latest_version_key_inj db did c lv1 lv2 :
  lv1 ∈ latest_version db did c -> lv2 ∈ latest_version db did c ->
  lv_dataset_example_id lv1 = lv_dataset_example_id lv2 -> lv1 = lv2.
Proof.
  intros (_ & Hi1 & Hv1)%elem_of_latest_version
         (_ & Hi2 & Hv2)%elem_of_latest_version Hk.
  destruct lv1, lv2; simpl in *. subst. done.
Qed.

Lemma elem_of_stmt_rows db did c r lv :
  (r, lv) ∈ stmt_rows db did c
  <-> r ∈ tbl_dataset_example_revisions db
      /\ lv ∈ latest_version db did c
      /\ dataset_example_id r = lv_dataset_example_id lv
      /\ dataset_version_id r = lv_dataset_version_id lv
      /\ is_delete (revision_kind r) = false.
Proof.
  unfold stmt_rows. rewrite merge_sort_Permutation, list_elem_of_filter.
  rewrite list_elem_of_bind. simpl. split.
  - intros (Hd & r0 & Hin & Hr0).
    apply list_elem_of_bind in Hin as (lv0 & Hin & Hlv0).
    destruct (_ && _) eqn:G; [|by apply elem_of_nil in Hin].
    apply list_elem_of_singleton in Hin. injection Hin as -> ->.
    apply andb_true_iff in G as [G1 G2]. apply Z.eqb_eq in G1, G2. done.
  - intros (Hr & Hlv & He & Hv & Hd). split; [done|]. exists r. split; [|done].
    apply list_elem_of_bind. exists lv. split; [|done].
    apply Z.eqb_eq in He, Hv. rewrite He, Hv. simpl. apply list_elem_of_here.
Qed.

Lemma is_delete_false k : is_delete k = false <-> k <> DELETE.
Proof. destruct k; simpl; split; congruence. Qed.

(** A revision with the example and version id of a row of
    [latest_version_from] is such a row as well. *)
Lemma latest_version_from_same_key db did c r r0 :
  r0 ∈ latest_version_from db did c ->
  r ∈ tbl_dataset_example_revisions db ->
  dataset_example_id r = dataset_example_id r0 ->
  dataset_version_id r = dataset_version_id r0 ->
  r ∈ latest_version_from db did c.
Proof.
  rewrite !elem_of_latest_version_from.
  intros (_ & (e & He & Hpk & Hd) & Hc) Hr Hex Hv. split; [done|]. split.
  - exists e. rewrite Hex. done.
  - revert Hc. unfold under_ceiling. by rewrite Hv.
Qed.

(** The revisions of a snapshot are the greatest revisions at or below the
    ceiling that are not tombstones. *)
Lemma elem_of_snapshot_revisions db did c r :
  r ∈ snapshot_revisions db did c
  <-> greatest db did c r /\ revision_kind r <> DELETE.
Proof.
  unfold snapshot_revisions. rewrite list_elem_of_fmap. split.
  - intros ([r0 lv] & -> & Hin). simpl.
    apply elem_of_stmt_rows in Hin as (Hr & Hlv & He & Hv & Hd).
    apply elem_of_latest_version in Hlv as (Hk & _ & Hm).
    destruct (group_max_spec _ _ Hk) as [(r1 & Hr1 & He1 & Hv1) Hub].
    rewrite <-Hm in Hv1, Hub. split; [|by apply is_delete_false].
    split.
    + apply (latest_version_from_same_key _ _ _ _ r1); congruence.
    + intros r' Hr' He'. rewrite Hv. apply Hub; congruence.
  - intros [[Hr Hub] Hd].
    assert (dataset_example_id r ∈ examples_at db did c) as Hk.
    { apply elem_of_group_keys. eauto. }
    set (lv := {| lv_dataset_example_id := dataset_example_id r;
                  example_index := rank (examples_at db did c) (dataset_example_id r) - 1;
                  lv_dataset_version_id :=
                    sql_max (dataset_version_id
                               <$> group_of (latest_version_from db did c)
                                     (dataset_example_id r)) |}).
    exists (r, lv). split; [done|]. apply elem_of_stmt_rows.
    split; [by apply elem_of_latest_version_from in Hr as (? & _)|].
    split; [by apply elem_of_latest_version|].
    split; [done|]. split; [|by apply is_delete_false].
    destruct (group_max_spec _ _ Hk) as [(r1 & Hr1 & He1 & Hv1) Hub'].
    simpl. apply Z.le_antisymm; [by apply Hub'|].
    rewrite <-Hv1. by apply Hub.
Qed.

Lemma NoDup_fmap_elem_inj {A B} (f : A -> B) (l : list A) x y :
  NoDup (f <$> l) -> x ∈ l -> y ∈ l -> f x = f y -> x = y.
Proof.
  induction l as [|a l IH]; csimpl; [by intros _ ?%elem_of_nil|].
  rewrite NoDup_cons, !elem_of_cons. intros [Ha Hl] [->|Hx] [->|Hy] E; auto.
  - destruct Ha. rewrite E. by apply list_elem_of_fmap_2.
  - destruct Ha. rewrite <-E. by apply list_elem_of_fmap_2.
Qed.

Lemma latest_version_from_ceiling db did V r :
  r ∈ latest_version_from db did None -> dataset_version_id r <= V ->
  r ∈ latest_version_from db did (Some V).
Proof.
  rewrite !elem_of_latest_version_from. intros (? & ? & _) Hv.
  split_and!; [done..|]. by apply Z.leb_le.
Qed.

Lemma latest_version_from_revision db did c r :
  r ∈ latest_version_from db did c -> r ∈ tbl_dataset_example_revisions db.
Proof. by intros (? & _)%elem_of_latest_version_from. Qed.

(** An example whose tombstone is its greatest revision at or below the
    ceiling is not in the snapshot. *)
Lemma tombstoned_example_absent db did d V :
  revision_keys_unique db ->
  d ∈ latest_version_from db did None ->
  revision_kind d = DELETE ->
  dataset_version_id d <= V ->
  (forall r', r' ∈ latest_version_from db did (Some V) ->
              dataset_example_id r' = dataset_example_id d ->
              dataset_version_id r' <= dataset_version_id d) ->
  dataset_example_id d ∉ snapshot_example_ids db did (Some V).
Proof.
  intros Hu Hd Hk HV Hlast Hin. unfold snapshot_example_ids in Hin.
  apply list_elem_of_fmap in Hin as (r & He & Hr).
  apply elem_of_snapshot_revisions in Hr as [[Hr Hub] Hnd].
  assert (d ∈ latest_version_from db did (Some V)) as Hd'
    by by apply latest_version_from_ceiling.
  assert (r = d) as ->; [|done].
  apply (NoDup_fmap_elem_inj revision_key (tbl_dataset_example_revisions db));
    eauto using latest_version_from_revision.
  unfold revision_key. f_equal; [done|].
  apply Z.le_antisymm; [by apply Hlast|by apply Hub].
Qed.

End snapshot.

(** C1, as it is stated, fails: example 1 of [db_resurrected] has its DELETE
    revision at version 2, and the snapshot at the ceiling 3, which is not
    below 2, exports the example again, from its revision at version 3. *)
Lemma resurrected_example_is_exported :
  revision_keys_unique db_resurrected
  /\ tombstones db_resurrected 1 = [(1, 2)%Z]
  /\ (2 <= 3)%Z
  /\ snapshot_example_ids db_resurrected 1 (Some 3%Z) = [1%Z]
  /\ status_code (_get_dataset_download_csv db_resurrected (download 1 (Some 3%Z)))
     = 200%Z.
Proof.
  split_and!; [|by vm_compute|lia|by vm_compute..].
  unfold revision_keys_unique. apply (bool_decide_unpack _). by vm_compute.
Qed.

(** C1 (amended): the snapshot of the export path holds exactly the greatest
    revisions at or below the ceiling that are not DELETE, so it excludes
    exactly the examples whose greatest revision at or below the ceiling is a
    DELETE.  An example with a DELETE revision at version Vd is absent at
    every ceiling V >= Vd at which that revision is still its greatest one
    (every V >= Vd when the DELETE is its last revision), and at a ceiling
    V < Vd its greatest revision at or below V is read and exported when it is
    not a DELETE. *)
Theorem snapshot_excludes_tombstoned_examples (db : Database) (dataset_id : Z) :
  (forall ceiling r,
     r ∈ snapshot_revisions db dataset_id ceiling
     <-> greatest db dataset_id ceiling r /\ revision_kind r <> DELETE)
  /\ (forall d V,
        revision_keys_unique db ->
        d ∈ latest_version_from db dataset_id None ->
        revision_kind d = DELETE ->
        (dataset_version_id d <= V)%Z ->
        (forall r', r' ∈ latest_version_from db dataset_id (Some V) ->
                    dataset_example_id r' = dataset_example_id d ->
                    (dataset_version_id r' <= dataset_version_id d)%Z) ->
        dataset_example_id d ∉ snapshot_example_ids db dataset_id (Some V))
  /\ (forall d V r,
        d ∈ latest_version_from db dataset_id None ->
        revision_kind d = DELETE ->
        (V < dataset_version_id d)%Z ->
        greatest db dataset_id (Some V) r ->
        dataset_example_id r = dataset_example_id d ->
        revision_kind r <> DELETE ->
        r ∈ snapshot_revisions db dataset_id (Some V)
        /\ dataset_example_id d ∈ snapshot_example_ids db dataset_id (Some V)).
Proof.
  split_and!.
  - intros. apply elem_of_snapshot_revisions.
  - intros. by apply tombstoned_example_absent.
  - intros d V r _ _ _ Hg He Hk.
    assert (r ∈ snapshot_revisions db dataset_id (Some V)) as Hr
      by by apply elem_of_snapshot_revisions.
    split; [done|]. rewrite <-He. unfold snapshot_example_ids.
    by apply list_elem_of_fmap_2.
Qed.

Lemma snapshot_excludes_tombstoned_examples_witness :
  revision_keys_unique db_tombstoned
  /\ tombstone 2 2 ∈ latest_version_from db_tombstoned 1 None
  /\ (dataset_example_id (tombstone 2 2)
      ∉ snapshot_example_ids db_tombstoned 1 (Some 3%Z))
  /\ revision 2 1 CREATE "q2" "a2" ∈ snapshot_revisions db_tombstoned 1 (Some 1%Z).
Proof.
  destruct (snapshot_excludes_tombstoned_examples db_tombstoned 1)
    as (_ & Habsent & Hbefore).
  assert (revision_keys_unique db_tombstoned) as Hu.
  { unfold revision_keys_unique. apply (bool_decide_unpack _). vm_compute. exact I. }
  assert (tombstone 2 2 ∈ latest_version_from db_tombstoned 1 None) as Hd.
  { apply elem_of_latest_version_from. split_and!.
    - simpl. rewrite !elem_of_cons. auto.
    - exists {| example_pk := 2; example_dataset_id := 1 |}.
      split; [|done]. simpl. rewrite !elem_of_cons. auto.
    - reflexivity. }
  split; [exact Hu|]. split; [exact Hd|]. split.
  - apply (Habsent (tombstone 2 2) 3%Z Hu Hd eq_refl); [simpl; lia|].
    intros r' (Hin & _ & _)%elem_of_latest_version_from He. simpl in Hin, He.
    rewrite !elem_of_cons in Hin.
    destruct Hin as [->|[->|[->|[->|[->|Hin]]]]];
      [simpl in *; lia..|by apply elem_of_nil in Hin].
  - apply (Hbefore (tombstone 2 2) 1%Z (revision 2 1 CREATE "q2" "a2") Hd eq_refl);
      [simpl; lia| |reflexivity|discriminate].
    split.
    + apply elem_of_latest_version_from. split_and!.
      * simpl. rewrite !elem_of_cons. auto.
      * exists {| example_pk := 2; example_dataset_id := 1 |}.
        split; [|done]. simpl. rewrite !elem_of_cons. auto.
      * reflexivity.
    + intros r' (Hin & _ & Hc)%elem_of_latest_version_from He.
      simpl in Hin, He, Hc. rewrite !elem_of_cons in Hin.
      destruct Hin as [->|[->|[->|[->|[->|Hin]]]]];
        [simpl in *; try lia; try discriminate..|by apply elem_of_nil in Hin].
Defined.

(** The three parts of the statement at work on [db_tombstoned]: example 2,
    deleted at version 2, is exported at the ceiling 1 and at no ceiling from
    2 on. *)
Example tombstoned_example_by_ceiling :
  tombstones db_tombstoned 1 = [(2, 2)%Z]
  /\ snapshot_example_ids db_tombstoned 1 (Some 1%Z) = [1; 2; 3]%Z
  /\ snapshot_example_ids db_tombstoned 1 (Some 2%Z) = [1; 3]%Z
  /\ snapshot_example_ids db_tombstoned 1 (Some 3%Z) = [1; 3]%Z
  /\ snapshot_example_ids db_tombstoned 1 None = [1; 3]%Z.
Proof. by vm_compute. Qed.

(** ** Order and indices of a snapshot *)
Section indices.
Local Open Scope list_scope.
Local Open Scope Z_scope.
Implicit Types (db : Database) (r : DatasetExampleRevision) (lv : LatestVersion).

#[local] Instance by_example_id_total : Total by_example_id.
Proof. intros a b. unfold by_example_id. lia. Qed.

#[local] Instance by_example_id_trans : Transitive by_example_id.
Proof. intros a b c. unfold by_example_id. lia. Qed.

Lemma stmt_rows_sorted db did c : StronglySorted by_example_id (stmt_rows db did c).
Proof. unfold stmt_rows. apply StronglySorted_merge_sort; apply _. Qed.

Lemma NoDup_latest_version db did c : NoDup (latest_version db did c).
Proof.
  unfold latest_version. apply NoDup_fmap_2_strong; [|apply NoDup_group_keys].
  intros k1 k2 _ _ E. by injection E.
Qed.

Lemma NoDup_stmt_rows db did c :
  revision_keys_unique db -> NoDup (stmt_rows db did c).
Proof.
  intros Hu. unfold stmt_rows. rewrite merge_sort_Permutation.
  apply NoDup_filter, NoDup_bind.
  - intros r1 r2 [r lv] _ _ H1 H2.
    apply list_elem_of_bind in H1 as (lv1 & H1 & _).
    apply list_elem_of_bind in H2 as (lv2 & H2 & _).
    destruct (_ && _); [|by apply elem_of_nil in H1].
    destruct (_ && _); [|by apply elem_of_nil in H2].
    apply list_elem_of_singleton in H1, H2. congruence.
  - intros r _. apply NoDup_bind; [| |apply NoDup_latest_version].
    + intros lv1 lv2 [r' lv] _ _ H1 H2.
      destruct (_ && _); [|by apply elem_of_nil in H1].
      destruct (_ && _); [|by apply elem_of_nil in H2].
      apply list_elem_of_singleton in H1, H2. congruence.
    + intros lv _. destruct (_ && _); [apply NoDup_singleton|apply NoDup_nil_2].
  - by apply NoDup_fmap_1 in Hu.
Qed.

(** With the invariant of the log, a snapshot has one row for an example. *)
Lemma stmt_rows_example_inj db did c p1 p2 :
  revision_keys_unique db ->
  p1 ∈ stmt_rows db did c -> p2 ∈ stmt_rows db did c ->
  dataset_example_id (fst p1) = dataset_example_id (fst p2) -> p1 = p2.
Proof.
  destruct p1 as [r1 lv1], p2 as [r2 lv2]. simpl.
  intros Hu (Hr1 & Hl1 & He1 & Hv1 & _)%elem_of_stmt_rows
            (Hr2 & Hl2 & He2 & Hv2 & _)%elem_of_stmt_rows He.
  assert (lv1 = lv2) as -> by (eapply latest_version_key_inj; eauto; congruence).
  f_equal.
  apply (NoDup_fmap_elem_inj revision_key (tbl_dataset_example_revisions db));
    [done..|]. unfold revision_key. congruence.
Qed.

Lemma NoDup_snapshot_example_ids db did c :
  revision_keys_unique db -> NoDup (snapshot_example_ids db did c).
Proof.
  intros Hu. unfold snapshot_example_ids, snapshot_revisions.
  rewrite <-list_fmap_compose.
  apply NoDup_fmap_2_strong; [|by apply NoDup_stmt_rows].
  intros p1 p2 ? ? E. by eapply stmt_rows_example_inj.
Qed.

Lemma StronglySorted_le_lt (l : list Z) :
  StronglySorted Z.le l -> NoDup l -> StronglySorted Z.lt l.
Proof.
  induction 1 as [|x l Hs IH Hx]; intros Hn; [constructor|].
  apply NoDup_cons in Hn as [Hnx Hn]. constructor; [by apply IH|].
  rewrite Forall_forall in Hx |- *. intros y Hy.
  specialize (Hx y Hy). assert (x <> y) by (intros ->; done). lia.
Qed.

(** The rows come in ascending order of the example id, strictly. *)
Lemma snapshot_example_ids_sorted db did c :
  revision_keys_unique db ->
  StronglySorted Z.lt (snapshot_example_ids db did c).
Proof.
  intros Hu. apply StronglySorted_le_lt; [|by apply NoDup_snapshot_example_ids].
  unfold snapshot_example_ids, snapshot_revisions. rewrite <-list_fmap_compose.
  eapply StronglySorted_fmap; [|apply stmt_rows_sorted]. done.
Qed.

(** The index of a row is the number of examples of the dataset with a
    revision at or below the ceiling and a smaller id. *)
Lemma snapshot_indices_rank db did c :
  snapshot_indices db did c
  = smaller_examples db did c <$> snapshot_example_ids db did c.
Proof.
  unfold snapshot_indices, snapshot_example_ids, snapshot_revisions.
  rewrite <-!list_fmap_compose. apply Forall_fmap_ext_1, Forall_forall.
  intros [r lv] (_ & Hlv & He & _)%elem_of_stmt_rows. simpl.
  apply elem_of_latest_version in Hlv as (_ & -> & _).
  unfold smaller_examples, rank. rewrite He. lia.
Qed.

Lemma filter_lt_prefix (pre l : list Z) x :
  StronglySorted Z.lt (pre ++ x :: l) ->
  filter (fun k' => k' < x) (pre ++ x :: l) = pre.
Proof.
  intros (Hpl & Hp & Hl)%StronglySorted_app.
  apply StronglySorted_cons in Hl as [Hx _].
  rewrite filter_app, filter_cons_False by lia.
  replace (filter (fun k' => k' < x) l) with (@nil Z).
  - rewrite app_nil_r. clear Hp. induction pre as [|p pre IH]; [done|].
    rewrite filter_cons_True by (apply Hpl; [left|left]).
    f_equal. apply IH. intros ? ? ? ?. apply Hpl; [by right|done].
  - symmetry. clear Hpl. induction Hx as [|y l Hy Hx IH]; [done|].
    rewrite filter_cons_False by lia. done.
Qed.

Lemma sorted_rank_prefix (pre l : list Z) :
  StronglySorted Z.lt (pre ++ l) ->
  (fun k => length (filter (fun k' => k' < k) (pre ++ l))) <$> l
  = seq (length pre) (length l).
Proof.
  revert pre. induction l as [|x l IH]; intros pre Hs; [done|]. csimpl.
  rewrite filter_lt_prefix by done. f_equal.
  specialize (IH (pre ++ [x])%list). rewrite <-(assoc_L (++)) in IH. simpl in IH.
  rewrite IH by done. rewrite length_app. simpl. f_equal. lia.
Qed.

Lemma sorted_rank (keys l : list Z) :
  StronglySorted Z.lt l -> keys ≡ₚ l ->
  (fun k => Z.of_nat (length (filter (fun k' => k' < k) keys))) <$> l
  = Z.of_nat <$> seq 0 (length l).
Proof.
  intros Hs Hp. pose proof (sorted_rank_prefix [] l Hs) as E. simpl in E.
  rewrite <-E, <-list_fmap_compose. apply Forall_fmap_ext_1, Forall_forall.
  intros k _. simpl. by rewrite Hp.
Qed.

(** When no example is tombstoned at the ceiling, the snapshot has a row
    for every example with a revision at or below it. *)
Lemma snapshot_example_ids_all db did c :
  revision_keys_unique db ->
  (forall r, greatest db did c r -> revision_kind r <> DELETE) ->
  examples_at db did c ≡ₚ snapshot_example_ids db did c.
Proof.
  intros Hu Hnt.
  apply NoDup_Permutation;
    [apply NoDup_group_keys|by apply NoDup_snapshot_example_ids|].
  intros k. unfold snapshot_example_ids. rewrite list_elem_of_fmap. split.
  - intros Hk. destruct (group_max_spec _ _ Hk) as [(r & Hr & He & Hv) Hub].
    exists r. split; [done|]. apply elem_of_snapshot_revisions.
    assert (greatest db did c r) as Hg.
    { split; [done|]. intros r' Hr' He'. rewrite Hv.
      apply Hub; congruence. }
    eauto.
  - intros (r & -> & Hr). apply elem_of_snapshot_revisions in Hr as [[Hr _] _].
    apply elem_of_group_keys. eauto.
Qed.

Lemma smaller_examples_lt db did c k1 k2 :
  k1 ∈ examples_at db did c -> k1 < k2 ->
  smaller_examples db did c k1 < smaller_examples db did c k2.
Proof.
  intros Hk Hlt. unfold smaller_examples. apply inj_lt.
  replace (filter (fun k' => k' < k1) (examples_at db did c))
    with (filter (fun k' => k' < k1)
            (filter (fun k' => k' < k2) (examples_at db did c))).
  - apply (length_filter_lt _ _ k1); [|lia].
    apply list_elem_of_filter. split; [lia|done].
  - rewrite list_filter_filter. apply list_filter_iff. intros x. lia.
Qed.

Lemma snapshot_example_ids_at db did c k :
  k ∈ snapshot_example_ids db did c -> k ∈ examples_at db did c.
Proof.
  unfold snapshot_example_ids. intros (r & -> & Hr)%list_elem_of_fmap.
  apply elem_of_snapshot_revisions in Hr as [[Hr _] _].
  apply elem_of_group_keys. eauto.
Qed.

Lemma StronglySorted_fmap_elem {A B} (R1 : relation A) (R2 : relation B)
    (f : A -> B) (l : list A) :
  (forall x y, x ∈ l -> R1 x y -> R2 (f x) (f y)) ->
  StronglySorted R1 l -> StronglySorted R2 (f <$> l).
Proof.
  intros Hf Hs. induction Hs as [|x l Hs IH Hx]; csimpl; constructor.
  - apply IH. intros ? ? ? ?. apply Hf; [by right|done].
  - rewrite Forall_fmap. eapply Forall_impl; [exact Hx|].
    intros y Hy. apply Hf; [left|done].
Qed.

(** The indices grow strictly along the rows. *)
Lemma snapshot_indices_sorted db did c :
  revision_keys_unique db ->
  StronglySorted Z.lt (snapshot_indices db did c).
Proof.
  intros Hu. rewrite snapshot_indices_rank.
  eapply StronglySorted_fmap_elem; [|by apply snapshot_example_ids_sorted].
  intros k1 k2 Hk Hlt. apply smaller_examples_lt; [|done].
  by apply snapshot_example_ids_at.
Qed.

Lemma snapshot_indices_dense db did c :
  revision_keys_unique db ->
  (forall r, greatest db did c r -> revision_kind r <> DELETE) ->
  snapshot_indices db did c
  = Z.of_nat <$> seq 0 (length (stmt_rows db did c)).
Proof.
  intros Hu Hnt. rewrite snapshot_indices_rank. unfold smaller_examples.
  rewrite (sorted_rank (examples_at db did c) (snapshot_example_ids db did c)).
  - unfold snapshot_example_ids, snapshot_revisions. by rewrite !length_fmap.
  - by apply snapshot_example_ids_sorted.
  - by apply snapshot_example_ids_all.
Qed.

End indices.

(** C2, as it is stated, fails: in [db_tombstoned] example 2 is deleted at
    version 2, and the latest snapshot exports the examples 1 and 3 with the
    indices 0 and 2, not 0 and 1. *)
Lemma tombstone_leaves_gap_in_indices :
  revision_keys_unique db_tombstoned
  /\ tombstones db_tombstoned 1 = [(2, 2)%Z]
  /\ snapshot_example_ids db_tombstoned 1 None = [1; 3]%Z
  /\ snapshot_indices db_tombstoned 1 None = [0; 2]%Z
  /\ response_indices (_get_dataset_download_csv db_tombstoned (download 1 None))
     = [Some (VInt 0); Some (VInt 2)].
Proof.
  split; [|by vm_compute].
  unfold revision_keys_unique. apply (bool_decide_unpack _). by vm_compute.
Qed.

(** C2 (amended): the surviving examples of a snapshot come in ascending
    order of their DatasetExample id, and each one carries the zero-based rank
    of its id among all examples of the dataset that have a revision at or
    below the ceiling, the tombstoned ones included.  The indices grow
    strictly with the order, and they are exactly 0, 1, ..., n-1 when no
    example of the dataset is tombstoned at that ceiling.  They are computed
    from the revision log alone, so every read of the same log gives the same
    indices. *)
Theorem snapshot_order_and_indices (db : Database) (dataset_id : Z)
    (ceiling : option Z) :
  revision_keys_unique db ->
  StronglySorted Z.lt (snapshot_example_ids db dataset_id ceiling)
  /\ snapshot_indices db dataset_id ceiling
     = smaller_examples db dataset_id ceiling
         <$> snapshot_example_ids db dataset_id ceiling
  /\ StronglySorted Z.lt (snapshot_indices db dataset_id ceiling)
  /\ ((forall r, greatest db dataset_id ceiling r -> revision_kind r <> DELETE) ->
      snapshot_indices db dataset_id ceiling
      = Z.of_nat <$> seq 0 (length (stmt_rows db dataset_id ceiling))).
Proof.
  intros Hu. split_and!.
  - by apply snapshot_example_ids_sorted.
  - apply snapshot_indices_rank.
  - by apply snapshot_indices_sorted.
  - by apply snapshot_indices_dense.
Qed.

Lemma snapshot_order_and_indices_witness :
  revision_keys_unique db_tombstoned
  /\ StronglySorted Z.lt (snapshot_example_ids db_tombstoned 1 (Some 1%Z))
  /\ snapshot_indices db_tombstoned 1 (Some 1%Z)
     = smaller_examples db_tombstoned 1 (Some 1%Z)
         <$> snapshot_example_ids db_tombstoned 1 (Some 1%Z)
  /\ StronglySorted Z.lt (snapshot_indices db_tombstoned 1 (Some 1%Z))
  /\ ((forall r, greatest db_tombstoned 1 (Some 1%Z) r -> revision_kind r <> DELETE) ->
      snapshot_indices db_tombstoned 1 (Some 1%Z)
      = Z.of_nat <$> seq 0 (length (stmt_rows db_tombstoned 1 (Some 1%Z)))).
Proof.
  assert (revision_keys_unique db_tombstoned) as Hu.
  { unfold revision_keys_unique. apply (bool_decide_unpack _). vm_compute. exact I. }
  split; [exact Hu|].
  exact (snapshot_order_and_indices db_tombstoned 1 (Some 1%Z) Hu).
Defined.

(** Without a tombstone at the ceiling the indices are dense: the snapshot of
    [db_tombstoned] at the ceiling 1. *)
Example dense_indices_before_the_tombstone :
  snapshot_example_ids db_tombstoned 1 (Some 1%Z) = [1; 2; 3]%Z
  /\ snapshot_indices db_tombstoned 1 (Some 1%Z) = [0; 1; 2]%Z.
Proof. by vm_compute. Qed.

(** ** The export handler *)
Section export.
Local Open Scope Z_scope.
Implicit Types (db : Database) (g v : GlobalID).

(** The handler on well-typed ids. *)
Lemma download_well_typed db g (v : option GlobalID) :
  type_name g = "Dataset" ->
  wrong_version_type v = None ->
  _get_dataset_download_csv db (download_of g v)
  = match or_else (select_dataset_name db (node_id g)) None with
    | None => plain HTTP_404_NOT_FOUND (Text "Dataset does not exist.")
    | Some dataset_name =>
        match example_record <$> stmt db (node_id g) (node_id <$> v) with
        | [] =>
            plain HTTP_404_NOT_FOUND
              (Text ("Dataset has no examples: dataset_name="
                     ++ repr_str dataset_name))
        | examples =>
            {| status_code := 200;
               content := GzipCsv examples;
               headers :=
                 [("content-disposition",
                   "attachment; filename=" ++ dquote ++ dataset_name
                     ++ ".csv" ++ dquote);
                  ("content-type", "text/csv");
                  ("content-encoding", "gzip")] |}
        end
    end.
Proof.
  intros Hg Hv. unfold _get_dataset_download_csv, download_of.
  cbn [datasetId datasetVersionId]. rewrite Hg, Hv, String.eqb_refl.
  cbn [negb].
  destruct (or_else _ _); [|done]. by destruct (example_record <$> _).
Qed.










End export.




(** The answers of [db_tombstoned] at the ceilings 1 and 2, and without a
    ceiling: the id 1 cuts the log before the tombstone of example 2. *)
Example export_at_a_ceiling_that_cuts_the_log :
  snapshot_example_ids db_tombstoned 1 (Some 1%Z) = [1; 2; 3]%Z
  /\ snapshot_example_ids db_tombstoned 1 (Some 2%Z) = [1; 3]%Z
  /\ _get_dataset_download_csv db_tombstoned (download 1 (Some 1%Z))
     <> _get_dataset_download_csv db_tombstoned (download 1 None)
  /\ _get_dataset_download_csv db_tombstoned (download 1 (Some 2%Z))
     = _get_dataset_download_csv db_tombstoned (download 1 None).
Proof.
  split_and!; [by vm_compute..| |by vm_compute].
  intros E. apply (f_equal content) in E. vm_compute in E. discriminate E.
Qed.

(** ** Records of a snapshot *)
Section records.

(** [{**a, **b}] reads a key in [b] first. *)
Lemma lookup_merge (a b : gmap string value) k :
  (b ∪ a) !! k = match b !! k with Some x => Some x | None => a !! k end.
Proof. rewrite lookup_union. by destruct (b !! k), (a !! k). Qed.

End records.

(** C9: the record of a snapshot row merges the metadata, the input and the
    output of the selected revision in that order, so on a shared key the
    input overrides the metadata and the output overrides both, and the record
    carries the index of the row under the reserved key [__example_index__];
    the records of an export are the records of the rows of [stmt], which
    selects the input, the output and the metadata of the revision with the
    index of its example. *)
Theorem example_record_merges_payloads
    (input output metadata : gmap string value) (example_index : Z) :
  example_record (input, output, metadata, example_index)
  = <["__example_index__" := VInt example_index]> (output ∪ (input ∪ metadata))
  /\ (forall k,
        (output ∪ (input ∪ metadata)) !! k
        = match output !! k with
          | Some x => Some x
          | None => match input !! k with
                    | Some x => Some x
                    | None => metadata !! k
                    end
          end)
  /\ (forall k,
        example_record (input, output, metadata, example_index) !! k
        = if decide (k = "__example_index__") then Some (VInt example_index)
          else (output ∪ (input ∪ metadata)) !! k)
  /\ (forall db dataset_id ceiling,
        stmt db dataset_id ceiling
        = (fun p => (models.input (fst p), models.output (fst p),
                     models.metadata_ (fst p), datasets.example_index (snd p)))
            <$> stmt_rows db dataset_id ceiling)
  /\ (forall db request records,
        content (_get_dataset_download_csv db request) = GzipCsv records ->
        exists g, datasetId request = Some g
                  /\ records
                     = example_record
                         <$> stmt db (node_id g)
                               (node_id <$> datasetVersionId request)).
Proof.
  split_and!.
  - done.
  - intros k. by rewrite !lookup_merge.
  - intros k. unfold example_record. rewrite lookup_insert.
    repeat case_decide; congruence.
  - done.
  - intros db request records. unfold _get_dataset_download_csv.
    destruct (datasetId request) as [g|]; [|done].
    destruct (negb _); [done|].
    destruct (wrong_version_type _); [done|].
    destruct (or_else _ _); [|done].
    destruct (example_record <$> _) eqn:E; [done|].
    simpl. intros [= <-]. eauto.
Qed.

(** A record of the export of [db_tombstoned]: the question and the answer of
    example 3 with its index. *)
Example record_of_example_3 :
  content (_get_dataset_download_csv db_tombstoned (download 1 None))
  = GzipCsv
      [ {[ "__example_index__" := VInt 0; "q" := VStr "q1"; "a" := VStr "a1" ]};
        {[ "__example_index__" := VInt 2; "q" := VStr "q3"; "a" := VStr "a3" ]} ].
Proof. by vm_compute. Qed.

(** ** The header of a CSV file *)
Section counter.
Local Open Scope list_scope.
Implicit Types (c : list (string * nat)) (l names : list string).

Lemma Counter_get_add c x k :
  Counter_get (Counter_add x c) k
  = if decide (k = x) then S (Counter_get c k) else Counter_get c k.
Proof.
  unfold Counter_get. induction c as [|[y n] c IH]; simpl.
  - destruct (String.eqb_spec k x); case_decide; done.
  - destruct (String.eqb_spec x y) as [->|Hxy]; simpl.
    + destruct (String.eqb_spec k y); case_decide; done.
    + destruct (String.eqb_spec k y) as [->|Hky]; [|done].
      case_decide; [congruence|done].
Qed.

Lemma Counter_add_keys c x :
  (Counter_add x c).*1 = if decide (x ∈ c.*1) then c.*1 else c.*1 ++ [x].
Proof.
  induction c as [|[y n] c IH]; cbn [Counter_add].
  - destruct (decide (x ∈ [].*1)) as [H|H]; [by apply elem_of_nil in H|done].
  - destruct (String.eqb_spec x y) as [->|Hxy]; rewrite !fmap_cons; cbn [fst].
    + destruct (decide (y ∈ y :: c.*1)) as [H|H]; [done|]. destruct H. left.
    + rewrite IH.
      destruct (decide (x ∈ c.*1)) as [H|H],
               (decide (x ∈ y :: c.*1)) as [H'|H']; try done.
      * destruct H'. by right.
      * apply elem_of_cons in H' as [?|?]; done.
Qed.

Lemma Counter_add_NoDup c x : NoDup c.*1 -> NoDup (Counter_add x c).*1.
Proof.
  intros Hn. rewrite Counter_add_keys. case_decide; [done|].
  apply NoDup_app. split_and!; [done| |apply NoDup_singleton].
  intros y Hy ->%list_elem_of_singleton. done.
Qed.

Lemma Counter_add_not_nil c x : Counter_add x c <> [].
Proof. destruct c as [|[y n] c]; simpl; [done|]. by destruct (String.eqb x y). Qed.

Lemma occurrences_snoc l x k :
  occurrences k (l ++ [x])
  = if decide (k = x) then S (occurrences k l) else occurrences k l.
Proof.
  unfold occurrences. rewrite count_occ_app. simpl.
  destruct (string_dec x k); case_decide; try congruence; lia.
Qed.

(** The invariant of the loop of [Counter]: distinct keys, and for every
    name the number of its occurrences so far. *)
Lemma Counter_fold c l0 l :
  NoDup c.*1 ->
  (forall k, Counter_get c k = occurrences k l0) ->
  let c' := fold_left (fun c x => Counter_add x c) l c in
  NoDup c'.*1 /\ (forall k, Counter_get c' k = occurrences k (l0 ++ l)).
Proof.
  revert c l0. induction l as [|x l IH]; intros c l0 Hn Hc; simpl.
  - by rewrite app_nil_r.
  - destruct (IH (Counter_add x c) (l0 ++ [x])) as [Hn' Hc'].
    + by apply Counter_add_NoDup.
    + intros k. rewrite Counter_get_add, occurrences_snoc, Hc. done.
    + split; [done|]. intros k. rewrite Hc'. by rewrite <-(assoc_L (++)).
Qed.

Lemma Counter_spec names :
  NoDup (Counter names).*1
  /\ forall k, Counter_get (Counter names) k = occurrences k names.
Proof.
  unfold Counter. apply (Counter_fold [] [] names); [constructor|done].
Qed.

Lemma fold_Counter_add_not_nil l c :
  c <> [] -> fold_left (fun c x => Counter_add x c) l c <> [].
Proof.
  revert c. induction l as [|x l IH]; intros c Hc; simpl; [done|].
  apply IH, Counter_add_not_nil.
Qed.

Lemma Counter_not_nil names : names <> [] -> Counter names <> [].
Proof.
  destruct names as [|x l]; [done|]. intros _. unfold Counter. simpl.
  by apply fold_Counter_add_not_nil.
Qed.

Lemma Counter_get_elem c k n :
  NoDup c.*1 -> (k, n) ∈ c -> Counter_get c k = n.
Proof.
  unfold Counter_get. induction c as [|[y m] c IH]; csimpl.
  - by intros _ ?%elem_of_nil.
  - rewrite NoDup_cons. intros [Hy Hn] [E|Hin]%elem_of_cons.
    + injection E as -> ->. by rewrite String.eqb_refl.
    + destruct (String.eqb_spec k y) as [->|_]; [|by apply IH].
      destruct Hy. apply list_elem_of_fmap. by exists (y, n).
Qed.

Lemma Counter_get_pos c k :
  (0 < Counter_get c k)%nat -> (k, Counter_get c k) ∈ c.
Proof.
  unfold Counter_get. destruct (find _ c) as [[y n]|] eqn:E; [|simpl; lia].
  intros _. apply find_some in E as [Hin ->%String.eqb_eq].
  simpl. by apply list_elem_of_In.
Qed.

Lemma max_by_count_elem best c :
  max_by_count best c = best \/ max_by_count best c ∈ c.
Proof.
  revert best. induction c as [|p c IH]; intros best; simpl; [by left|].
  destruct (snd best <? snd p)%nat.
  - destruct (IH p) as [->|?]; [right; left|right; by right].
  - destruct (IH best) as [->|?]; [by left|right; by right].
Qed.

Lemma max_by_count_ge best c q :
  q = best \/ q ∈ c -> (snd q <= snd (max_by_count best c))%nat.
Proof.
  revert best q. induction c as [|p c IH]; intros best q; simpl.
  - intros [->|?%elem_of_nil]; [lia|done].
  - intros Hq. destruct (Nat.ltb_spec (snd best) (snd p)).
    + destruct Hq as [->|[->|Hq]%elem_of_cons].
      * trans (snd p); [lia|]. apply IH. by left.
      * apply IH. by left.
      * apply IH. by right.
    + destruct Hq as [->|[->|Hq]%elem_of_cons].
      * apply IH. by left.
      * trans (snd best); [lia|]. apply IH. by left.
      * apply IH. by right.
Qed.

(** [Counter(names).most_common(1)] of a header that is not empty: a name
    with the number of its occurrences, which no other name exceeds. *)
Lemma most_common_1_spec names :
  names <> [] ->
  exists header freq,
    most_common_1 (Counter names) = [(header, freq)]
    /\ freq = occurrences header names
    /\ forall k, (occurrences k names <= freq)%nat.
Proof.
  intros Hne. destruct (Counter_spec names) as [Hn Hget].
  destruct (Counter names) as [|p c] eqn:E; [by apply Counter_not_nil in E|].
  destruct (max_by_count p c) as [header freq] eqn:Em.
  exists header, freq. split; [simpl; by rewrite Em|].
  assert ((header, freq) ∈ p :: c) as Hin.
  { rewrite <-Em. destruct (max_by_count_elem p c) as [->|?]; [left|by right]. }
  split.
  - rewrite <-Hget. symmetry. by apply Counter_get_elem.
  - intros k. rewrite <-Hget.
    destruct (Counter_get (p :: c) k) eqn:Ek; [lia|]. rewrite <-Ek.
    assert ((k, Counter_get (p :: c) k) ∈ p :: c) as Hk
      by (apply Counter_get_pos; lia).
    change freq with (snd (header, freq)). rewrite <-Em.
    change (Counter_get (p :: c) k) with (snd (k, Counter_get (p :: c) k)).
    apply max_by_count_ge. apply elem_of_cons in Hk as [->|?]; auto.
Qed.

Lemma repeated_name names :
  ~ NoDup names -> exists k, (2 <= occurrences k names)%nat.
Proof.
  induction names as [|x l IH]; intros Hn; [destruct Hn; constructor|].
  destruct (decide (x ∈ l)) as [Hx|Hx].
  - exists x. unfold occurrences. simpl. destruct (string_dec x x); [|done].
    apply list_elem_of_In, (count_occ_In string_dec) in Hx. lia.
  - destruct IH as [k Hk]; [by intros ?; apply Hn; constructor|].
    exists k. unfold occurrences in *. simpl. destruct (string_dec x k); lia.
Qed.

Lemma NoDup_occurrences names k : NoDup names -> (occurrences k names <= 1)%nat.
Proof.
  intros Hn. apply NoDup_ListNoDup in Hn.
  by apply (proj1 (NoDup_count_occ string_dec names)).
Qed.

End counter.

Section csv.
Context `{Library}.

Lemma read_csv_missing_header content text :
  bytes_decode content = Ok text ->
  fieldnames (csv_reader text) = Ok None ->
  read_csv content = Raise (ValueError "Missing CSV column header").
Proof. intros Hd Hf. unfold read_csv. rewrite Hd. simpl. by rewrite Hf. Qed.

Lemma read_csv_empty_header content text :
  bytes_decode content = Ok text ->
  fieldnames (csv_reader text) = Ok (Some []) ->
  read_csv content
  = Raise (ValueError "not enough values to unpack (expected at least 1, got 0)").
Proof. intros Hd Hf. unfold read_csv. rewrite Hd. simpl. by rewrite Hf. Qed.

Lemma read_csv_duplicated_header content text names :
  bytes_decode content = Ok text ->
  fieldnames (csv_reader text) = Ok (Some names) ->
  ~ NoDup names ->
  exists header,
    (2 <= occurrences header names)%nat
    /\ read_csv content
       = Raise (ValueError ("Duplicated column header in CSV file: " ++ header)).
Proof.
  intros Hd Hf Hn. unfold read_csv. rewrite Hd. simpl. rewrite Hf. simpl.
  assert (names <> []) as Hne by (intros ->; apply Hn; constructor).
  destruct (most_common_1_spec names Hne) as (header & freq & -> & Hfreq & Hmax).
  destruct (repeated_name names Hn) as [k Hk]. specialize (Hmax k).
  exists header. split; [lia|].
  destruct (Nat.ltb_spec 1 freq); [done|lia].
Qed.

Lemma read_csv_ok content text names :
  bytes_decode content = Ok text ->
  fieldnames (csv_reader text) = Ok (Some names) ->
  names <> [] -> NoDup names ->
  read_csv content
  = Ok (DictReader_records names (tail (csv_reader text)), list_to_set names).
Proof.
  intros Hd Hf Hne Hn. unfold read_csv. rewrite Hd. simpl. rewrite Hf. simpl.
  destruct (most_common_1_spec names Hne) as (header & freq & -> & Hfreq & _).
  pose proof (NoDup_occurrences names header Hn).
  destruct (Nat.ltb_spec 1 freq); [lia|done].
Qed.

(** An exception of the reader on the header row leaves [read_csv] as it
    is. *)
Lemma read_csv_unreadable_header content text e :
  bytes_decode content = Ok text ->
  fieldnames (csv_reader text) = Raise e ->
  read_csv content = Raise e.
Proof. intros Hd Hf. unfold read_csv. rewrite Hd. simpl. by rewrite Hf. Qed.

End csv.

(** ** The upload handler *)
Section upload_handler.
Context `{Library}.
Implicit Types (st : AppState) (form : FormData) (parsed : ParsedForm).

Lemma creates_fresh_guard st parsed :
  creates_fresh st parsed ->
  match action parsed with ACTION_CREATE => true | _ => false end
  && _check_table_exists (db st) (name parsed) = false.
Proof.
  unfold creates_fresh. destruct (action parsed); [|done].
  intros ->; done.
Qed.

(** A [ValueError] of the decoding block is answered with 422 and leaves no
    trace. *)
Lemma upload_rejected_by_decoder st form parsed e :
  read_only st = false ->
  _parse_form_data form = Ok parsed ->
  creates_fresh st parsed ->
  decode_upload parsed = Raise (ValueError e) ->
  post_datasets_upload st form = unprocessable st e.
Proof.
  intros Hro Hp Hc Hd. unfold post_datasets_upload.
  by rewrite Hro, Hp, (creates_fresh_guard _ _ Hc), Hd.
Qed.

Lemma process_file_csv (f : UploadFile) content_encoding :
  FileContentType_call recursion_limit (content_type f) = Ok CSV ->
  FileContentEncoding_call recursion_limit (content_encoding_header f)
  = Ok content_encoding ->
  process_file f = _process_csv (file_content f) content_encoding.
Proof.
  intros Ht He. unfold process_file. rewrite Ht.
  unfold mbind at 1, result_bind at 1. cbn [Py.bind]. by rewrite He.
Qed.

Lemma decode_upload_csv_error parsed content_encoding content' e :
  FileContentType_call recursion_limit (content_type (file parsed)) = Ok CSV ->
  FileContentEncoding_call recursion_limit (content_encoding_header (file parsed))
  = Ok content_encoding ->
  decompress (file_content (file parsed)) content_encoding = Ok content' ->
  read_csv content' = Raise e ->
  decode_upload parsed = Raise e.
Proof.
  intros Ht He Hd Hr. unfold decode_upload.
  rewrite (process_file_csv _ _ Ht He).
  unfold _process_csv. rewrite Hd. unfold mbind, result_bind. cbn [Py.bind].
  by rewrite Hr.
Qed.

Lemma unprocessable_rejected st e :
  rejected_as_malformed st (unprocessable st e) e.
Proof. done. Qed.

(** The handler itself never writes to the database, and it changes the
    queue only by an operation it appends. *)
Lemma upload_keeps_database st form :
  db (app (post_datasets_upload st form)) = db st.
Proof.
  unfold post_datasets_upload. destruct (read_only st); [done|].
  destruct (_parse_form_data form) as [parsed|[]]; try done.
  destruct (_ && _); [done|].
  destruct (decode_upload parsed) as [ex|[]]; try done.
  unfold enqueue_operation. by destruct (_ <=? _)%nat.
Qed.

(** With room in the queue the operation is admitted at the back. *)
Lemma upload_admitted st form parsed get_examples :
  read_only st = false ->
  _parse_form_data form = Ok parsed ->
  creates_fresh st parsed ->
  decode_upload parsed = Ok get_examples ->
  (length (queue st) < capacity st)%nat ->
  post_datasets_upload st form
  = {| response := Ok (plain 200 NoBody);
       app := {| read_only := false; db := db st;
                 queue := (queue st ++ [operation_of parsed get_examples])%list;
                 capacity := capacity st |};
       examples := Some Pending |}.
Proof.
  intros Hro Hp Hc Hd Hq. unfold post_datasets_upload.
  rewrite Hro, Hp, (creates_fresh_guard _ _ Hc), Hd. unfold enqueue_operation.
  destruct (Nat.leb_spec (capacity st) (length (queue st))); [lia|].
  by rewrite Hro.
Qed.

Lemma upload_at_capacity st form parsed get_examples :
  read_only st = false ->
  _parse_form_data form = Ok parsed ->
  creates_fresh st parsed ->
  decode_upload parsed = Ok get_examples ->
  (capacity st <= length (queue st))%nat ->
  post_datasets_upload st form
  = {| response := Ok (plain HTTP_429_TOO_MANY_REQUESTS NoBody);
       app := st; examples := Some Closed |}.
Proof.
  intros Hro Hp Hc Hd Hq. unfold post_datasets_upload.
  rewrite Hro, Hp, (creates_fresh_guard _ _ Hc), Hd. unfold enqueue_operation.
  destruct (Nat.leb_spec (capacity st) (length (queue st))); [done|lia].
Qed.

End upload_handler.

(** ** Column roles *)
Section roles.
Implicit Types (a b c column_headers : gset string).

Lemma check_overlap_ok what a b : a ∩ b = ∅ -> check_overlap what a b = Ok tt.
Proof. intros E. unfold check_overlap. by rewrite decide_True. Qed.

Lemma check_overlap_raises what a b :
  a ∩ b <> ∅ ->
  check_overlap what a b
  = Raise (ValueError (what ++ " have overlap: " ++ repr_frozenset (a ∩ b))).
Proof. intros E. unfold check_overlap. by rewrite decide_False. Qed.

Lemma check_keys_ok desc keys column_headers :
  keys ⊆ column_headers -> check_keys desc keys column_headers = Ok tt.
Proof.
  intros Hs. unfold check_keys. rewrite decide_True; [done|].
  apply elem_of_equiv_empty_L. intros x [Hx Hn]%elem_of_difference. auto.
Qed.

Lemma check_keys_raises desc keys column_headers :
  ~ keys ⊆ column_headers ->
  check_keys desc keys column_headers
  = Raise (ValueError (desc ++ " keys not found in column headers: "
                       ++ repr_frozenset (keys ∖ column_headers))).
Proof.
  intros Hs. unfold check_keys. rewrite decide_False; [done|].
  intros E. apply Hs. intros x Hx.
  destruct (decide (x ∈ column_headers)) as [|Hn]; [done|].
  assert (x ∈ keys ∖ column_headers) as Hd by by apply elem_of_difference.
  rewrite E in Hd. by apply not_elem_of_empty in Hd.
Qed.

Lemma _check_keys_exist_ok column_headers a b c :
  all_present column_headers a b c ->
  _check_keys_exist column_headers a b c = Ok tt.
Proof.
  intros (Ha & Hb & Hc). unfold _check_keys_exist.
  by rewrite !check_keys_ok.
Qed.

Lemma _check_keys_exist_raises column_headers a b c :
  ~ all_present column_headers a b c ->
  exists msg, _check_keys_exist column_headers a b c = Raise (ValueError msg).
Proof.
  intros Hn. unfold _check_keys_exist.
  destruct (decide (a ⊆ column_headers)) as [Ha|Ha];
    [rewrite (check_keys_ok "input") by done
    |rewrite (check_keys_raises "input") by done; by eexists].
  destruct (decide (b ⊆ column_headers)) as [Hb|Hb];
    [rewrite (check_keys_ok "output") by done
    |rewrite (check_keys_raises "output") by done; by eexists].
  destruct (decide (c ⊆ column_headers)) as [Hc|Hc];
    [by destruct Hn|rewrite (check_keys_raises "metadata") by done; by eexists].
Qed.

(** [_parse_form_data] on a form with a name, a known action and a file:
    the three overlap checks decide. *)
Lemma _parse_form_data_roles form form_name action f :
  or_else (datasets.form_name form) None = Some form_name ->
  DatasetAction_call (default "create" (or_else (form_action form) None))
  = Ok action ->
  form_file form = Some (FormFile f) ->
  _parse_form_data form
  = (_ ← check_overlap "input_keys, output_keys"
           (requested_input form) (requested_output form);
     _ ← check_overlap "input_keys and metadata_keys"
           (requested_input form) (requested_metadata form);
     _ ← check_overlap "output_keys and metadata_keys"
           (requested_output form) (requested_metadata form);
     Ok {| datasets.action := action; name := form_name;
           description := or_else (form_description form) (filename f);
           input_keys := requested_input form;
           output_keys := requested_output form;
           metadata_keys := requested_metadata form;
           file := f |}).
Proof.
  intros Hn Ha Hf. unfold _parse_form_data. rewrite Hn, Ha, Hf. done.
Qed.

Lemma _parse_form_data_disjoint form form_name action f :
  or_else (datasets.form_name form) None = Some form_name ->
  DatasetAction_call (default "create" (or_else (form_action form) None))
  = Ok action ->
  form_file form = Some (FormFile f) ->
  pairwise_disjoint (requested_input form) (requested_output form)
    (requested_metadata form) ->
  _parse_form_data form
  = Ok {| datasets.action := action; name := form_name;
          description := or_else (form_description form) (filename f);
          input_keys := requested_input form;
          output_keys := requested_output form;
          metadata_keys := requested_metadata form;
          file := f |}.
Proof.
  intros Hn Ha Hf (H1 & H2 & H3).
  rewrite (_parse_form_data_roles _ _ _ _ Hn Ha Hf).
  by rewrite !check_overlap_ok.
Qed.

Lemma _parse_form_data_overlap form form_name action f :
  or_else (datasets.form_name form) None = Some form_name ->
  DatasetAction_call (default "create" (or_else (form_action form) None))
  = Ok action ->
  form_file form = Some (FormFile f) ->
  ~ pairwise_disjoint (requested_input form) (requested_output form)
      (requested_metadata form) ->
  exists msg, _parse_form_data form = Raise (ValueError msg).
Proof.
  intros Hn Ha Hf Hnd. rewrite (_parse_form_data_roles _ _ _ _ Hn Ha Hf).
  destruct (decide (requested_input form ∩ requested_output form = ∅)) as [H1|H1];
    [rewrite (check_overlap_ok "input_keys, output_keys") by done
    |rewrite (check_overlap_raises "input_keys, output_keys") by done; by eexists].
  destruct (decide (requested_input form ∩ requested_metadata form = ∅)) as [H2|H2];
    [rewrite (check_overlap_ok "input_keys and metadata_keys") by done
    |rewrite (check_overlap_raises "input_keys and metadata_keys") by done;
     by eexists].
  destruct (decide (requested_output form ∩ requested_metadata form = ∅)) as [H3|H3];
    [by destruct Hnd
    |rewrite (check_overlap_raises "output_keys and metadata_keys") by done;
     by eexists].
Qed.

End roles.

(** The validation of the header of a CSV upload whose first row the reader
    can read: without a header row (no row at all, or an empty first row) and
    with a header that names a column more than once the upload is rejected
    as malformed, in the second case with an explanation that names a column
    that occurs at least twice; the rejection is the response 422 of the
    validation, with the application state, and so the revision log and the
    queue, as they were. *)
Lemma csv_header_is_validated `{Library}
    (st : AppState) (form : FormData) (parsed : ParsedForm)
    (content_encoding : FileContentEncoding) (content' : bytes) (text : string) :
  read_only st = false ->
  _parse_form_data form = Ok parsed ->
  creates_fresh st parsed ->
  FileContentType_call recursion_limit (content_type (file parsed)) = Ok CSV ->
  FileContentEncoding_call recursion_limit (content_encoding_header (file parsed))
  = Ok content_encoding ->
  decompress (file_content (file parsed)) content_encoding = Ok content' ->
  bytes_decode content' = Ok text ->
  (fieldnames (csv_reader text) = Ok None ->
   rejected_as_malformed st (post_datasets_upload st form)
     "Missing CSV column header")
  /\ (fieldnames (csv_reader text) = Ok (Some []) ->
      rejected_as_malformed st (post_datasets_upload st form)
        "not enough values to unpack (expected at least 1, got 0)")
  /\ (forall names,
        fieldnames (csv_reader text) = Ok (Some names) ->
        ~ NoDup names ->
        exists header,
          (2 <= occurrences header names)%nat
          /\ rejected_as_malformed st (post_datasets_upload st form)
               ("Duplicated column header in CSV file: " ++ header)).
Proof.
  intros Hro Hp Hc Ht He Hd Hb. split_and!.
  - intros Hf.
    rewrite (upload_rejected_by_decoder st form parsed "Missing CSV column header");
      [done..|].
    eapply decode_upload_csv_error; [done..|]. by eapply read_csv_missing_header.
  - intros Hf.
    rewrite (upload_rejected_by_decoder st form parsed
               "not enough values to unpack (expected at least 1, got 0)");
      [done..|].
    eapply decode_upload_csv_error; [done..|]. by eapply read_csv_empty_header.
  - intros names Hf Hn.
    destruct (read_csv_duplicated_header content' text names Hb Hf Hn)
      as (header & Hocc & Hr).
    exists header. split; [done|].
    rewrite (upload_rejected_by_decoder st form parsed
               ("Duplicated column header in CSV file: " ++ header));
      [done..|].
    by eapply decode_upload_csv_error.
Qed.

Lemma csv_header_is_validated_witness :
  fieldnames (sample_csv_reader duplicate_header_text)
  = Ok (Some ["query"; "query"; "answer"])
  /\ exists header,
       (2 <= occurrences header ["query"; "query"; "answer"])%nat
       /\ rejected_as_malformed (idle_app 1)
            (@post_datasets_upload sample_library (idle_app 1) duplicate_header_upload)
            ("Duplicated column header in CSV file: " ++ header).
Proof.
  split; [vm_compute; reflexivity|].
  refine (proj2 (proj2
    (@csv_header_is_validated sample_library (idle_app 1) duplicate_header_upload
       duplicate_header_parsed NONE (list_byte_of_string duplicate_header_text)
       duplicate_header_text _ _ _ _ _ _ _)) ["query"; "query"; "answer"] _ _).
  - reflexivity.
  - vm_compute; reflexivity.
  - intros _. vm_compute; reflexivity.
  - vm_compute; reflexivity.
  - vm_compute; reflexivity.
  - reflexivity.
  - vm_compute; reflexivity.
  - vm_compute; reflexivity.
  - intros Hn. apply NoDup_cons in Hn as [Hx _]. apply Hx. left.
Defined.

(** An exception of the reader on the header row that is no [ValueError]
    passes the [except ValueError] of the handler. *)
Lemma unreadable_header_escapes `{Library}
    (st : AppState) (form : FormData) (parsed : ParsedForm)
    (content_encoding : FileContentEncoding) (content' : bytes) (text : string)
    (e : exn) :
  read_only st = false ->
  _parse_form_data form = Ok parsed ->
  creates_fresh st parsed ->
  FileContentType_call recursion_limit (content_type (file parsed)) = Ok CSV ->
  FileContentEncoding_call recursion_limit (content_encoding_header (file parsed))
  = Ok content_encoding ->
  decompress (file_content (file parsed)) content_encoding = Ok content' ->
  bytes_decode content' = Ok text ->
  fieldnames (csv_reader text) = Raise e ->
  (forall msg, e <> ValueError msg) ->
  post_datasets_upload st form = {| response := Raise e; app := st; examples := None |}.
Proof.
  intros Hro Hp Hc Ht He Hd Hb Hf Hv.
  assert (decode_upload parsed = Raise e) as Hr.
  { eapply decode_upload_csv_error; [done..|]. by eapply read_csv_unreadable_header. }
  unfold post_datasets_upload.
  rewrite Hro, Hp, (creates_fresh_guard _ _ Hc), Hr.
  destruct e; try done. by destruct (Hv msg).
Qed.

(** C6, where the code goes wrong: the header of a CSV upload is validated
    only when [csv] can read its first row.  A first row the reader cannot
    split makes [reader.fieldnames] raise [csv.Error], which is no
    [ValueError]: [_process_csv] lets it through and the handler, which
    answers 422 to a [ValueError], does not catch it.  So the upload whose
    header names [query] twice is rejected as malformed when its lines end
    at a line feed, and is not rejected, with the exception leaving the
    handler, when they end at a carriage return; no revision is written in
    either case.  The decoder of pyarrow does turn the error of its library
    into the [ValueError] that is answered 422. *)
Theorem unreadable_header_escapes_validation :
  rejected_as_malformed (idle_app 1)
    (@post_datasets_upload sample_library (idle_app 1) duplicate_header_upload)
    "Duplicated column header in CSV file: query"
  /\ fieldnames (sample_csv_reader carriage_return_text)
     = Raise (OtherError "_csv.Error")
  /\ @post_datasets_upload sample_library (idle_app 1) carriage_return_upload
     = {| response := Raise (OtherError "_csv.Error");
          app := idle_app 1; examples := None |}
  /\ (forall msg,
        ~ rejected_as_malformed (idle_app 1)
            (@post_datasets_upload sample_library (idle_app 1) carriage_return_upload)
            msg)
  /\ rejected_as_malformed (idle_app 1)
       (@post_datasets_upload sample_library (idle_app 1) not_pyarrow_upload)
       "File is not valid pyarrow"
  /\ (forall (L : Library) st form parsed content_encoding content' text e,
        read_only st = false ->
        _parse_form_data form = Ok parsed ->
        creates_fresh st parsed ->
        FileContentType_call recursion_limit (content_type (file parsed)) = Ok CSV ->
        FileContentEncoding_call recursion_limit
          (content_encoding_header (file parsed)) = Ok content_encoding ->
        decompress (file_content (file parsed)) content_encoding = Ok content' ->
        bytes_decode content' = Ok text ->
        fieldnames (csv_reader text) = Raise e ->
        (forall msg, e <> ValueError msg) ->
        response (post_datasets_upload st form) = Raise e
        /\ app (post_datasets_upload st form) = st
        /\ forall msg, ~ rejected_as_malformed st (post_datasets_upload st form) msg).
Proof.
  split_and!.
  - by vm_compute.
  - by vm_compute.
  - by vm_compute.
  - intros msg [Hr _]. vm_compute in Hr. discriminate Hr.
  - by vm_compute.
  - intros L st form parsed content_encoding content' text e
      Hro Hp Hc Ht He Hd Hb Hf Hv.
    rewrite (unreadable_header_escapes st form parsed content_encoding content' text e)
      by done.
    split_and!; [done..|]. by intros msg [Hr _].
Qed.

(** C5: an upload that passes the validation and finds the admission queue at
    capacity is refused at once: the submission raises the capacity condition
    [QueueFull] instead of waiting, the handler closes the coroutine of the
    examples and answers 429, and the application state is what it was, so
    the operation is not queued and whatever the worker applies afterwards,
    every snapshot is the one it would have been without the upload. *)
Theorem full_queue_rejects_upload `{Library}
    (st : AppState) (form : FormData) (parsed : ParsedForm) (get_examples : Examples) :
  read_only st = false ->
  _parse_form_data form = Ok parsed ->
  creates_fresh st parsed ->
  decode_upload parsed = Ok get_examples ->
  (capacity st <= length (queue st))%nat ->
  enqueue_operation st (operation_of parsed get_examples) = Raise QueueFull
  /\ response (post_datasets_upload st form)
     = Ok (plain HTTP_429_TOO_MANY_REQUESTS NoBody)
  /\ examples (post_datasets_upload st form) = Some Closed
  /\ app (post_datasets_upload st form) = st
  /\ forall add_dataset_examples n request,
       _get_dataset_download_csv
         (db (worker_run add_dataset_examples n (app (post_datasets_upload st form))))
         request
       = _get_dataset_download_csv
           (db (worker_run add_dataset_examples n st)) request.
Proof.
  intros Hro Hp Hc Hd Hq.
  rewrite (upload_at_capacity st form parsed get_examples) by done.
  split_and!; try done.
  unfold enqueue_operation.
  destruct (Nat.leb_spec (capacity st) (length (queue st))); [done|lia].
Qed.

Lemma full_queue_rejects_upload_witness :
  (capacity (idle_app 0) <= length (queue (idle_app 0)))%nat
  /\ response (@post_datasets_upload sample_library (idle_app 0) qa_upload)
     = Ok (plain HTTP_429_TOO_MANY_REQUESTS NoBody)
  /\ examples (@post_datasets_upload sample_library (idle_app 0) qa_upload)
     = Some Closed
  /\ app (@post_datasets_upload sample_library (idle_app 0) qa_upload) = idle_app 0.
Proof.
  split; [vm_compute; lia|].
  eassert (@decode_upload sample_library qa_parsed = Ok _) as Hd
    by (vm_compute; reflexivity).
  destruct (@full_queue_rejects_upload sample_library (idle_app 0) qa_upload
              qa_parsed _ eq_refl eq_refl (fun _ => eq_refl) Hd (le_n 0))
    as (_ & Hr & He & Ha & _).
  auto.
Defined.

(** With room in the queue the same upload is admitted: the response is 200
    and the operation waits at the back of the queue. *)
Example qa_upload_is_admitted :
  response (@post_datasets_upload sample_library (idle_app 1) qa_upload)
  = Ok (plain 200 NoBody)
  /\ length (queue (app (@post_datasets_upload sample_library (idle_app 1) qa_upload)))
     = 1%nat
  /\ examples (@post_datasets_upload sample_library (idle_app 1) qa_upload)
     = Some Pending.
Proof. by vm_compute. Qed.

(** C7: the requested input, output and metadata columns of an upload are
    validated in two places.  [_parse_form_data] raises [ValueError] when two
    of the three sets share a column and succeeds with the three sets when
    they are pairwise disjoint; [_check_keys_exist] raises [ValueError] when a
    requested column is not among the discovered column names and succeeds
    when all are.  In the handler a file that decodes to the column names
    [column_headers] is rejected as malformed when a requested column is
    absent, and passes the validation otherwise. *)
Theorem column_roles_are_validated `{Library}
    (st : AppState) (form : FormData) (form_name : string) (action : DatasetAction)
    (f : UploadFile) (get_examples : Examples) (column_headers : gset string) :
  or_else (datasets.form_name form) None = Some form_name ->
  DatasetAction_call (default "create" (or_else (form_action form) None))
  = Ok action ->
  form_file form = Some (FormFile f) ->
  (~ pairwise_disjoint (requested_input form) (requested_output form)
       (requested_metadata form) ->
   exists msg, _parse_form_data form = Raise (ValueError msg))
  /\ (pairwise_disjoint (requested_input form) (requested_output form)
        (requested_metadata form) ->
      exists parsed,
        _parse_form_data form = Ok parsed
        /\ input_keys parsed = requested_input form
        /\ output_keys parsed = requested_output form
        /\ metadata_keys parsed = requested_metadata form)
  /\ (~ all_present column_headers (requested_input form) (requested_output form)
          (requested_metadata form) ->
      exists msg,
        _check_keys_exist column_headers (requested_input form)
          (requested_output form) (requested_metadata form)
        = Raise (ValueError msg))
  /\ (all_present column_headers (requested_input form) (requested_output form)
        (requested_metadata form) ->
      _check_keys_exist column_headers (requested_input form)
        (requested_output form) (requested_metadata form)
      = Ok tt)
  /\ (read_only st = false ->
      ~ pairwise_disjoint (requested_input form) (requested_output form)
          (requested_metadata form) ->
      exists msg, rejected_as_malformed st (post_datasets_upload st form) msg)
  /\ (read_only st = false ->
      (action = ACTION_CREATE -> _check_table_exists (db st) form_name = false) ->
      process_file f = Ok (get_examples, column_headers) ->
      pairwise_disjoint (requested_input form) (requested_output form)
        (requested_metadata form) ->
      (~ all_present column_headers (requested_input form) (requested_output form)
           (requested_metadata form) ->
       exists msg, rejected_as_malformed st (post_datasets_upload st form) msg)
      /\ (all_present column_headers (requested_input form) (requested_output form)
            (requested_metadata form) ->
          exists parsed,
            _parse_form_data form = Ok parsed
            /\ decode_upload parsed = Ok get_examples)).
Proof.
  intros Hn Ha Hf. split_and!.
  - exact (_parse_form_data_overlap _ _ _ _ Hn Ha Hf).
  - intros Hd. eexists.
    split; [exact (_parse_form_data_disjoint _ _ _ _ Hn Ha Hf Hd)|done].
  - apply _check_keys_exist_raises.
  - apply _check_keys_exist_ok.
  - intros Hro Hd.
    destruct (_parse_form_data_overlap _ _ _ _ Hn Ha Hf Hd) as [msg Hp].
    exists msg. unfold post_datasets_upload. by rewrite Hro, Hp.
  - intros Hro Hc Hpf Hd.
    pose proof (_parse_form_data_disjoint _ _ _ _ Hn Ha Hf Hd) as Hp. split.
    + intros Hm.
      destruct (_check_keys_exist_raises _ _ _ _ Hm) as [msg Hk].
      exists msg. erewrite upload_rejected_by_decoder; [done..|].
      unfold decode_upload. cbn [file input_keys output_keys metadata_keys].
      rewrite Hpf. unfold mbind, result_bind. cbn [Py.bind]. by rewrite Hk.
    + intros Hm. eexists. split; [done|].
      unfold decode_upload. cbn [file input_keys output_keys metadata_keys].
      rewrite Hpf. unfold mbind, result_bind. cbn [Py.bind].
      by rewrite (_check_keys_exist_ok _ _ _ _ Hm).
Qed.

Lemma column_roles_are_validated_witness :
  ~ pairwise_disjoint (list_to_set ["q"; "score"]) (list_to_set ["score"])
      (list_to_set ["tag"])
  /\ exists msg,
       _parse_form_data (upload_form qa_file ["q"; "score"] ["score"] ["tag"])
       = Raise (ValueError msg).
Proof.
  assert (~ pairwise_disjoint (list_to_set ["q"; "score"]) (list_to_set ["score"])
            (list_to_set ["tag"])) as Hnd.
  { intros (H1 & _). vm_compute in H1. discriminate H1. }
  split; [exact Hnd|].
  exact (proj1 (@column_roles_are_validated sample_library (idle_app 1)
            (upload_form qa_file ["q"; "score"] ["score"] ["tag"])
            "qa-v1" ACTION_CREATE qa_file [] ∅ eq_refl eq_refl eq_refl) Hnd).
Defined.

(** The two rejections and the success of the role validation on the
    three-row upload. *)
Example roles_of_the_qa_upload :
  response (@post_datasets_upload sample_library (idle_app 1)
              (upload_form qa_file ["q"] ["a"; "tag"] ["tag"]))
  = Ok (plain HTTP_422_UNPROCESSABLE_ENTITY
             (Text "output_keys and metadata_keys have overlap: frozenset({'tag'})"))
  /\ response (@post_datasets_upload sample_library (idle_app 1)
                 (upload_form qa_file ["q"] ["a"] ["score"]))
     = Ok (plain HTTP_422_UNPROCESSABLE_ENTITY
             (Text "metadata keys not found in column headers: frozenset({'score'})"))
  /\ response (@post_datasets_upload sample_library (idle_app 1) qa_upload)
     = Ok (plain 200 NoBody).
Proof. by vm_compute. Qed.

(** ** Declared encoding and type of an upload *)
Section declared.
Context `{Library}.





End declared.


(** ** Upsert of an experiment evaluation *)
Section upsert.
Import experiment_evaluations.
Local Open Scope list_scope.
Implicit Types (table : list ExperimentRunAnnotation) (values : Values)
  (row : ExperimentRunAnnotation).

Lemma conflicts_key values row :
  conflicts values row = true <-> annotation_key row = values_key values.
Proof.
  unfold conflicts, annotation_key, values_key.
  rewrite andb_true_iff, Z.eqb_eq, String.eqb_eq. split.
  - by intros [-> ->].
  - by intros [= -> ->].
Qed.

Lemma annotation_key_row_of pk values :
  annotation_key (row_of pk values) = values_key values.
Proof. done. Qed.

Lemma find_conflicts_None table values :
  find (conflicts values) table = None <-> rows_for table (values_key values) = [].
Proof.
  unfold rows_for. induction table as [|row table IH]; simpl; [done|].
  destruct (conflicts values row) eqn:E.
  - apply conflicts_key in E. rewrite filter_cons_True by done. done.
  - rewrite filter_cons_False; [done|].
    intros Hk%conflicts_key. congruence.
Qed.

Lemma find_conflicts_Some table values existing :
  constraint_holds table ->
  find (conflicts values) table = Some existing ->
  rows_for table (values_key values) = [existing].
Proof.
  unfold constraint_holds, rows_for.
  induction table as [|row table IH]; csimpl; [done|].
  rewrite NoDup_cons. intros [Hrow Hn].
  destruct (conflicts values row) eqn:E.
  - intros [= ->]. apply conflicts_key in E.
    rewrite filter_cons_True by done. f_equal.
    destruct (filter _ table) as [|row' l] eqn:Ef; [done|].
    assert (row' ∈ filter (fun row => annotation_key row = values_key values) table)
      as [Hk Hin]%list_elem_of_filter by (rewrite Ef; left).
    destruct Hrow. rewrite E, <-Hk. by apply list_elem_of_fmap_2.
  - intros Hf. rewrite filter_cons_False; [by apply IH|].
    intros Hk%conflicts_key. congruence.
Qed.

(** The first write for a key inserts the values under a new primary key. *)
Lemma insert_on_conflict_inserts table values (set_ : Values) :
  rows_for table (values_key values) = [] ->
  insert_on_conflict table values set_
  = (table ++ [row_of (next_id table) values], row_of (next_id table) values).
Proof.
  intros Hf%find_conflicts_None. unfold insert_on_conflict. by rewrite Hf.
Qed.

(** On a collision the existing row takes the new values and keeps its
    primary key; the table keeps its length. *)
Lemma insert_on_conflict_updates table values (set_ : Values) existing :
  find (conflicts values) table = Some existing ->
  insert_on_conflict table values set_
  = ((fun row => if conflicts values row then row_of (id row) set_ else row)
       <$> table,
     row_of (id existing) set_).
Proof. intros Hf. unfold insert_on_conflict. by rewrite Hf. Qed.

Lemma rows_for_update table values (set_ : Values) :
  values_key set_ = values_key values ->
  rows_for ((fun row => if conflicts values row then row_of (id row) set_ else row)
              <$> table) (values_key values)
  = (fun row => row_of (id row) set_) <$> rows_for table (values_key values).
Proof.
  intros Hk. unfold rows_for. induction table as [|row table IH]; [done|].
  csimpl. destruct (conflicts values row) eqn:E.
  - apply conflicts_key in E.
    rewrite !filter_cons_True by (by rewrite ?annotation_key_row_of). csimpl.
    by rewrite IH.
  - rewrite !filter_cons_False; [done|intros Hc%conflicts_key; congruence..].
Qed.

Lemma keys_update table values (set_ : Values) :
  values_key set_ = values_key values ->
  annotation_key
    <$> ((fun row => if conflicts values row then row_of (id row) set_ else row)
           <$> table)
  = annotation_key <$> table.
Proof.
  intros Hk. rewrite <-list_fmap_compose. apply Forall_fmap_ext_1, Forall_forall.
  intros row _. simpl. destruct (conflicts values row) eqn:E; [|done].
  apply conflicts_key in E. by rewrite annotation_key_row_of, Hk.
Qed.

(** The statement keeps the uniqueness constraint and leaves exactly one
    row for the key, the row it returns. *)
Lemma insert_on_conflict_one_row table values (set_ : Values) :
  constraint_holds table ->
  values_key set_ = values_key values ->
  let '(table', row) := insert_on_conflict table values set_ in
  constraint_holds table'
  /\ rows_for table' (values_key values) = [row]
  /\ (row = row_of (id row) values \/ row = row_of (id row) set_).
Proof.
  intros Hc Hk. destruct (find (conflicts values) table) as [existing|] eqn:Ef.
  - rewrite (insert_on_conflict_updates _ _ _ _ Ef). split_and!.
    + unfold constraint_holds. by rewrite keys_update.
    + rewrite rows_for_update by done.
      by rewrite (find_conflicts_Some _ _ _ Hc Ef).
    + by right.
  - pose proof Ef as Hr%find_conflicts_None.
    rewrite (insert_on_conflict_inserts _ _ _ Hr). split_and!.
    + unfold constraint_holds. rewrite fmap_app. apply NoDup_app.
      split_and!; [done| |apply NoDup_singleton].
      intros k Hin ->%list_elem_of_singleton.
      apply list_elem_of_fmap in Hin as (row & Hrow & Hin).
      assert (row ∈ rows_for table (values_key values)) as Hin'
        by (apply list_elem_of_filter; by rewrite <-Hrow).
      rewrite Hr in Hin'. by apply elem_of_nil in Hin'.
    + unfold rows_for in *. rewrite filter_app, Hr. by rewrite filter_cons_True.
    + by left.
Qed.

Section handler.
Variable fromisoformat : string -> result string.

(** The handler on a payload with a run id and two ISO dates. *)
Lemma upsert_experiment_evaluation_ok (db : Database) (p : Payload)
    (start finish : string) :
  datasets.type_name (payload_experiment_run_id p) = "ExperimentRun" ->
  fromisoformat (payload_start_time p) = Ok start ->
  fromisoformat (payload_end_time p) = Ok finish ->
  upsert_experiment_evaluation fromisoformat db p
  = Ok (JSONResponse
          (evaluation_of (payload_experiment_run_id p)
             (snd (insert_on_conflict (tbl_experiment_run_annotations db)
                     (values_of p start finish) (values_of p start finish)))),
        with_annotations db
          (fst (insert_on_conflict (tbl_experiment_run_annotations db)
                  (values_of p start finish) (values_of p start finish)))).
Proof.
  intros Hg Hs Hf. unfold upsert_experiment_evaluation.
  unfold from_global_id_with_expected_type. rewrite Hg, String.eqb_refl.
  rewrite Hs, Hf. unfold mbind at 1 2, result_bind at 1 2. cbn [Py.bind].
  fold (values_of p start finish).
  by destruct (insert_on_conflict _ _ _).
Qed.
End handler.

End upsert.

(** C4: the upsert keyed by [(experiment_run_id, name)].  The first write for
    a key inserts the values as a new row; a write that collides with a stored
    row updates that row with the new values, keeps its primary key and
    returns it.  Two evaluations sent for one key, one after the other, leave
    exactly one row for the key: the row of the first write, holding the score
    of the second. *)
Theorem upsert_is_last_writer_wins
    (fromisoformat : string -> result string) (db : Database)
    (p1 p2 : experiment_evaluations.Payload) (s1 f1 s2 f2 : string) :
  constraint_holds (tbl_experiment_run_annotations db) ->
  type_name (experiment_evaluations.payload_experiment_run_id p1) = "ExperimentRun" ->
  experiment_evaluations.payload_experiment_run_id p2
  = experiment_evaluations.payload_experiment_run_id p1 ->
  experiment_evaluations.payload_name p2 = experiment_evaluations.payload_name p1 ->
  fromisoformat (experiment_evaluations.payload_start_time p1) = Ok s1 ->
  fromisoformat (experiment_evaluations.payload_end_time p1) = Ok f1 ->
  fromisoformat (experiment_evaluations.payload_start_time p2) = Ok s2 ->
  fromisoformat (experiment_evaluations.payload_end_time p2) = Ok f2 ->
  exists e1 db1 e2 db2 row1 row2,
    experiment_evaluations.upsert_experiment_evaluation fromisoformat db p1
    = Ok (experiment_evaluations.JSONResponse e1, db1)
    /\ experiment_evaluations.upsert_experiment_evaluation fromisoformat db1 p2
       = Ok (experiment_evaluations.JSONResponse e2, db2)
    /\ rows_for (tbl_experiment_run_annotations db1) (payload_key p1) = [row1]
    /\ (rows_for (tbl_experiment_run_annotations db) (payload_key p1) = [] ->
        tbl_experiment_run_annotations db1
        = (tbl_experiment_run_annotations db ++ [row1])%list
        /\ row1 = experiment_evaluations.row_of
                    (experiment_evaluations.next_id (tbl_experiment_run_annotations db))
                    (values_of p1 s1 f1))
    /\ rows_for (tbl_experiment_run_annotations db2) (payload_key p1) = [row2]
    /\ row2 = experiment_evaluations.row_of (id row1) (values_of p2 s2 f2)
    /\ score row2 = payload_score p2
    /\ length (tbl_experiment_run_annotations db2)
       = length (tbl_experiment_run_annotations db1)
    /\ e1 = evaluation_of (experiment_evaluations.payload_experiment_run_id p1) row1
    /\ e2 = evaluation_of (experiment_evaluations.payload_experiment_run_id p1) row2.
Proof.
  intros Hc Hg Hgid Hname Hs1 Hf1 Hs2 Hf2.
  assert (type_name (experiment_evaluations.payload_experiment_run_id p2)
          = "ExperimentRun") as Hg2 by by rewrite Hgid.
  set (v1 := values_of p1 s1 f1). set (v2 := values_of p2 s2 f2).
  assert (values_key v1 = payload_key p1) as Hk1 by done.
  assert (values_key v2 = payload_key p1) as Hk2.
  { unfold values_key, payload_key. simpl. by rewrite Hgid, Hname. }
  pose proof (insert_on_conflict_one_row
                (tbl_experiment_run_annotations db) v1 v1 Hc eq_refl) as H1.
  pose proof (insert_on_conflict_inserts (tbl_experiment_run_annotations db) v1 v1)
    as Hins.
  destruct (experiment_evaluations.insert_on_conflict
              (tbl_experiment_run_annotations db) v1 v1) as [t1 row1] eqn:E1.
  destruct H1 as (Hc1 & Hr1 & _). rewrite Hk1 in Hr1.
  destruct (find (experiment_evaluations.conflicts v2) t1) as [existing|] eqn:Ef;
    [|apply find_conflicts_None in Ef; rewrite Hk2 in Ef; congruence].
  pose proof (find_conflicts_Some _ _ _ Hc1 Ef) as Hex. rewrite Hk2, Hr1 in Hex.
  injection Hex as <-.
  pose proof (insert_on_conflict_updates t1 v2 v2 row1 Ef) as E2.
  pose proof (insert_on_conflict_one_row t1 v2 v2 Hc1 eq_refl) as H2.
  rewrite E2 in H2. destruct H2 as (_ & Hr2 & _). rewrite Hk2 in Hr2.
  eexists _, _, _, _, row1, (experiment_evaluations.row_of (id row1) v2).
  split; [|split].
  - rewrite (upsert_experiment_evaluation_ok fromisoformat db p1 s1 f1) by done.
    fold v1. rewrite E1. reflexivity.
  - cbn [snd fst].
    rewrite (upsert_experiment_evaluation_ok fromisoformat _ p2 s2 f2) by done.
    fold v2. cbn [with_annotations tbl_experiment_run_annotations].
    rewrite E2. reflexivity.
  - cbn [with_annotations tbl_experiment_run_annotations fst snd].
    split_and!; try done.
    + intros Hnone. rewrite Hk1 in Hins. specialize (Hins Hnone).
      by injection Hins as -> ->.
    + by rewrite length_fmap.
    + by rewrite Hgid.
Qed.

Lemma upsert_is_last_writer_wins_witness :
  constraint_holds (tbl_experiment_run_annotations (sample_db []))
  /\ exists e1 db1 e2 db2 row2,
       experiment_evaluations.upsert_experiment_evaluation Ok (sample_db [])
         (evaluation 1)
       = Ok (experiment_evaluations.JSONResponse e1, db1)
       /\ experiment_evaluations.upsert_experiment_evaluation Ok db1 (evaluation 9)
          = Ok (experiment_evaluations.JSONResponse e2, db2)
       /\ rows_for (tbl_experiment_run_annotations db2) (7%Z, "correctness") = [row2]
       /\ score row2 = Some 9%Z.
Proof.
  assert (constraint_holds (tbl_experiment_run_annotations (sample_db []))) as Hc
    by apply NoDup_nil_2.
  split; [exact Hc|].
  destruct (upsert_is_last_writer_wins Ok (sample_db []) (evaluation 1) (evaluation 9)
              _ _ _ _ Hc eq_refl eq_refl eq_refl eq_refl eq_refl eq_refl eq_refl)
    as (e1 & db1 & e2 & db2 & row1 & row2 & H1 & H2 & _ & _ & Hr & _ & Hs & _).
  exists e1, db1, e2, db2, row2. auto.
Defined.

(** The two writes at work: the table of the database holds one row, with the
    primary key 1 and the score 9. *)
Example two_evaluations_of_one_run :
  (fun r => (id r, experiment_run_id r, models.name r, score r))
    <$> tbl_experiment_run_annotations
          (with_annotations (sample_db [])
             (fst (experiment_evaluations.insert_on_conflict
                     (fst (experiment_evaluations.insert_on_conflict []
                             (values_of (evaluation 1) "s" "f")
                             (values_of (evaluation 1) "s" "f")))
                     (values_of (evaluation 9) "s" "f")
                     (values_of (evaluation 9) "s" "f"))))
  = [(1%Z, 7%Z, "correctness", Some 9%Z)].
Proof. by vm_compute. Qed.

(** ** Values that are not recognized *)
Section unrecognized.

Lemma lower_char_is_lower c :
  is_lower_char (lower_char c) = is_lower_char c || is_upper_char c.
Proof. destruct c as [[|] [|] [|] [|] [|] [|] [|] [|]]; reflexivity. Qed.

Lemma has_lower_lower s : has_lower (lower s) = has_lower s || has_upper s.
Proof.
  induction s as [|c s IH]; simpl; [done|].
  rewrite lower_char_is_lower, IH.
  destruct (is_lower_char c), (is_upper_char c), (has_lower s), (has_upper s); done.
Qed.

Lemma FileContentEncoding_case_insensitive depth s m :
  (2 <= depth)%nat ->
  FileContentEncoding_call depth (Some s) = Ok m
  <-> FileContentEncoding_lookup (Some (lower s)) = Some m.
Proof.
  intros Hd. destruct depth as [|[|d]]; [lia|lia|]. clear Hd.
  change (FileContentEncoding_call (S (S d)) (Some s)) with
    (match FileContentEncoding_lookup (Some s) with
     | Some m => Ok m
     | None => FileContentEncoding_missing_ (FileContentEncoding_call (S d)) (Some s)
     end).
  destruct (FileContentEncoding_lookup (Some s)) as [m'|] eqn:E.
  - rewrite (FileContentEncoding_lookup_lower _ _ E), E. split; congruence.
  - unfold FileContentEncoding_missing_.
    destruct (FileContentEncoding_lookup (Some (lower s))) as [m'|] eqn:El.
    + destruct (FileContentEncoding_lookup_ascii _ _ El) as (Ht & Ha & _).
      rewrite truthy_lower in Ht. rewrite isascii_lower in Ha.
      assert (has_upper s = true) as Hu.
      { destruct (has_upper s) eqn:Hu; [done|].
        rewrite (lower_fixed _ Hu) in El. congruence. }
      unfold islower. rewrite Ht, Ha, Hu, andb_false_r.
      cbn [negb andb FileContentEncoding_call]. rewrite El. split; congruence.
    + destruct (truthy s && isascii s && negb (islower s)) eqn:G; [|done].
      split; [|done]. intros Hok.
      by apply FileContentEncoding_call_lower_not_member in Hok;
        [|done|apply lower_idem].
Qed.

(** A value with a letter that is no member in any casing, an empty value
    and a value that is not ASCII are refused with a [ValueError] that names
    the value, in lower case when the value is ASCII. *)
Lemma FileContentType_rejects depth s :
  FileContentType_lookup (Some (lower s)) = None ->
  caseless s = false ->
  FileContentType_call (S (S depth)) (Some s)
  = Raise (ValueError ("Invalid file content type: "
                       ++ if isascii s then lower s else s)).
Proof.
  intros Hl Hc.
  assert (FileContentType_lookup (Some s) = None) as Hs.
  { destruct (FileContentType_lookup (Some s)) eqn:E; [|done].
    rewrite (FileContentType_lookup_lower _ _ E) in Hl. congruence. }
  cbn [FileContentType_call]. rewrite Hs. unfold FileContentType_missing_.
  destruct s as [|c s']; [done|]. set (s := String c s') in *.
  cbn [truthy andb]. destruct (isascii s) eqn:Ha; [|done].
  cbn [andb]. unfold islower.
  destruct (has_upper s) eqn:Hu.
  - rewrite andb_false_r. cbn [negb]. rewrite Hl.
    unfold islower. rewrite truthy_lower, isascii_lower, Ha, has_lower_lower, Hu.
    by rewrite has_upper_lower, orb_true_r.
  - rewrite andb_true_r. rewrite (lower_fixed _ Hu).
    destruct (has_lower s) eqn:Hlo; [done|].
    revert Hc. unfold caseless. by rewrite Ha, Hlo, Hu.
Qed.

End unrecognized.

(** C8, where the code goes wrong: a declared content type or content
    encoding that is ASCII and has no letter, such as [*/*] or [*], is no
    member in any casing, and the constructor does not refuse it with the
    [ValueError] of an invalid value: [_missing_] takes it for a value that is
    not in lower case and calls the constructor with its lower case, the same
    value, until the stack is exhausted.  The handler lets the
    [RecursionError] through instead of answering 422. *)
Theorem value_without_letters_exhausts_stack :
  caseless "*/*" = true
  /\ (forall depth, FileContentType_call depth (Some "*/*") = Raise RecursionError)
  /\ (forall depth, FileContentEncoding_call depth (Some "*") = Raise RecursionError)
  /\ (forall depth s,
        caseless s = true ->
        value_error (FileContentType_call depth (Some s)) = None
        /\ value_error (FileContentEncoding_call depth (Some s)) = None)
  /\ response (@post_datasets_upload sample_library (idle_app 1)
                 (upload_form (csv_file qa_text (Some "*/*") None)
                    ["q"] ["a"] ["tag"]))
     = Raise RecursionError.
Proof.
  split_and!.
  - reflexivity.
  - intros depth. by apply caseless_value_recurses.
  - intros depth. by apply caseless_value_recurses.
  - intros depth s Hc.
    destruct (caseless_value_recurses s depth Hc) as [-> ->]. done.
  - by vm_compute.
Qed.

(** The part of C8 the code keeps: values that differ in case only are read
    alike, and a value with a letter that is no member is refused with an
    explanation that names it. *)
Example content_type_in_any_case :
  FileContentType_call recursion_limit (Some "TEXT/CSV") = Ok CSV
  /\ FileContentType_call recursion_limit (Some "text/csv") = Ok CSV
  /\ FileContentEncoding_call recursion_limit (Some "GZip") = Ok GZIP
  /\ FileContentType_call recursion_limit (Some "Text/Plain")
     = Raise (ValueError "Invalid file content type: text/plain")
  /\ FileContentEncoding_call recursion_limit (Some "br")
     = Raise (ValueError "Invalid file content encoding: br").
Proof. by vm_compute. Qed.

(** * Further properties *)

Import further.

(** ** Snapshots and the export *)
(** ** Snapshots over a growing log *)
Section growing_log.
Local Open Scope list_scope.
Local Open Scope Z_scope.
Implicit Types (db : Database) (r : DatasetExampleRevision) (lv : LatestVersion).

Lemma bind_nil_all {A B} (f : A -> list B) (l : list A) :
  (forall x, x ∈ l -> f x = []) -> l ≫= f = [].
Proof.
  induction l as [|x l IH]; intros Hf; [done|]. rewrite bind_cons.
  rewrite Hf by left. apply IH. intros y Hy. apply Hf. by right.
Qed.

Lemma latest_version_from_appended db did V new :
  (forall r, r ∈ new -> V < dataset_version_id r) ->
  latest_version_from (appended db new) did (Some V)
  = latest_version_from db did (Some V).
Proof.
  intros Hnew. unfold latest_version_from, appended, with_revisions.
  cbn [tbl_dataset_example_revisions tbl_dataset_examples].
  rewrite bind_app, (bind_nil_all _ new), app_nil_r; [done|].
  intros r Hr. apply bind_nil_all. intros e _.
  unfold under_ceiling. apply Hnew in Hr.
  destruct (Z.leb_spec (dataset_version_id r) V); [lia|].
  by rewrite andb_false_r.
Qed.

Lemma latest_version_under_ceiling db did V lv :
  lv ∈ latest_version db did (Some V) -> lv_dataset_version_id lv <= V.
Proof.
  intros (Hk & _ & ->)%elem_of_latest_version.
  destruct (group_max_spec _ _ Hk) as [(r & Hr & _ & <-) _].
  apply elem_of_latest_version_from in Hr as (_ & _ & Hc). by apply Z.leb_le.
Qed.

Lemma stmt_rows_appended db did V new :
  (forall r, r ∈ new -> V < dataset_version_id r) ->
  stmt_rows (appended db new) did (Some V) = stmt_rows db did (Some V).
Proof.
  intros Hnew. unfold stmt_rows, latest_version.
  rewrite latest_version_from_appended by done.
  fold (latest_version db did (Some V)).
  unfold appended, with_revisions at 1. cbn [tbl_dataset_example_revisions].
  rewrite bind_app, (bind_nil_all _ new), app_nil_r; [done|].
  intros r Hr. apply bind_nil_all. intros lv Hlv.
  apply latest_version_under_ceiling in Hlv. apply Hnew in Hr.
  destruct (Z.eqb_spec (dataset_version_id r) (lv_dataset_version_id lv)); [lia|].
  by rewrite andb_false_r.
Qed.

End growing_log.

(** X5: the log only grows, and a snapshot does not see what is appended
    above its ceiling.  When revisions of version ids above [V] are appended
    to the log, the rows of the snapshot query at the ceiling [V] and the
    answer of the export for a version of id [V] are what they were. *)
Theorem snapshot_ignores_later_revisions (db : Database) (dataset_id V : Z)
    (new : list DatasetExampleRevision) :
  (forall r, r ∈ new -> (V < dataset_version_id r)%Z) ->
  stmt_rows (appended db new) dataset_id (Some V) = stmt_rows db dataset_id (Some V)
  /\ (forall g v,
        node_id v = V ->
        _get_dataset_download_csv (appended db new) (download_of g (Some v))
        = _get_dataset_download_csv db (download_of g (Some v))).
Proof.
  intros Hnew. split; [by apply stmt_rows_appended|].
  intros g v <-. unfold _get_dataset_download_csv, download_of.
  cbn [datasetId datasetVersionId fmap option_fmap option_map].
  unfold stmt. by rewrite stmt_rows_appended.
Qed.

Lemma snapshot_ignores_later_revisions_witness :
  (forall r, r ∈ [tombstone 2 2; revision 4 4 CREATE "q4" "a4"] ->
             (1 < dataset_version_id r)%Z)
  /\ stmt_rows db_tombstoned 1 (Some 1%Z)
     = stmt_rows
         (sample_db [ revision 1 1 CREATE "q1" "a1"; revision 2 1 CREATE "q2" "a2";
                      revision 3 1 CREATE "q3" "a3" ]) 1 (Some 1%Z).
Proof.
  assert (forall r, r ∈ [tombstone 2 2; revision 4 4 CREATE "q4" "a4"] ->
                    (1 < dataset_version_id r)%Z) as Hnew.
  { intros r Hr. rewrite !elem_of_cons in Hr.
    destruct Hr as [->|[->|Hr]]; [simpl; lia..|by apply elem_of_nil in Hr]. }
  split; [exact Hnew|].
  exact (proj1 (snapshot_ignores_later_revisions
                  (sample_db [ revision 1 1 CREATE "q1" "a1";
                               revision 2 1 CREATE "q2" "a2";
                               revision 3 1 CREATE "q3" "a3" ])
                  1 1 [tombstone 2 2; revision 4 4 CREATE "q4" "a4"] Hnew)).
Defined.

Section monotone.
Local Open Scope Z_scope.
Implicit Types (db : Database) (r : DatasetExampleRevision).

Lemma latest_version_from_raise db did V1 V2 r :
  V1 <= V2 ->
  r ∈ latest_version_from db did (Some V1) ->
  r ∈ latest_version_from db did (Some V2).
Proof.
  rewrite !elem_of_latest_version_from. intros HV (? & ? & Hc).
  split_and!; [done..|]. apply Z.leb_le in Hc. apply Z.leb_le. lia.
Qed.

Lemma latest_version_from_lower db did V1 V2 r :
  r ∈ latest_version_from db did (Some V2) ->
  dataset_version_id r <= V1 ->
  r ∈ latest_version_from db did (Some V1).
Proof.
  rewrite !elem_of_latest_version_from. intros (? & ? & Hc) Hv.
  split_and!; [done..|]. by apply Z.leb_le.
Qed.

(** Every example with a revision at or below the ceiling has a greatest
    one. *)
Lemma greatest_exists db did c k :
  k ∈ examples_at db did c ->
  exists r, greatest db did c r /\ dataset_example_id r = k.
Proof.
  intros Hk. destruct (group_max_spec _ _ Hk) as [(r & Hr & He & Hv) Hub].
  exists r. split; [|done]. split; [done|].
  intros r' Hr' He'. rewrite Hv. apply Hub; congruence.
Qed.

Lemma snapshot_grows db did V1 V2 k :
  revision_keys_unique db ->
  V1 <= V2 ->
  (forall r, r ∈ tbl_dataset_example_revisions db ->
             V1 < dataset_version_id r <= V2 -> revision_kind r <> DELETE) ->
  k ∈ snapshot_example_ids db did (Some V1) ->
  k ∈ snapshot_example_ids db did (Some V2).
Proof.
  intros Hu HV Hnd. unfold snapshot_example_ids.
  intros (r1 & -> & Hr1)%list_elem_of_fmap.
  apply elem_of_snapshot_revisions in Hr1 as [[Hr1 Hub1] Hk1].
  pose proof (latest_version_from_raise _ _ _ _ _ HV Hr1) as Hr1'.
  destruct (greatest_exists db did (Some V2) (dataset_example_id r1))
    as (r2 & [Hr2 Hub2] & He2); [apply elem_of_group_keys; eauto|].
  apply list_elem_of_fmap. exists r2. split; [done|].
  apply elem_of_snapshot_revisions. split; [by split|].
  destruct (Z.le_gt_cases (dataset_version_id r2) V1) as [Hle|Hgt].
  - assert (r2 = r1) as ->; [|done].
    apply (NoDup_fmap_elem_inj revision_key (tbl_dataset_example_revisions db));
      eauto using latest_version_from_revision.
    unfold revision_key. f_equal; [done|].
    apply Z.le_antisymm.
    + apply Hub1; [|done]. by eapply latest_version_from_lower.
    + by apply Hub2.
  - apply Hnd; [by eapply latest_version_from_revision|].
    apply elem_of_latest_version_from in Hr2 as (_ & _ & Hc).
    apply Z.leb_le in Hc. lia.
Qed.

End monotone.

(** X6: without deletions a snapshot only grows.  With at most one revision
    for an example and a version, and no DELETE revision of a version in
    [(V1, V2]], every example exported at the ceiling [V1] is exported at the
    ceiling [V2]. *)
Theorem snapshot_grows_without_deletes (db : Database) (dataset_id V1 V2 : Z) :
  revision_keys_unique db ->
  (V1 <= V2)%Z ->
  (forall r, r ∈ tbl_dataset_example_revisions db ->
             (V1 < dataset_version_id r <= V2)%Z -> revision_kind r <> DELETE) ->
  snapshot_example_ids db dataset_id (Some V1)
  ⊆ snapshot_example_ids db dataset_id (Some V2).
Proof. intros Hu HV Hnd k. by apply snapshot_grows. Qed.

(** X7: a revision of a snapshot is a row of the log, the revision of an
    example of the requested dataset, of a version at or below the ceiling
    when there is one, and no DELETE. *)
Theorem snapshot_is_of_the_dataset (db : Database) (dataset_id : Z)
    (ceiling : option Z) (r : DatasetExampleRevision) :
  r ∈ snapshot_revisions db dataset_id ceiling ->
  r ∈ tbl_dataset_example_revisions db
  /\ (exists e, e ∈ tbl_dataset_examples db
                /\ example_pk e = dataset_example_id r
                /\ example_dataset_id e = dataset_id)
  /\ (forall V, ceiling = Some V -> (dataset_version_id r <= V)%Z)
  /\ revision_kind r <> DELETE.
Proof.
  intros [[Hr _] Hk]%elem_of_snapshot_revisions.
  apply elem_of_latest_version_from in Hr as (Hin & He & Hc).
  split_and!; [done..| |done]. intros V ->. by apply Z.leb_le.
Qed.

Lemma snapshot_grows_without_deletes_witness :
  revision_keys_unique db_tombstoned
  /\ snapshot_example_ids db_tombstoned 1 (Some 2%Z)
     ⊆ snapshot_example_ids db_tombstoned 1 (Some 4%Z).
Proof.
  assert (revision_keys_unique db_tombstoned) as Hu.
  { unfold revision_keys_unique. apply (bool_decide_unpack _). vm_compute. exact I. }
  split; [exact Hu|].
  apply (snapshot_grows_without_deletes db_tombstoned 1 2 4 Hu); [lia|].
  intros r Hr Hv. simpl in Hr. rewrite !elem_of_cons in Hr.
  destruct Hr as [->|[->|[->|[->|[->|Hr]]]]];
    [simpl in *; try lia; discriminate..|by apply elem_of_nil in Hr].
Defined.

Lemma snapshot_is_of_the_dataset_witness :
  revision 3 1 CREATE "q3" "a3" ∈ snapshot_revisions db_tombstoned 1 (Some 2%Z)
  /\ (exists e, e ∈ tbl_dataset_examples db_tombstoned
                /\ example_pk e = 3%Z /\ example_dataset_id e = 1%Z).
Proof.
  assert (revision 3 1 CREATE "q3" "a3" ∈ snapshot_revisions db_tombstoned 1 (Some 2%Z))
    as Hr by (vm_compute; right; left).
  split; [exact Hr|].
  exact (proj1 (proj2 (snapshot_is_of_the_dataset db_tombstoned 1 (Some 2%Z) _ Hr))).
Defined.

Section export_answers.
Implicit Types (db : Database).

Lemma status_of_the_decoded db request :
  status_code (_get_dataset_download_csv db request) = 422%Z
  \/ status_code (_get_dataset_download_csv db request) = 404%Z
  \/ status_code (_get_dataset_download_csv db request) = 200%Z.
Proof.
  unfold _get_dataset_download_csv.
  destruct (datasetId request) as [g|]; [|by left].
  destruct (negb _); [by left|].
  destruct (wrong_version_type _); [by left|].
  destruct (or_else _ _); [|by right; left].
  destruct (example_record <$> _); [by right; left|by right; right].
Qed.

Lemma status_of_the_well_typed db g (v : option GlobalID) :
  type_name g = "Dataset" ->
  wrong_version_type v = None ->
  status_code (_get_dataset_download_csv db (download_of g v)) <> 422%Z.
Proof.
  intros Hg Hv. rewrite download_well_typed by done.
  destruct (or_else _ _); [|done]. by destruct (example_record <$> _).
Qed.

End export_answers.

Ltac download_cases from_id int :=
  unfold get_dataset_download_csv;
  repeat match goal with
  | |- context [or_else ?x None] => destruct (or_else x None) eqn:?
  | |- context [from_id ?x] => destruct (from_id x) as [[? ?]|?] eqn:?
  | |- context [int ?x] => destruct (int x) as [?|?] eqn:?
  | |- context [String.eqb ?x ?y] => destruct (String.eqb_spec x y)
  | _ => progress (unfold mbind, result_bind; cbn [Py.bind negb fst snd])
  end.

(** X8: the answers of the export, from the path parameters.  A response
    has the status 422, 404 or 200, and 422 exactly when the dataset id is
    absent or empty, or decodes to another type than Dataset, or the version
    id decodes to another type than DatasetVersion; a wrong type is answered
    before a node id is read as an integer.  An id that [GlobalID.from_id]
    refuses and a node id that [int] refuses are not answered: the exception
    leaves the handler, and these are its only exceptions.  With both ids
    decoded the answer is the one of the handler on the decoded ids.
    Exceptions and the answers 422 do not depend on the database. *)
Theorem export_status
    (from_id : string -> result (string * string)) (int : string -> result Z)
    (db : Database) (path_params : PathParams) :
  (forall response,
     get_dataset_download_csv from_id int db path_params = Ok response ->
     (status_code response = 422%Z
      \/ status_code response = 404%Z
      \/ status_code response = 200%Z)
     /\ (status_code response = 422%Z
         <-> or_else (path_datasetId path_params) None = None
             \/ (exists encoded type_name node_id,
                   or_else (path_datasetId path_params) None = Some encoded
                   /\ from_id encoded = Ok (type_name, node_id)
                   /\ type_name <> "Dataset")
             \/ (exists encoded type_name node_id,
                   or_else (path_datasetVersionId path_params) None = Some encoded
                   /\ from_id encoded = Ok (type_name, node_id)
                   /\ type_name <> "DatasetVersion")))
  /\ (forall e,
        get_dataset_download_csv from_id int db path_params = Raise e
        <-> exists encoded,
              or_else (path_datasetId path_params) None = Some encoded
              /\ (from_id encoded = Raise e
                  \/ exists node_id,
                       from_id encoded = Ok ("Dataset", node_id)
                       /\ ((exists encoded_version,
                              or_else (path_datasetVersionId path_params) None
                              = Some encoded_version
                              /\ from_id encoded_version = Raise e)
                           \/ ((or_else (path_datasetVersionId path_params) None = None
                                \/ exists encoded_version version_node_id,
                                     or_else (path_datasetVersionId path_params) None
                                     = Some encoded_version
                                     /\ from_id encoded_version
                                        = Ok ("DatasetVersion", version_node_id))
                               /\ int node_id = Raise e)
                           \/ (exists dataset_id encoded_version version_node_id,
                                 int node_id = Ok dataset_id
                                 /\ or_else (path_datasetVersionId path_params) None
                                    = Some encoded_version
                                 /\ from_id encoded_version
                                    = Ok ("DatasetVersion", version_node_id)
                                 /\ int version_node_id = Raise e))))
  /\ (forall encoded node_id dataset_id,
        or_else (path_datasetId path_params) None = Some encoded ->
        from_id encoded = Ok ("Dataset", node_id) ->
        int node_id = Ok dataset_id ->
        (or_else (path_datasetVersionId path_params) None = None ->
         get_dataset_download_csv from_id int db path_params
         = Ok (_get_dataset_download_csv db
                 (download_of
                    {| encoded := encoded; type_name := "Dataset";
                       node_id := dataset_id |} None)))
        /\ (forall encoded_version version_node_id max_dataset_version_id,
              or_else (path_datasetVersionId path_params) None = Some encoded_version ->
              from_id encoded_version = Ok ("DatasetVersion", version_node_id) ->
              int version_node_id = Ok max_dataset_version_id ->
              get_dataset_download_csv from_id int db path_params
              = Ok (_get_dataset_download_csv db
                      (download_of
                         {| encoded := encoded; type_name := "Dataset";
                            node_id := dataset_id |}
                         (Some {| encoded := encoded_version;
                                  type_name := "DatasetVersion";
                                  node_id := max_dataset_version_id |})))))
  /\ (forall db',
        (forall e,
           get_dataset_download_csv from_id int db path_params = Raise e ->
           get_dataset_download_csv from_id int db' path_params = Raise e)
        /\ (forall response,
              get_dataset_download_csv from_id int db path_params = Ok response ->
              status_code response = 422%Z ->
              get_dataset_download_csv from_id int db' path_params = Ok response)).
Proof.
  split_and!.
  - intros response. download_cases from_id int; intros E; simplify_eq.
    all: try (split; [by left|]; split; [intros _; by eauto 10|done]).
    all: split; [apply status_of_the_decoded|].
    all: split;
      [intros E;
       by apply (status_of_the_well_typed db
                   {| encoded := _; type_name := "Dataset"; node_id := _ |} _) in E
      |intros [?|[(? & ? & ? & ? & ? & ?)|(? & ? & ? & ? & ? & ?)]]; simplify_eq; congruence].
  - intros e. download_cases from_id int; subst.
    all: split; [intros E; simplify_eq; by eauto 20|].
    all: intros (? & ?
                 & [?|(? & ?
                       & [(? & ? & ?)
                         |[[[?|(? & ? & ? & ?)] ?]
                          |(? & ? & ? & ? & ? & ? & ?)]])]).
    all: simplify_eq; congruence.
  - intros encoded node_id dataset_id Hd Hf Hi. unfold get_dataset_download_csv.
    rewrite Hd, Hf. unfold mbind at 1, result_bind at 1; cbn [Py.bind negb fst snd].
    rewrite String.eqb_refl. cbn [negb]. split.
    + intros ->. unfold mbind, result_bind; cbn [Py.bind]. by rewrite Hi.
    + intros encoded_version version_node_id max_dataset_version_id -> Hfv Hiv.
      rewrite Hfv. unfold mbind, result_bind; cbn [Py.bind negb fst snd].
      by rewrite String.eqb_refl, Hi, Hiv.
  - intros db'. split.
    + intros e. download_cases from_id int; done.
    + intros response. download_cases from_id int; intros E; simplify_eq; try done.
      all: intros E.
      all: by apply (status_of_the_well_typed db
                       {| encoded := _; type_name := "Dataset"; node_id := _ |} _) in E.
Qed.

(** The answers for the samples: an id that is no encoded id and a node id
    that is no integer leave the handler as exceptions, where a wrong type
    is answered 422. *)
Example export_answers_of_the_samples :
  get_dataset_download_csv sample_from_id sample_int db_tombstoned
    (path_of "garbage" None)
  = Raise (ValueError "Invalid GlobalID: garbage")
  /\ get_dataset_download_csv sample_from_id sample_int db_tombstoned
       (path_of "Dataset:abc" None)
     = Raise (ValueError "invalid literal for int() with base 10: 'abc'")
  /\ get_dataset_download_csv sample_from_id sample_int db_tombstoned
       (path_of "Version:abc" None)
     = Ok (plain 422 (Text "Invalid Dataset ID: Version:abc"))
  /\ get_dataset_download_csv sample_from_id sample_int db_tombstoned
       (path_of "Dataset:1" (Some "Dataset:1"))
     = Ok (plain 422 (Text "Invalid Dataset Version ID: Dataset:1"))
  /\ get_dataset_download_csv sample_from_id sample_int db_tombstoned
       (path_of "Dataset:1" (Some "DatasetVersion:x"))
     = Raise (ValueError "invalid literal for int() with base 10: 'x'")
  /\ get_dataset_download_csv sample_from_id sample_int db_tombstoned
       (path_of "" None)
     = Ok (plain 422 (Text "Missing Dataset ID"))
  /\ get_dataset_download_csv sample_from_id sample_int db_tombstoned
       (path_of "Dataset:1" (Some "DatasetVersion:1"))
     = Ok (_get_dataset_download_csv db_tombstoned (download 1 (Some 1%Z)))
  /\ get_dataset_download_csv sample_from_id sample_int db_tombstoned
       (path_of "Dataset:3" None)
     = Ok (plain 404 (Text "Dataset does not exist.")).
Proof. split_and!; by vm_compute. Qed.

(** ** The declared content type and content encoding *)
(** ** Declared values, continued *)
Section declared_values.

Lemma FileContentEncoding_rejects depth s :
  FileContentEncoding_lookup (Some (lower s)) = None ->
  caseless s = false ->
  FileContentEncoding_call (S (S depth)) (Some s)
  = Raise (ValueError ("Invalid file content encoding: "
                       ++ if isascii s then lower s else s)).
Proof.
  intros Hl Hc.
  assert (FileContentEncoding_lookup (Some s) = None) as Hs.
  { destruct (FileContentEncoding_lookup (Some s)) eqn:E; [|done].
    rewrite (FileContentEncoding_lookup_lower _ _ E) in Hl. congruence. }
  cbn [FileContentEncoding_call]. rewrite Hs. unfold FileContentEncoding_missing_.
  destruct s as [|c s']; [done|]. set (s := String c s') in *.
  cbn [truthy andb]. destruct (isascii s) eqn:Ha; [|done].
  cbn [andb]. unfold islower.
  destruct (has_upper s) eqn:Hu.
  - rewrite andb_false_r. cbn [negb]. rewrite Hl.
    unfold islower. rewrite truthy_lower, isascii_lower, Ha, has_lower_lower, Hu.
    by rewrite has_upper_lower, orb_true_r.
  - rewrite andb_true_r. rewrite (lower_fixed _ Hu).
    destruct (has_lower s) eqn:Hlo; [done|].
    revert Hc. unfold caseless. by rewrite Ha, Hlo, Hu.
Qed.

End declared_values.

(** X9: the declared values are read without regard to case.  With room
    for two calls of the constructor, a content type or content encoding in
    ASCII is accepted as a member exactly when its lower case is, that is
    exactly when its lower case is the value of that member; a value that is
    not ASCII is never accepted. *)
Theorem declared_values_are_case_insensitive (depth : nat) (s : string) :
  (2 <= depth)%nat ->
  (isascii s = true ->
   (forall m, FileContentType_call depth (Some s) = Ok m
              <-> FileContentType_call depth (Some (lower s)) = Ok m)
   /\ (forall m, FileContentType_call depth (Some s) = Ok m
                 <-> lower s = FileContentType_value m)
   /\ (forall m, FileContentEncoding_call depth (Some s) = Ok m
                 <-> FileContentEncoding_call depth (Some (lower s)) = Ok m)
   /\ (forall m, FileContentEncoding_call depth (Some s) = Ok m
                 <-> lower s = FileContentEncoding_value m))
  /\ (isascii s = false ->
      (forall m, FileContentType_call depth (Some s) <> Ok m)
      /\ (forall m, FileContentEncoding_call depth (Some s) <> Ok m)).
Proof.
  intros Hd. split.
  - intros _. split_and!; intros m.
    + by rewrite !FileContentType_case_insensitive, lower_idem.
    + by rewrite FileContentType_case_insensitive, FileContentType_lookup_value.
    + by rewrite !FileContentEncoding_case_insensitive, lower_idem.
    + by rewrite FileContentEncoding_case_insensitive, FileContentEncoding_lookup_value.
  - intros Ha. split; intros m.
    + rewrite FileContentType_case_insensitive by done.
      intros (_ & Hl & _)%FileContentType_lookup_ascii.
      rewrite isascii_lower in Hl. congruence.
    + rewrite FileContentEncoding_case_insensitive by done.
      intros (_ & Hl & _)%FileContentEncoding_lookup_ascii.
      rewrite isascii_lower in Hl. congruence.
Qed.

Lemma declared_values_are_case_insensitive_witness :
  (2 <= recursion_limit)%nat
  /\ isascii "GZip" = true
  /\ (FileContentEncoding_call recursion_limit (Some "GZip") = Ok GZIP
      <-> lower "GZip" = FileContentEncoding_value GZIP).
Proof.
  assert (2 <= recursion_limit)%nat as Hd by (vm_compute; lia).
  split; [exact Hd|]. split; [reflexivity|].
  exact (proj2 (proj2 (proj2
           (proj1 (declared_values_are_case_insensitive recursion_limit "GZip" Hd)
              eq_refl))) GZIP).
Defined.

(** X10: the refusal names the value.  A value with a letter in it whose
    lower case is no member is refused with the [ValueError] of an invalid
    content type or content encoding, which names the value the constructor
    saw last: its lower case when it is ASCII, the value itself otherwise.  An
    absent content type is refused as [None]. *)
Theorem unrecognized_value_is_named (depth : nat) (s : string) :
  caseless s = false ->
  (FileContentType_lookup (Some (lower s)) = None ->
   FileContentType_call (S (S depth)) (Some s)
   = Raise (ValueError ("Invalid file content type: "
                        ++ if isascii s then lower s else s)))
  /\ (FileContentEncoding_lookup (Some (lower s)) = None ->
      FileContentEncoding_call (S (S depth)) (Some s)
      = Raise (ValueError ("Invalid file content encoding: "
                           ++ if isascii s then lower s else s)))
  /\ FileContentType_call (S depth) None
     = Raise (ValueError "Invalid file content type: None").
Proof.
  intros Hc. split_and!.
  - intros Hl. by apply FileContentType_rejects.
  - intros Hl. by apply FileContentEncoding_rejects.
  - done.
Qed.

Lemma unrecognized_value_is_named_witness :
  caseless "Text/Plain" = false
  /\ FileContentType_call recursion_limit (Some "Text/Plain")
     = Raise (ValueError "Invalid file content type: text/plain").
Proof.
  split; [reflexivity|].
  exact (proj1 (unrecognized_value_is_named 998 "Text/Plain" eq_refl) eq_refl).
Defined.

(** ** The decoding of an upload *)
(** X11: the headers that [read_csv] accepts.  For a content that decodes
    to a text, the reader succeeds exactly when [csv] reads a first row, the
    header, that is not empty and names no column twice; what it returns is
    then the records of the rows after the header and the set of the names of
    the header, as many as the header has fields.  When [csv] cannot read the
    first row, its exception is the outcome. *)
Theorem csv_header_acceptance `{Library} (content : bytes) (text : string) :
  bytes_decode content = Ok text ->
  (forall x,
     read_csv content = Ok x
     <-> exists names,
           fieldnames (csv_reader text) = Ok (Some names)
           /\ names <> [] /\ NoDup names
           /\ x = (DictReader_records names (tail (csv_reader text)),
                   list_to_set names))
  /\ (forall names,
        NoDup names -> size (list_to_set names : gset string) = length names)
  /\ (forall e, fieldnames (csv_reader text) = Raise e -> read_csv content = Raise e).
Proof.
  intros Hd. split_and!.
  - intros x. split.
    + intros Hx. destruct (fieldnames (csv_reader text)) as [[names|]|e] eqn:Hf.
      * exists names. split; [done|].
        assert (names <> []) as Hne.
        { intros ->. by rewrite (read_csv_empty_header content text Hd Hf) in Hx. }
        assert (NoDup names) as Hn.
        { destruct (decide (NoDup names)) as [|Hn]; [done|].
          destruct (read_csv_duplicated_header content text names Hd Hf Hn)
            as (header & _ & Hr).
          by rewrite Hr in Hx. }
        split; [done|]. split; [done|].
        rewrite (read_csv_ok content text names Hd Hf Hne Hn) in Hx. congruence.
      * by rewrite (read_csv_missing_header content text Hd Hf) in Hx.
      * by rewrite (read_csv_unreadable_header content text e Hd Hf) in Hx.
    + intros (names & Hf & Hne & Hn & ->). by apply (read_csv_ok content text).
  - intros names Hn. by apply size_list_to_set.
  - intros e Hf. by apply (read_csv_unreadable_header content text).
Qed.

Lemma csv_header_acceptance_witness :
  fieldnames (sample_csv_reader qa_text) = Ok (Some ["q"; "a"; "tag"])
  /\ size (list_to_set ["q"; "a"; "tag"] : gset string) = 3%nat
  /\ exists records,
       @read_csv sample_library (list_byte_of_string qa_text)
       = Ok (records, list_to_set ["q"; "a"; "tag"]).
Proof.
  split; [vm_compute; reflexivity|].
  destruct (@csv_header_acceptance sample_library (list_byte_of_string qa_text)
              qa_text) as (Hok & Hs & _).
  - vm_compute; reflexivity.
  - split.
    + apply (Hs ["q"; "a"; "tag"]). apply (bool_decide_unpack _). vm_compute. exact I.
    + eexists. apply Hok. exists ["q"; "a"; "tag"]. split_and!; [|done| |done].
      * vm_compute; reflexivity.
      * apply (bool_decide_unpack _). vm_compute. exact I.
Defined.

(** X12: a pyarrow upload is decoded without its content encoding.  For
    the content type of pyarrow the handler passes the content to
    [_process_pyarrow] as it is, whatever the content-encoding header says,
    also one that is no encoding: a stream that does not open is the
    [ValueError] of an invalid pyarrow file, and one that opens gives its
    records and the set of its column names. *)
Theorem pyarrow_upload_ignores_encoding `{Library} (f : UploadFile) :
  FileContentType_call recursion_limit (content_type f) = Ok PYARROW ->
  (forall e, process_file (with_encoding f e) = _process_pyarrow (file_content f))
  /\ (pa_open_stream (file_content f) = Raise ArrowInvalid ->
      forall e, process_file (with_encoding f e)
                = Raise (ValueError "File is not valid pyarrow"))
  /\ (forall names records,
        pa_open_stream (file_content f) = Ok (names, records) ->
        forall e, process_file (with_encoding f e) = Ok (records, list_to_set names)).
Proof.
  intros Ht.
  assert (forall e, process_file (with_encoding f e) = _process_pyarrow (file_content f))
    as Hp.
  { intros e. unfold process_file, with_encoding.
    cbn [content_type content_encoding_header file_content]. by rewrite Ht. }
  split; [exact Hp|]. split.
  - intros Ha e. rewrite Hp. unfold _process_pyarrow. by rewrite Ha.
  - intros names records Ho e. rewrite Hp. unfold _process_pyarrow. by rewrite Ho.
Qed.

Lemma pyarrow_upload_ignores_encoding_witness :
  FileContentType_call recursion_limit (Some "application/x-pandas-pyarrow")
  = Ok PYARROW
  /\ @process_file sample_library
       (with_encoding (csv_file qa_text (Some "application/x-pandas-pyarrow") None)
          (Some "no such encoding"))
     = Raise (ValueError "File is not valid pyarrow").
Proof.
  split; [vm_compute; reflexivity|].
  refine (proj1 (proj2 (@pyarrow_upload_ignores_encoding sample_library
            (csv_file qa_text (Some "application/x-pandas-pyarrow") None) _)) _ _).
  - vm_compute; reflexivity.
  - reflexivity.
Defined.


(** ** Refusals of the upload handler *)
Section refusals.
Context `{Library}.
Implicit Types (st : AppState) (form : FormData) (parsed : ParsedForm).


Lemma upload_response_cases st form :
  let o := post_datasets_upload st form in
  (response o = Ok (plain 200 NoBody)
   /\ examples o = Some Pending
   /\ (length (queue st) < capacity st)%nat
   /\ exists op,
        app o = {| read_only := read_only st; db := db st;
                   queue := (queue st ++ [op])%list; capacity := capacity st |})
  \/ (response o <> Ok (plain 200 NoBody)
      /\ app o = st
      /\ examples o <> Some Pending).
Proof.
  unfold post_datasets_upload. destruct (read_only st) eqn:Hro; [by right|].
  destruct (_parse_form_data form) as [parsed|[]]; try by right.
  destruct (_ && _); [by right|].
  destruct (decode_upload parsed) as [ex|[]]; try by right.
  unfold enqueue_operation.
  destruct (Nat.leb_spec (capacity st) (length (queue st))); [by right|].
  left. split_and!; [done..|lia|]. eexists. by rewrite Hro.
Qed.

End refusals.

(** X15: an upload changes nothing but the queue.  Whatever the request,
    the handler leaves the database as it is.  When it answers 200 there was
    room in the queue, exactly one operation is appended to it and the
    coroutine of the examples is handed over unconsumed; with any other
    outcome the application state is unchanged and no coroutine is left
    pending.  The queue never grows beyond its capacity. *)
Theorem upload_changes_only_the_queue `{Library} (st : AppState) (form : FormData) :
  db (app (post_datasets_upload st form)) = db st
  /\ (response (post_datasets_upload st form) = Ok (plain 200 NoBody) ->
      examples (post_datasets_upload st form) = Some Pending
      /\ (length (queue st) < capacity st)%nat
      /\ exists op, queue (app (post_datasets_upload st form))
                    = (queue st ++ [op])%list)
  /\ (response (post_datasets_upload st form) <> Ok (plain 200 NoBody) ->
      app (post_datasets_upload st form) = st
      /\ examples (post_datasets_upload st form) <> Some Pending)
  /\ ((length (queue st) <= capacity st)%nat ->
      (length (queue (app (post_datasets_upload st form))) <= capacity st)%nat).
Proof.
  destruct (upload_response_cases st form)
    as [(Hr & He & Hq & op & Ha)|(Hr & Ha & He)]; rewrite ?Ha.
  - split_and!; [done| |done|].
    + intros _. split_and!; [done..|]. by exists op.
    + intros _. cbn [queue]. rewrite length_app. simpl. lia.
  - split_and!; [done|done| |done]. by intros _.
Qed.

(** X14: an upload without its file.  When the form has a name and a valid
    action but no field [file], [_parse_form_data] raises [KeyError], which
    the handler does not catch: the request is not answered 422, and the
    application state is unchanged.  A field [file] that is a string and no
    uploaded file is answered 422. *)
Theorem upload_without_file_raises_KeyError `{Library}
    (st : AppState) (form : FormData) (name : string) (action : DatasetAction) :
  read_only st = false ->
  or_else (form_name form) None = Some name ->
  DatasetAction_call (default "create" (or_else (form_action form) None)) = Ok action ->
  (form_file form = None ->
   _parse_form_data form = Raise (KeyError "file")
   /\ response (post_datasets_upload st form) = Raise (KeyError "file")
   /\ app (post_datasets_upload st form) = st)
  /\ (forall s, form_file form = Some (FormStr s) ->
        post_datasets_upload st form = unprocessable st "Malformed file in form data.").
Proof.
  intros Hro Hn Ha. split.
  - intros Hf.
    assert (_parse_form_data form = Raise (KeyError "file")) as Hp
      by (unfold _parse_form_data; by rewrite Hn, Ha, Hf).
    split; [done|]. unfold post_datasets_upload. by rewrite Hro, Hp.
  - intros s Hf.
    assert (_parse_form_data form = Raise (ValueError "Malformed file in form data."))
      as Hp by (unfold _parse_form_data; by rewrite Hn, Ha, Hf).
    unfold post_datasets_upload. by rewrite Hro, Hp.
Qed.

Lemma upload_without_file_raises_KeyError_witness :
  read_only (idle_app 1) = false
  /\ response (@post_datasets_upload sample_library (idle_app 1) (without_file qa_upload))
     = Raise (KeyError "file")
  /\ app (@post_datasets_upload sample_library (idle_app 1) (without_file qa_upload))
     = idle_app 1.
Proof.
  split; [reflexivity|].
  exact (proj2 (proj1 (@upload_without_file_raises_KeyError sample_library
                         (idle_app 1) (without_file qa_upload) "qa-v1" ACTION_CREATE
                         eq_refl eq_refl eq_refl) eq_refl)).
Defined.



(** ** The registry of the OAuth clients *)
Section oauth_clients.
Import oauth.
Local Open Scope list_scope.
Context {OAuthClientConfig OAuthClient : Type}.
Variable idp_id : OAuthClientConfig -> string.
Variable register : OAuthClientConfig -> OAuthClient.

Lemma add_clients_ok (clients : gmap string OAuthClient) configs :
  NoDup (idp_id <$> configs) ->
  (forall config, config ∈ configs -> clients !! idp_id config = None) ->
  exists clients',
    add_clients idp_id register clients configs = Ok clients'
    /\ (forall config, config ∈ configs ->
          clients' !! idp_id config = Some (register config))
    /\ (forall idp, idp ∉ idp_id <$> configs -> clients' !! idp = clients !! idp).
Proof.
  revert clients. induction configs as [|a configs IH]; intros clients; csimpl.
  { intros _ _. exists clients. split; [done|]. split; [|done].
    by intros config ?%elem_of_nil. }
  rewrite NoDup_cons. intros [Ha Hn] Hfresh.
  unfold add_client. rewrite (Hfresh a) by left.
  unfold mbind at 1, result_bind at 1; cbn [Py.bind].
  destruct (IH (<[idp_id a := register a]> clients) Hn) as (clients' & -> & Hin & Hout).
  { intros config Hc. rewrite lookup_insert_ne; [apply Hfresh; by right|].
    intros E. apply Ha. rewrite E. by apply list_elem_of_fmap_2. }
  exists clients'. split; [done|]. split.
  - intros config [->|Hc]%elem_of_cons; [|by apply Hin].
    by rewrite (Hout _ Ha), lookup_insert_eq.
  - intros idp [Hne Hidp]%not_elem_of_cons.
    by rewrite (Hout _ Hidp), lookup_insert_ne.
Qed.

Lemma add_clients_dup (clients : gmap string OAuthClient) l1 config l2 :
  NoDup (idp_id <$> l1) ->
  (forall c, c ∈ l1 -> clients !! idp_id c = None) ->
  is_Some (clients !! idp_id config) \/ idp_id config ∈ idp_id <$> l1 ->
  add_clients idp_id register clients (l1 ++ config :: l2)
  = Raise (ValueError ("oauth client already registered: " ++ idp_id config)%string).
Proof.
  revert clients. induction l1 as [|a l1 IH]; intros clients; csimpl.
  { intros _ _ [[client Hc]|[]%elem_of_nil]. unfold add_client. by rewrite Hc. }
  rewrite NoDup_cons. intros [Ha Hn] Hfresh Hdup.
  unfold add_client. rewrite (Hfresh a) by left.
  unfold mbind at 1, result_bind at 1; cbn [Py.bind].
  apply IH; [done| |].
  - intros c Hc. rewrite lookup_insert_ne; [apply Hfresh; by right|].
    intros E. apply Ha. rewrite E. by apply list_elem_of_fmap_2.
  - rewrite lookup_insert. destruct (decide (idp_id a = idp_id config)) as [E|Hne].
    + left. by eexists.
    + destruct Hdup as [|[E|]%elem_of_cons]; auto. by destruct Hne.
Qed.

Lemma first_repeated_idp configs :
  ~ NoDup (idp_id <$> configs) ->
  exists l1 config l2,
    configs = l1 ++ config :: l2
    /\ NoDup (idp_id <$> l1) /\ idp_id config ∈ idp_id <$> l1.
Proof.
  induction configs as [|a l IH] using rev_ind; [by intros []; constructor|].
  rewrite fmap_app, NoDup_app. csimpl. intros Hdup.
  destruct (decide (NoDup (idp_id <$> l))) as [Hn|Hn].
  - exists l, a, []. split; [done|]. split; [done|].
    destruct (decide (idp_id a ∈ idp_id <$> l)) as [|Hout]; [done|].
    destruct Hdup. split; [done|]. split; [|apply NoDup_singleton].
    intros x Hx ->%list_elem_of_singleton. by apply Hout.
  - destruct (IH Hn) as (l1 & config & l2 & -> & H1 & H2).
    exists l1, config, (l2 ++ [a]). by rewrite <-app_assoc.
Qed.

End oauth_clients.

(** X17: [from_configs] registers each provider once.  When the provider ids
    of the configurations are distinct it succeeds, [get_client] then returns
    for the id of every configuration the client registered for that
    configuration and raises the ValueError of an unknown client for every
    other id.  Otherwise it raises the ValueError that names the first id that
    occurs a second time. *)
Theorem from_configs_registers_each_provider_once
    {OAuthClientConfig OAuthClient : Type}
    (idp_id : OAuthClientConfig -> string)
    (register : OAuthClientConfig -> OAuthClient)
    (configs : list OAuthClientConfig) :
  (NoDup (idp_id <$> configs) ->
     exists clients,
       oauth.from_configs idp_id register configs = Ok clients
       /\ (forall config, config ∈ configs ->
             oauth.get_client clients (idp_id config) = Ok (register config))
       /\ (forall idp, idp ∉ idp_id <$> configs ->
             oauth.get_client clients idp
             = Raise (ValueError ("unknown or unregistered oauth client: " ++ idp))))
  /\ (~ NoDup (idp_id <$> configs) ->
      exists l1 config l2,
        configs = (l1 ++ config :: l2)%list
        /\ NoDup (idp_id <$> l1) /\ idp_id config ∈ idp_id <$> l1
        /\ oauth.from_configs idp_id register configs
           = Raise (ValueError ("oauth client already registered: " ++ idp_id config))).
Proof.
  split.
  - intros Hn.
    destruct (add_clients_ok idp_id register ∅ configs Hn) as (clients & E & Hin & Hout);
      [intros; apply lookup_empty|].
    exists clients. split; [exact E|]. split.
    + intros config Hc. unfold oauth.get_client. by rewrite (Hin _ Hc).
    + intros idp Hidp. unfold oauth.get_client.
      by rewrite (Hout _ Hidp), lookup_empty.
  - intros Hdup.
    destruct (first_repeated_idp idp_id configs Hdup) as (l1 & config & l2 & -> & Hn & Hin).
    exists l1, config, l2. split; [done|]. split; [done|]. split; [done|].
    apply add_clients_dup; [done| |by right]. intros; apply lookup_empty.
Qed.

(** ** The cache of the OAuth clients *)
Section ttl_cache.
Import oauth.
Local Open Scope Z_scope.
Context {CacheValue : Type}.
Implicit Types c : TTLCache CacheValue.

Lemma cleanup_data now current_time c key :
  _data (_remove_expired_keys_if_cleanup_interval_exceeded now current_time c) !! key
  = if _cleanup_interval c <? now - _last_cleanup_time c
    then match _data c !! key with
         | Some (value, expiry) =>
             if expiry <=? current_time then None else Some (value, expiry)
         | None => None
         end
    else _data c !! key.
Proof.
  unfold _remove_expired_keys_if_cleanup_interval_exceeded.
  destruct (_cleanup_interval c <? now - _last_cleanup_time c); [|done].
  cbn [_remove_expired_keys _data]. rewrite map_lookup_filter.
  destruct (_data c !! key) as [[value expiry]|]; [|done]. cbn.
  destruct (Z.leb_spec expiry current_time); case_guard; try done; exfalso; lia.
Qed.

(** What a later [get] sees of a key is the same with and without the
    cleanup, on a clock that does not run backwards. *)
Lemma get_after_cleanup now current_time t key c :
  current_time <= t ->
  (TTLCache_get t key (_remove_expired_keys_if_cleanup_interval_exceeded now current_time c)).1
  = (TTLCache_get t key c).1.
Proof.
  intros Ht. unfold TTLCache_get. rewrite cleanup_data.
  destruct (_cleanup_interval c <? now - _last_cleanup_time c).
  - destruct (_data c !! key) as [[value expiry]|]; [|done].
    destruct (Z.leb_spec expiry current_time).
    + destruct (Z.ltb_spec t expiry); [exfalso; lia|done].
    + by destruct (t <? expiry).
  - destruct (_data c !! key) as [[value expiry]|]; [|done].
    by destruct (t <? expiry).
Qed.

End ttl_cache.

(** X18: [get] reads the last write of its key.  After [set] the value is
    returned exactly until the clock of [get] reaches the expiry, the time at
    which [set] read the clock plus [expires] seconds; from then on [get]
    returns None and drops the key; an entry the key had before is replaced.
    After [delete] the key has no value. *)
Theorem cache_get_reads_the_last_write {CacheValue : Type}
    (c : oauth.TTLCache CacheValue) (now current_time now' t : Z)
    (key : string) (value : CacheValue) (expires : Z) :
  ((t < now' + oauth.seconds expires)%Z ->
     oauth.TTLCache_get t key (oauth.TTLCache_set now current_time now' key value expires c)
     = (Some value, oauth.TTLCache_set now current_time now' key value expires c))
  /\ ((now' + oauth.seconds expires <= t)%Z ->
      (oauth.TTLCache_get t key
         (oauth.TTLCache_set now current_time now' key value expires c)).1 = None
      /\ oauth._data
           (oauth.TTLCache_get t key
              (oauth.TTLCache_set now current_time now' key value expires c)).2 !! key
         = None)
  /\ (oauth.TTLCache_get t key (oauth.TTLCache_delete now current_time key c)).1 = None.
Proof.
  unfold oauth.TTLCache_get, oauth.TTLCache_set, oauth.TTLCache_delete.
  cbn [oauth._data]. rewrite lookup_insert_eq, lookup_delete_eq.
  split; [|split; [|done]].
  - intros Ht. destruct (Z.ltb_spec t (now' + oauth.seconds expires)); [done|exfalso; lia].
  - intros Ht. destruct (Z.ltb_spec t (now' + oauth.seconds expires)); [exfalso; lia|].
    cbn [fst snd oauth._data]. by rewrite lookup_delete_eq.
Qed.

(** X19: writing one key leaves the other keys as they are read.  On a clock
    that does not run backwards, what [get] returns for another key after a
    [set] or a [delete] is what it would have returned without it: the cleanup
    of the expired keys, when the write makes one, removes only entries that
    [get] would not return any more. *)
Theorem cache_write_keeps_other_keys {CacheValue : Type}
    (c : oauth.TTLCache CacheValue) (now current_time now' t : Z)
    (key key' : string) (value : CacheValue) (expires : Z) :
  key' <> key ->
  (current_time <= t)%Z ->
  (oauth.TTLCache_get t key'
     (oauth.TTLCache_set now current_time now' key value expires c)).1
  = (oauth.TTLCache_get t key' c).1
  /\ (oauth.TTLCache_get t key' (oauth.TTLCache_delete now current_time key c)).1
     = (oauth.TTLCache_get t key' c).1.
Proof.
  intros Hk Ht.
  rewrite <-(get_after_cleanup now current_time t key' c Ht).
  unfold oauth.TTLCache_get, oauth.TTLCache_set, oauth.TTLCache_delete.
  cbn [oauth._data]. rewrite lookup_insert_ne, lookup_delete_ne by done.
  split.
  - destruct (oauth._data _ !! key') as [[v e]|]; [|done]. by destruct (t <? e)%Z.
  - destruct (oauth._data _ !! key') as [[v e]|]; [|done]. by destruct (t <? e)%Z.
Qed.

Lemma cache_write_keeps_other_keys_witness :
  (oauth.TTLCache_get 700000001 "state"
     (oauth.TTLCache_set 700000000 700000000 700000000 "nonce" "n" 60
        (oauth.TTLCache_set 0 0 0 "state" "s" 600
           (oauth.TTLCache_init 0 (10 * oauth._MINUTE))))).1
  = (oauth.TTLCache_get 700000001 "state"
       (oauth.TTLCache_set 0 0 0 "state" "s" 600
          (oauth.TTLCache_init 0 (10 * oauth._MINUTE)))).1
  /\ (oauth.TTLCache_get 700000001 "state"
        (oauth.TTLCache_delete 700000000 700000000 "nonce"
           (oauth.TTLCache_set 0 0 0 "state" "s" 600
              (oauth.TTLCache_init 0 (10 * oauth._MINUTE))))).1
     = (oauth.TTLCache_get 700000001 "state"
          (oauth.TTLCache_set 0 0 0 "state" "s" 600
             (oauth.TTLCache_init 0 (10 * oauth._MINUTE)))).1.
Proof.
  apply (cache_write_keeps_other_keys
           (oauth.TTLCache_set 0 0 0 "state" "s" 600
              (oauth.TTLCache_init 0 (10 * oauth._MINUTE)))
           700000000 700000000 700000000 700000001 "nonce" "state" "n" 60).
  - discriminate.
  - lia.
Defined.

(** ** The listing of the datasets *)
Section listing.
Import datasets_listing.
Local Open Scope Z_scope.
Local Open Scope list_scope.

#[local] Instance by_id_desc_trans : Transitive by_id_desc.
Proof. unfold by_id_desc. intros a b c. lia. Qed.

#[local] Instance by_id_desc_total : Total by_id_desc.
Proof. unfold by_id_desc. intros a b. lia. Qed.

Lemma elem_of_select_datasets db c d :
  d ∈ select_datasets db c <-> d ∈ tbl_datasets db /\ at_cursor c d = true.
Proof.
  unfold select_datasets. rewrite merge_sort_Permutation, list_elem_of_filter. tauto.
Qed.

Lemma select_datasets_sorted db c : StronglySorted by_id_desc (select_datasets db c).
Proof. apply (StronglySorted_merge_sort _). Qed.

Lemma NoDup_select_datasets db c :
  NoDup (dataset_pk <$> tbl_datasets db) ->
  NoDup (dataset_pk <$> select_datasets db c).
Proof.
  intros Hn. unfold select_datasets. rewrite merge_sort_Permutation.
  eapply sublist_NoDup; [exact Hn|]. apply fmap_sublist, sublist_filter.
Qed.

(** Sorted rows of distinct ids descend strictly. *)
Lemma sorted_strictly (l : list Dataset) :
  StronglySorted by_id_desc l -> NoDup (dataset_pk <$> l) ->
  StronglySorted (fun a b => dataset_pk b < dataset_pk a) l.
Proof.
  induction 1 as [|a l Hl IH Ha]; csimpl; [constructor|].
  rewrite NoDup_cons. intros [Hna Hn]. constructor; [auto|].
  rewrite Forall_forall in *. intros b Hb.
  assert (dataset_pk b <> dataset_pk a).
  { intros E. apply Hna. rewrite <-E. by apply list_elem_of_fmap_2. }
  specialize (Ha b Hb). unfold by_id_desc in Ha. lia.
Qed.

Lemma last_take_S {A} (l : list A) n :
  (n < length l)%nat -> last (take (S n) l) = l !! n.
Proof.
  intros Hn. rewrite last_lookup, length_take.
  replace (Init.Nat.pred (S n `min` length l)) with n by lia.
  apply lookup_take_lt. lia.
Qed.

Lemma removelast_take_S {A} (l : list A) n :
  (n < length l)%nat -> removelast (take (S n) l) = take n l.
Proof. apply removelast_firstn. Qed.

Lemma page_of_spec to_cursor negative_limit db limit cursor_id :
  0 <= limit ->
  page_of to_cursor negative_limit db limit cursor_id
  = Ok (JSONResponse 200
          {| next_cursor :=
               (fun d => to_cursor (dataset_pk d))
                 <$> select_datasets db cursor_id !! Z.to_nat limit;
             data := take (Z.to_nat limit) (select_datasets db cursor_id) |}).
Proof.
  intros Hl. unfold page_of, sql_limit.
  destruct (Z.ltb_spec (limit + 1) 0) as [|_]; [lia|].
  replace (Z.to_nat (limit + 1)) with (S (Z.to_nat limit)) by lia.
  set (rows := select_datasets db cursor_id).
  unfold mbind at 1, result_bind at 1; cbn [Py.bind].
  destruct (decide (Z.to_nat limit < length rows)%nat) as [Hlt|Hge].
  - assert (length (take (S (Z.to_nat limit)) rows) = S (Z.to_nat limit)) as E
      by (rewrite length_take; lia).
    destruct (take (S (Z.to_nat limit)) rows) as [|d ds] eqn:Et; [done|].
    rewrite E, <-Et.
    destruct (Z.eqb_spec (Z.of_nat (S (Z.to_nat limit))) (limit + 1)) as [_|]; [|lia].
    by rewrite last_take_S, removelast_take_S by done.
  - rewrite (take_ge rows (S (Z.to_nat limit))) by lia.
    rewrite (take_ge rows (Z.to_nat limit)) by lia.
    rewrite (lookup_ge_None_2 rows) by lia.
    destruct rows as [|d ds] eqn:Er; [done|]. rewrite <-Er in *.
    destruct (Z.eqb_spec (Z.of_nat (length rows)) (limit + 1)) as [|_]; [lia|done].
Qed.

(** The rows from a row of a listing on are the listing from the id of
    that row. *)
Lemma select_datasets_next db c k d :
  NoDup (dataset_pk <$> tbl_datasets db) ->
  select_datasets db c !! k = Some d ->
  select_datasets db (Some (dataset_pk d)) = drop k (select_datasets db c).
Proof.
  intros Hn Hk.
  pose proof (select_datasets_sorted db c) as Hs.
  pose proof (NoDup_select_datasets db c Hn) as Hnc.
  pose proof (take_drop_middle _ _ _ Hk) as Em.
  assert (d ∈ select_datasets db c) as Hd by (by eapply list_elem_of_lookup_2).
  assert (at_cursor c d = true) as Hc
    by (by apply elem_of_select_datasets in Hd as [_ ?]).
  assert (drop k (select_datasets db c) = d :: drop (S k) (select_datasets db c)) as Ed
    by (by rewrite <-drop_S).
  rewrite <-(take_drop k (select_datasets db c)) in Hs, Hnc.
  apply StronglySorted_app in Hs as (Hcross & _ & Hsd).
  assert (forall x, x ∈ drop k (select_datasets db c) -> x ∈ select_datasets db c) as Hin.
  { intros x Hx. rewrite <-(take_drop k (select_datasets db c)), elem_of_app. auto. }
  assert (forall x, x ∈ drop k (select_datasets db c) -> dataset_pk x <= dataset_pk d) as Hle.
  { intros x. rewrite Ed, elem_of_cons. intros [->|Hx]; [lia|].
    rewrite Ed in Hsd. apply StronglySorted_inv in Hsd as [_ Hall].
    rewrite Forall_forall in Hall. exact (Hall x Hx). }
  apply (StronglySorted_unique_strong by_id_desc); [|apply select_datasets_sorted|done|].
  - intros x1 x2 [H1 _]%elem_of_select_datasets H2%Hin%elem_of_select_datasets.
    unfold by_id_desc. intros ? ?. destruct H2 as [H2 _].
    apply (NoDup_fmap_elem_inj dataset_pk (tbl_datasets db)); auto. lia.
  - apply NoDup_Permutation.
    + eapply NoDup_fmap_1, NoDup_select_datasets, Hn.
    + rewrite fmap_app in Hnc. apply NoDup_app in Hnc as (_ & _ & Hnd).
      by eapply NoDup_fmap_1.
    + intros x. rewrite elem_of_select_datasets. cbn [at_cursor]. split.
      * intros [Hx Hxd%Z.leb_le].
        assert (x ∈ select_datasets db c) as Hxc.
        { apply elem_of_select_datasets. split; [done|].
          destruct c as [n|]; [|done]. cbn [at_cursor] in *.
          apply Z.leb_le. apply Z.leb_le in Hc. lia. }
        rewrite <-(take_drop k (select_datasets db c)), elem_of_app in Hxc.
        destruct Hxc as [Hxt|]; [|done].
        assert (d ∈ drop k (select_datasets db c)) as Hdd by (rewrite Ed; left).
        specialize (Hcross x d Hxt Hdd). unfold by_id_desc in Hcross.
        assert (x = d) as ->; [|done].
        apply (NoDup_fmap_elem_inj dataset_pk (tbl_datasets db)); auto; [|lia].
        by apply elem_of_select_datasets in Hd as [? _].
      * intros Hx. split.
        -- by apply Hin, elem_of_select_datasets in Hx as [? _].
        -- apply Z.leb_le. auto.
Qed.

Lemma list_datasets_limit int cursor_node_id to_cursor negative_limit db request l :
  match limit request with Some s => int s | None => Ok 10 end = Ok l ->
  list_datasets int cursor_node_id to_cursor negative_limit db request
  = match or_else (cursor request) None with
    | Some cursor =>
        match cursor_node_id cursor with
        | Ok cursor_id => page_of to_cursor negative_limit db l (Some cursor_id)
        | Raise (ValueError _) =>
            Ok (TextResponse 422 ("Invalid cursor format: " ++ cursor)%string)
        | Raise e => Raise e
        end
    | None => page_of to_cursor negative_limit db l None
    end.
Proof. intros Hint. unfold list_datasets. by rewrite Hint. Qed.

End listing.

Import datasets_listing.

(** X1: for a limit that is not negative, the page holds the first [limit]
    rows of the query, in its order, and its cursor is the id of the row after
    them: there is a cursor exactly when more rows than [limit] are left. *)
Theorem listing_page_and_cursor
    (to_cursor : Z -> string) (negative_limit : list Dataset -> result (list Dataset))
    (db : Database) (limit : Z) (cursor_id : option Z) :
  (0 <= limit)%Z ->
  exists page,
    page_of to_cursor negative_limit db limit cursor_id = Ok (JSONResponse 200 page)
    /\ data page = take (Z.to_nat limit) (select_datasets db cursor_id)
    /\ next_cursor page
       = (fun d => to_cursor (dataset_pk d))
           <$> select_datasets db cursor_id !! Z.to_nat limit
    /\ (Z.of_nat (length (data page)) <= limit)%Z
    /\ (next_cursor page = None
        <-> data page = select_datasets db cursor_id).
Proof.
  intros Hl. eexists. split; [by apply page_of_spec|]. cbn [data next_cursor].
  split; [done|]. split; [done|]. split.
  - rewrite length_take. lia.
  - rewrite fmap_None. split.
    + intros Hn%lookup_ge_None_1. by apply take_ge.
    + intros E. apply lookup_ge_None_2. rewrite <-E at 1. rewrite length_take. lia.
Qed.

Lemma listing_page_and_cursor_witness :
  (0 <= 1)%Z
  /\ exists page,
    page_of sample_to_cursor sample_negative_limit (sample_db []) 1 None
    = Ok (JSONResponse 200 page)
    /\ data page = take (Z.to_nat 1) (select_datasets (sample_db []) None)
    /\ next_cursor page
       = (fun d => sample_to_cursor (dataset_pk d))
           <$> select_datasets (sample_db []) None !! Z.to_nat 1
    /\ (Z.of_nat (length (data page)) <= 1)%Z
    /\ (next_cursor page = None
        <-> data page = select_datasets (sample_db []) None).
Proof.
  split; [lia|].
  apply (listing_page_and_cursor sample_to_cursor sample_negative_limit
           (sample_db []) 1 None). lia.
Defined.

(** X2: a request with a limit that is not negative and a cursor of id [n] is
    answered with status 200; the datasets of the page are datasets of the
    table whose ids are at most [n], in strictly descending order of id, and
    every dataset of such an id that the page leaves out has a smaller id than
    all the listed ones. *)
Theorem listed_datasets_descend_from_cursor
    (int cursor_node_id : string -> result Z) (to_cursor : Z -> string)
    (negative_limit : list Dataset -> result (list Dataset))
    (db : Database) (request : ListRequest) (cur : string) (l n : Z) :
  NoDup (dataset_pk <$> tbl_datasets db) ->
  match limit request with Some s => int s | None => Ok 10%Z end = Ok l ->
  (0 <= l)%Z ->
  cursor request = Some cur -> truthy cur = true ->
  cursor_node_id cur = Ok n ->
  exists page,
    list_datasets int cursor_node_id to_cursor negative_limit db request
    = Ok (JSONResponse 200 page)
    /\ (forall d, d ∈ data page -> d ∈ tbl_datasets db /\ (dataset_pk d <= n)%Z)
    /\ StronglySorted (fun a b => (dataset_pk b < dataset_pk a)%Z) (data page)
    /\ (forall d d', d ∈ data page -> d' ∈ tbl_datasets db ->
          (dataset_pk d' <= n)%Z -> d' ∉ data page ->
          (dataset_pk d' < dataset_pk d)%Z).
Proof.
  intros Hn Hint Hl Hcur Ht Hid. unfold list_datasets.
  rewrite Hint, Hcur. unfold mbind at 1, result_bind at 1; cbn [Py.bind or_else].
  rewrite Ht, Hid. rewrite page_of_spec by done.
  eexists. split; [done|]. cbn [data].
  set (rows := select_datasets db (Some n)).
  pose proof (select_datasets_sorted db (Some n)) as Hs.
  pose proof (NoDup_select_datasets db (Some n) Hn) as Hnd.
  fold rows in Hs, Hnd.
  assert (forall d, d ∈ take (Z.to_nat l) rows -> d ∈ rows) as Hin.
  { intros d Hd. rewrite <-(take_drop (Z.to_nat l) rows), elem_of_app. auto. }
  split; [|split].
  - intros d [Hd Hc]%Hin%elem_of_select_datasets. split; [done|].
    by apply Z.leb_le in Hc.
  - rewrite <-(take_drop (Z.to_nat l) rows) in Hs, Hnd.
    apply StronglySorted_app in Hs as (_ & Hs & _).
    rewrite fmap_app in Hnd. apply NoDup_app in Hnd as (Hnd & _ & _).
    by apply sorted_strictly.
  - intros d d' Hd Hd' Hle Hout.
    assert (d' ∈ rows) as Hr.
    { apply elem_of_select_datasets. split; [done|]. by apply Z.leb_le. }
    rewrite <-(take_drop (Z.to_nat l) rows), elem_of_app in Hr.
    destruct Hr as [|Hr]; [done|].
    apply sorted_strictly in Hs; [|done].
    rewrite <-(take_drop (Z.to_nat l) rows) in Hs.
    apply StronglySorted_app in Hs as (Hcross & _ & _). exact (Hcross d d' Hd Hr).
Qed.

Lemma listed_datasets_descend_from_cursor_witness :
  exists page,
    list_datasets sample_int sample_cursor_node_id sample_to_cursor
      sample_negative_limit (sample_db [])
      {| cursor := Some "Dataset:2"; limit := Some "1" |}
    = Ok (JSONResponse 200 page)
    /\ (forall d, d ∈ data page -> d ∈ tbl_datasets (sample_db []) /\ (dataset_pk d <= 2)%Z)
    /\ StronglySorted (fun a b => (dataset_pk b < dataset_pk a)%Z) (data page)
    /\ (forall d d', d ∈ data page -> d' ∈ tbl_datasets (sample_db []) ->
          (dataset_pk d' <= 2)%Z -> d' ∉ data page ->
          (dataset_pk d' < dataset_pk d)%Z).
Proof.
  apply (listed_datasets_descend_from_cursor sample_int sample_cursor_node_id
           sample_to_cursor sample_negative_limit (sample_db [])
           {| cursor := Some "Dataset:2"; limit := Some "1" |} "Dataset:2" 1 2).
  - apply (bool_decide_unpack _). vm_compute. reflexivity.
  - vm_compute. reflexivity.
  - lia.
  - reflexivity.
  - reflexivity.
  - vm_compute. reflexivity.
Defined.

(** X3: the cursor of a page continues the listing.  When the ids of the
    table are distinct and the cursor of an id reads back as that id, the
    request made with the cursor of a page and the same limit is answered with
    the rows that follow the page: the two pages together are the first
    [2 * limit] rows of the query, none left out and none twice. *)
Theorem next_cursor_continues_the_listing
    (int cursor_node_id : string -> result Z) (to_cursor : Z -> string)
    (negative_limit : list Dataset -> result (list Dataset))
    (db : Database) (request : ListRequest) (l : Z) (cursor_id : option Z)
    (page : Page) (next : string) :
  NoDup (dataset_pk <$> tbl_datasets db) ->
  (forall d, d ∈ tbl_datasets db ->
     cursor_node_id (to_cursor (dataset_pk d)) = Ok (dataset_pk d)
     /\ truthy (to_cursor (dataset_pk d)) = true) ->
  match limit request with Some s => int s | None => Ok 10%Z end = Ok l ->
  (0 <= l)%Z ->
  page_of to_cursor negative_limit db l cursor_id = Ok (JSONResponse 200 page) ->
  next_cursor page = Some next ->
  exists page',
    list_datasets int cursor_node_id to_cursor negative_limit db
      {| cursor := Some next; limit := limit request |}
    = Ok (JSONResponse 200 page')
    /\ data page' = take (Z.to_nat l) (drop (Z.to_nat l) (select_datasets db cursor_id))
    /\ (data page ++ data page')%list
       = take (Z.to_nat l + Z.to_nat l) (select_datasets db cursor_id)
    /\ next_cursor page'
       = (fun d => to_cursor (dataset_pk d))
           <$> select_datasets db cursor_id !! (Z.to_nat l + Z.to_nat l)%nat.
Proof.
  intros Hn Hrt Hint Hl Hp Hnext.
  rewrite page_of_spec in Hp by done. injection Hp as <-. cbn [next_cursor data] in *.
  apply fmap_Some in Hnext as (d & Hd & ->).
  assert (d ∈ tbl_datasets db) as Hdt.
  { apply list_elem_of_lookup_2 in Hd. by apply elem_of_select_datasets in Hd as [? _]. }
  destruct (Hrt d Hdt) as [Hid Ht].
  unfold list_datasets. cbn [limit cursor]. rewrite Hint.
  unfold mbind at 1, result_bind at 1; cbn [Py.bind or_else].
  rewrite Ht, Hid, page_of_spec by done.
  rewrite (select_datasets_next db cursor_id (Z.to_nat l) d Hn Hd).
  eexists. split; [done|]. cbn [data next_cursor].
  split; [done|]. split.
  - apply take_take_drop.
  - by rewrite lookup_drop.
Qed.

Lemma next_cursor_continues_the_listing_witness :
  exists page',
    list_datasets sample_int sample_cursor_node_id sample_to_cursor
      sample_negative_limit (sample_db [])
      {| cursor := Some "Dataset:1"; limit := Some "1" |}
    = Ok (JSONResponse 200 page')
    /\ data page' = take (Z.to_nat 1) (drop (Z.to_nat 1) (select_datasets (sample_db []) None))
    /\ ([ {| dataset_pk := 2; dataset_name := "other" |} ] ++ data page')%list
       = take (Z.to_nat 1 + Z.to_nat 1) (select_datasets (sample_db []) None)
    /\ next_cursor page'
       = (fun d => sample_to_cursor (dataset_pk d))
           <$> select_datasets (sample_db []) None !! (Z.to_nat 1 + Z.to_nat 1)%nat.
Proof.
  apply (next_cursor_continues_the_listing sample_int sample_cursor_node_id
           sample_to_cursor sample_negative_limit (sample_db [])
           {| cursor := None; limit := Some "1" |} 1 None
           {| next_cursor := Some "Dataset:1";
              data := [ {| dataset_pk := 2; dataset_name := "other" |} ] |}
           "Dataset:1").
  - apply (bool_decide_unpack _). vm_compute. reflexivity.
  - intros d Hd. vm_compute in Hd.
    apply elem_of_cons in Hd as [->|Hd]; [by vm_compute|].
    apply elem_of_cons in Hd as [->|Hd]; [by vm_compute|].
    by apply elem_of_nil in Hd.
  - vm_compute. reflexivity.
  - lia.
  - vm_compute. reflexivity.
  - reflexivity.
Defined.

(** X4: the answers of the listing.  A cursor that is absent or the empty
    string is no cursor; a cursor whose id cannot be read (a ValueError) is
    answered 422 with the cursor in the text, whatever the database holds,
    and any other exception of reading it escapes the handler; with a limit
    that is not negative every other request is answered 200, also when no
    dataset is found: the handler never answers 404. *)
Theorem listing_answers
    (int cursor_node_id : string -> result Z) (to_cursor : Z -> string)
    (negative_limit : list Dataset -> result (list Dataset))
    (db : Database) (request : ListRequest) (l : Z) :
  match limit request with Some s => int s | None => Ok 10%Z end = Ok l ->
  (0 <= l)%Z ->
  (or_else (cursor request) None = None ->
     list_datasets int cursor_node_id to_cursor negative_limit db request
     = page_of to_cursor negative_limit db l None)
  /\ (forall cur msg, or_else (cursor request) None = Some cur ->
        cursor_node_id cur = Raise (ValueError msg) ->
        list_datasets int cursor_node_id to_cursor negative_limit db request
        = Ok (TextResponse 422 ("Invalid cursor format: " ++ cur)))
  /\ (forall cur e, or_else (cursor request) None = Some cur ->
        cursor_node_id cur = Raise e -> (forall msg, e <> ValueError msg) ->
        list_datasets int cursor_node_id to_cursor negative_limit db request
        = Raise e)
  /\ (forall response,
        list_datasets int cursor_node_id to_cursor negative_limit db request
        = Ok response ->
        (exists page, response = JSONResponse 200 page)
        \/ (exists text, response = TextResponse 422 text))
  /\ (tbl_datasets db = [] -> or_else (cursor request) None = None ->
        list_datasets int cursor_node_id to_cursor negative_limit db request
        = Ok (JSONResponse 200 {| next_cursor := None; data := [] |})).
Proof.
  intros Hint Hl. rewrite (list_datasets_limit _ _ _ _ _ _ l Hint).
  split; [by intros ->|]. split; [by intros cur msg -> ->|]. split.
  { intros cur e -> -> He. destruct e; try done. by destruct (He msg). }
  split.
  - intros response. destruct (or_else (cursor request) None) as [cur|].
    + destruct (cursor_node_id cur) as [n|[]]; try done.
      * rewrite page_of_spec by done. intros [= <-]. left. by eexists.
      * intros [= <-]. right. by eexists.
    + rewrite page_of_spec by done. intros [= <-]. left. by eexists.
  - intros Hdb ->. rewrite page_of_spec by done.
    unfold select_datasets. rewrite Hdb. cbn.
    by destruct (Z.to_nat l).
Qed.

Lemma listing_answers_witness :
  list_datasets sample_int sample_cursor_node_id sample_to_cursor
    sample_negative_limit (sample_db [])
    {| cursor := Some "Dataset:x"; limit := Some "2" |}
  = Ok (TextResponse 422 "Invalid cursor format: Dataset:x").
Proof.
  refine (proj1 (proj2
    (listing_answers sample_int sample_cursor_node_id sample_to_cursor
       sample_negative_limit (sample_db [])
       {| cursor := Some "Dataset:x"; limit := Some "2" |} 2 _ _))
    "Dataset:x" "Invalid cursor: Dataset:x" eq_refl _).
  - vm_compute. reflexivity.
  - lia.
  - vm_compute. reflexivity.
Defined.
